(** * PostcardProcessor: layout, metadata and composition

    A shallow embedding of [PostcardProcessor.py] and the properties its
    specification states about it.

    - Python [float]s are IEEE-754 binary64 numbers; they are modelled by
      the rationals they denote, every operation rounding its exact result
      to the nearest binary64 value, ties to even ([Binary64]).
    - Exceptions are values of [exn]; a computation that can raise returns an
      [outcome]. Code that prints, draws on the canvas or writes files runs
      in a state-and-exception monad over [world].
    - Pillow, the font loader and the file system are capabilities the
      script calls; they are the fields of the class [Pillow]. *)

From stdpp Require Import gmap strings.
From Stdlib Require Import ZArith QArith Qround Qabs Qpower Qminmax Lia Lqa Ascii String.
From Stdlib Require Import SpecFloat.

Set Warnings "-register-all".

Local Open Scope string_scope.
Local Open Scope list_scope.
Local Open Scope Z_scope.

(** ** Exceptions and outcomes *)

Inductive exn : Type :=
| ZeroDivisionError
| OverflowError
| NameError (name : string)
| ValueError
| TypeError
| LibraryError (what : string).

Inductive outcome (A : Type) : Type :=
| Ok (a : A)
| Raise (e : exn).

Arguments Ok {A} a.
Arguments Raise {A} e.

#[global] Instance outcome_ret : MRet outcome := fun A a => Ok a.
#[global] Instance outcome_bind : MBind outcome := fun A B k m =>
  match m with
  | Ok a => k a
  | Raise e => Raise e
  end.

(** ** Binary64 arithmetic as CPython performs it *)

Module Binary64.

(** The largest [l] with [2^l <= n/d]. *)
Definition ilog2 (n d : positive) : Z :=
  let l := Z.log2 (Zpos n) - Z.log2 (Zpos d) in
  if Qle_bool (2 ^ l) (Zpos n # d) then l else l - 1.

(** The integer nearest to [y], the even one of two equally near. *)
Definition rne (y : Q) : Z :=
  let q := Qfloor y in
  match Qcompare (y - inject_Z q) (1 # 2) with
  | Lt => q
  | Gt => q + 1
  | Eq => if Z.even q then q else q + 1
  end.

(** Exponent of the unit in the last place of a positive [n/d]: 53
    significant bits, and no finer than the subnormal spacing [2^-1074]. *)
Definition ulp_exp (n d : positive) : Z := Z.max (ilog2 n d - 52) (-1074).

Definition round_pos (n d : positive) : Q :=
  let e := ulp_exp n d in
  (inject_Z (rne ((Zpos n # d) * 2 ^ (- e))) * 2 ^ e)%Q.

(** Round to nearest, ties to even, with an unbounded exponent above. *)
Definition round64 (x : Q) : Q :=
  match Qnum x with
  | Z0 => 0%Q
  | Zpos n => round_pos n (Qden x)
  | Zneg n => (- round_pos n (Qden x))%Q
  end.

(** Strictly below [2^1024] in magnitude: a finite binary64 value. *)
Definition overflow_threshold : Q := 2 ^ 1024.
Definition finite (x : Q) : bool := negb (Qle_bool overflow_threshold (Qabs x)).

(** The least positive normal number, [2^-1022]. *)
Definition min_normal : Q := 2 ^ (-1022).

(** Unit roundoff, [2^-53]. *)
Definition u : Q := 2 ^ (-53).

Definition to_float (x : Q) : outcome Q :=
  let r := round64 x in
  if finite r then Ok r else Raise OverflowError.

(** A decimal literal of the source text. *)
Definition literal (x : Q) : Q := round64 x.

(** [float(z)], the conversion every mixed operation applies to its [int]
    operand; CPython raises [OverflowError] when [z] is too large. *)
Definition of_int (z : Z) : outcome Q := to_float (inject_Z z).

(** [a / b] on two [int]s: the correctly rounded quotient. *)
Definition int_truediv (a b : Z) : outcome Q :=
  if b =? 0 then Raise ZeroDivisionError
  else to_float (inject_Z a / inject_Z b).

(** [x * y], [x - y] and [x / y] on [float]s. A result outside the finite
    range is an infinity in CPython; it is reported here as
    [OverflowError], the exception [int()] raises on it. *)
Definition mul (x y : Q) : outcome Q := to_float (x * y).
Definition sub (x y : Q) : outcome Q := to_float (x - y).
Definition truediv (x y : Q) : outcome Q :=
  if Qeq_bool y 0 then Raise ZeroDivisionError else to_float (x / y).

Definition ltb (x y : Q) : bool := negb (Qle_bool y x).

(** [min(x, y)]: the first argument unless the second is smaller. *)
Definition min (x y : Q) : Q := if ltb y x then y else x.

(** [int(x)]: truncation toward zero. *)
Definition to_int (x : Q) : Z := Z.quot (Qnum x) (Zpos (Qden x)).

End Binary64.

(** ** LayoutPlanner *)

Definition A6_WIDTH : Z := 1240.
Definition A6_HEIGHT : Z := 1748.
Definition WHITE_BAR_RATIO : Q := Binary64.literal (18 # 100).

(** [int * float], [int - float] and [float / int] convert the [int]
    operand first. *)
Definition int_mul_float (z : Z) (x : Q) : outcome Q :=
  f ← Binary64.of_int z; Binary64.mul f x.
Definition int_sub_float (z : Z) (x : Q) : outcome Q :=
  f ← Binary64.of_int z; Binary64.sub f x.
Definition float_div_int (x : Q) (z : Z) : outcome Q :=
  f ← Binary64.of_int z; Binary64.truediv x f.

(** [int(self.A6_HEIGHT * (1 - self.WHITE_BAR_RATIO))] *)
Definition available_height : outcome Z :=
  r ← int_sub_float 1 WHITE_BAR_RATIO;
  h ← int_mul_float A6_HEIGHT r;
  Ok (Binary64.to_int h).

Definition available_width : Z := A6_WIDTH.

Definition calculate_dimensions (original_width original_height : Z)
  : outcome (Z * Z) :=
  available_height ← available_height;
  width_ratio ← Binary64.int_truediv available_width original_width;
  height_ratio ← Binary64.int_truediv available_height original_height;
  let scale_ratio := Binary64.min width_ratio height_ratio in
  w ← int_mul_float original_width scale_ratio;
  let new_width := Binary64.to_int w in
  h ← int_mul_float original_height scale_ratio;
  let new_height := Binary64.to_int h in
  Ok (new_width, new_height).

(** [min(self.A6_WIDTH / a, (self.A6_HEIGHT * 0.82) / b)] *)
Definition fit_ratio (a b : Z) : outcome Q :=
  r1 ← Binary64.int_truediv A6_WIDTH a;
  area ← int_mul_float A6_HEIGHT (Binary64.literal (82 # 100));
  r2 ← float_div_int area b;
  Ok (Binary64.min r1 r2).

Definition should_rotate_for_a6 (width height : Z) : outcome bool :=
  if height <? width then
    horizontal_ratio ← fit_ratio width height;
    vertical_ratio ← fit_ratio height width;
    scaled ← Binary64.mul horizontal_ratio (Binary64.literal (11 # 10));
    Ok (Binary64.ltb scaled vertical_ratio)
  else Ok false.

(** [white_bar_height = int(self.A6_HEIGHT * self.WHITE_BAR_RATIO)] *)
Definition white_bar_height : outcome Z :=
  h ← int_mul_float A6_HEIGHT WHITE_BAR_RATIO;
  Ok (Binary64.to_int h).

(** [x_offset = (self.A6_WIDTH - new_width) // 2] *)
Definition x_offset (new_width : Z) : Z := (A6_WIDTH - new_width) / 2.
Definition y_offset : Z := 0.

(** ** The planner on the Standard Library's binary64

    The two functions once more, on [spec_float] with the operations of
    [SpecFloat] at precision 53 and exponent bound 1024, for sizes that
    convert exactly; the properties compare them with the model above on
    samples. *)

Module Reference.

Definition of_Z (z : Z) : spec_float := binary_normalize 53 1024 z 0 false.
Definition ratio (a b : Z) : spec_float := SFdiv 53 1024 (of_Z a) (of_Z b).
Definition times (x y : spec_float) : spec_float := SFmul 53 1024 x y.
Definition minimum (x y : spec_float) : spec_float := if SFltb y x then y else x.

Definition value (x : spec_float) : outcome Q :=
  match x with
  | S754_zero _ => Ok 0%Q
  | S754_finite s m e =>
      Ok ((if s then -1 else 1) * inject_Z (Zpos m) * 2 ^ e)%Q
  | _ => Raise OverflowError
  end.

Definition truncate (x : spec_float) : outcome Z :=
  q ← value x; Ok (Binary64.to_int q).

Definition calculate_dimensions_sf (original_width original_height : Z)
  : outcome (Z * Z) :=
  available_height ←
    truncate (times (of_Z 1748) (SFsub 53 1024 (of_Z 1) (ratio 18 100)));
  let scale_ratio :=
    minimum (ratio 1240 original_width) (ratio available_height original_height) in
  new_width ← truncate (times (of_Z original_width) scale_ratio);
  new_height ← truncate (times (of_Z original_height) scale_ratio);
  Ok (new_width, new_height).

Definition fit_ratio (a b : Z) : spec_float :=
  minimum (ratio 1240 a)
          (SFdiv 53 1024 (times (of_Z 1748) (ratio 82 100)) (of_Z b)).

Definition should_rotate_sf (width height : Z) : bool :=
  (height <? width) &&
  SFltb (times (fit_ratio width height) (ratio 11 10)) (fit_ratio height width).

(** Whether the model and the reference agree on a size. *)
Definition agree (size : Z * Z) : bool :=
  let '(w, h) := size in
  match calculate_dimensions w h, calculate_dimensions_sf w h with
  | Ok (a, b), Ok (c, d) => (a =? c) && (b =? d)
  | _, _ => false
  end &&
  match should_rotate_for_a6 w h with
  | Ok turn => Bool.eqb turn (should_rotate_sf w h)
  | Raise _ => false
  end.

(** Sizes from 1 to 20 on each side, and a few photographs. *)
Definition samples : list (Z * Z) :=
  list_prod (map Z.of_nat (seq 1 20)) (map Z.of_nat (seq 1 20))
  ++ [(4000, 3000); (3000, 4000); (6000, 4000); (1920, 1080); (621, 1);
      (10000, 1); (33253, 30230); (33242, 30220); (11001, 10000);
      (2 ^ 31 - 1, 2 ^ 31 - 2); (1, 2 ^ 31 - 1); (2 ^ 52 + 1, 2 ^ 52)].

End Reference.

(** ** MetadataExtractor *)

(** A value of the EXIF table, as [img._getexif()] hands it out. Pillow
    decodes EXIF text as Latin-1, so an [EStr] holds one character per
    element of its [string]. *)
Inductive exif_value : Type :=
| EStr (s : string)
| EBytes (b : string)
| EInt (n : Z)
| ETuple (items : list exif_value)
| EDict (entries : list (Z * exif_value)).

(** Python truthiness, [if value:]. *)
Definition truthy (v : exif_value) : bool :=
  match v with
  | EStr s | EBytes s => negb (String.eqb s "")
  | EInt n => negb (n =? 0)
  | ETuple items => negb (bool_decide (items = []))
  | EDict entries => negb (bool_decide (entries = []))
  end.

Module Strptime.

(** Character classes of the patterns [_strptime] builds. *)
Definition code (c : ascii) : Z := Z.of_N (Ascii.N_of_ascii c).
Definition in_range (lo hi : ascii) (c : ascii) : bool :=
  (code lo <=? code c) && (code c <=? code hi).
Definition digit : ascii -> bool := in_range "0" "9".
Definition exactly (a : ascii) (c : ascii) : bool := code c =? code a.
(** [\s] on Latin-1 text: tab to carriage return, the four separators
    [0x1c]..[0x1f], the space, the next-line control [0x85] and the
    no-break space [0xa0]. *)
Definition space (c : ascii) : bool :=
  ((9 <=? code c) && (code c <=? 13)) || ((28 <=? code c) && (code c <=? 32))
  || (code c =? 133) || (code c =? 160).

(** One alternative of a directive: a fixed sequence of classes. Returns
    the matched text and the rest. *)
Fixpoint match_classes (cs : list (ascii -> bool)) (s : string)
  : option (string * string) :=
  match cs with
  | [] => Some (EmptyString, s)
  | cl :: cs' =>
      match s with
      | String c s' =>
          if cl c then
            match match_classes cs' s' with
            | Some (txt, rest) => Some (String c txt, rest)
            | None => None
            end
          else None
      | EmptyString => None
      end
  end.

(** [a1|a2|...] followed by the continuation [k]: the first alternative
    after which the rest of the pattern matches. *)
Fixpoint alternatives {A : Type} (alts : list (list (ascii -> bool)))
    (k : string -> string -> option A) (s : string) : option A :=
  match alts with
  | [] => None
  | a :: alts' =>
      let here := match match_classes a s with
                  | Some (txt, rest) => k txt rest
                  | None => None
                  end in
      match here with
      | Some r => Some r
      | None => alternatives alts' k s
      end
  end.

(** [\s+] followed by [k]: greedy, giving characters back on failure. *)
Fixpoint spaces {A : Type} (k : string -> option A) (s : string) : option A :=
  match s with
  | String c s' =>
      if space c then
        match spaces k s' with
        | Some r => Some r
        | None => k s'
        end
      else None
  | EmptyString => None
  end.

Inductive item : Type :=
| Directive (name : ascii) (alts : list (list (ascii -> bool)))
| Literal (c : ascii)
| Whitespace.

Fixpoint match_items (items : list item) (groups : list (ascii * string))
    (s : string) : option (list (ascii * string) * string) :=
  match items with
  | [] => Some (groups, s)
  | Directive name alts :: items' =>
      alternatives alts (fun txt rest => match_items items' ((name, txt) :: groups) rest) s
  | Literal c :: items' =>
      match s with
      | String c' s' => if exactly c c' then match_items items' groups s' else None
      | EmptyString => None
      end
  | Whitespace :: items' => spaces (match_items items' groups) s
  end.

(** The directives of ['%Y:%m:%d %H:%M:%S'], as [TimeRE] defines them. *)
Definition dir_Y := Directive "Y" [[digit; digit; digit; digit]].
Definition dir_m := Directive "m"
  [[exactly "1"; in_range "0" "2"]; [exactly "0"; in_range "1" "9"]; [in_range "1" "9"]].
Definition dir_d := Directive "d"
  [[exactly "3"; in_range "0" "1"]; [in_range "1" "2"; digit];
   [exactly "0"; in_range "1" "9"]; [in_range "1" "9"]; [exactly " "; in_range "1" "9"]].
Definition dir_H := Directive "H"
  [[exactly "2"; in_range "0" "3"]; [in_range "0" "1"; digit]; [digit]].
Definition dir_M := Directive "M" [[in_range "0" "5"; digit]; [digit]].
Definition dir_S := Directive "S"
  [[exactly "6"; in_range "0" "1"]; [in_range "0" "5"; digit]; [digit]].

Definition exif_format : list item :=
  [dir_Y; Literal ":"; dir_m; Literal ":"; dir_d; Whitespace;
   dir_H; Literal ":"; dir_M; Literal ":"; dir_S].

(** [int(text)] on a captured group: decimal digits, blanks skipped. *)
Fixpoint int_of (acc : Z) (s : string) : Z :=
  match s with
  | EmptyString => acc
  | String c s' => if digit c then int_of (10 * acc + (code c - 48)) s' else int_of acc s'
  end.

Definition group (name : ascii) (groups : list (ascii * string)) : Z :=
  match List.find (fun g => exactly name (fst g)) groups with
  | Some g => int_of 0 (snd g)
  | None => 0
  end.

Record datetime : Type := Datetime {
  year : Z; month : Z; day : Z; hour : Z; minute : Z; second : Z
}.

Definition is_leap (y : Z) : bool :=
  ((y mod 4 =? 0) && negb (y mod 100 =? 0)) || (y mod 400 =? 0).

Definition days_in_month (y m : Z) : Z :=
  if m =? 2 then (if is_leap y then 29 else 28)
  else if (m =? 4) || (m =? 6) || (m =? 9) || (m =? 11) then 30
  else 31.

(** The checks of the [datetime] constructor. *)
Definition valid (t : datetime) : bool :=
  (1 <=? year t) && (year t <=? 9999) &&
  (1 <=? month t) && (month t <=? 12) &&
  (1 <=? day t) && (day t <=? days_in_month (year t) (month t)) &&
  (0 <=? hour t) && (hour t <=? 23) &&
  (0 <=? minute t) && (minute t <=? 59) &&
  (0 <=? second t) && (second t <=? 59).

(** [datetime.strptime(value, '%Y:%m:%d %H:%M:%S')] on a string. *)
Definition strptime (data_string : string) : outcome datetime :=
  match match_items exif_format [] data_string with
  | None => Raise ValueError
  | Some (groups, rest) =>
      if negb (String.eqb rest "") then Raise ValueError
      else
        let t := Datetime (group "Y" groups) (group "m" groups) (group "d" groups)
                          (group "H" groups) (group "M" groups) (group "S" groups) in
        if valid t then Ok t else Raise ValueError
  end.

Definition month_abbr (m : Z) : string :=
  match m with
  | 1 => "Jan" | 2 => "Feb" | 3 => "Mar" | 4 => "Apr" | 5 => "May" | 6 => "Jun"
  | 7 => "Jul" | 8 => "Aug" | 9 => "Sep" | 10 => "Oct" | 11 => "Nov" | _ => "Dec"
  end.

Definition digit_char (d : Z) : ascii := Ascii.ascii_of_N (Z.to_N (48 + d mod 10)).

(** [n] in decimal on [width] digits, zero-padded. *)
Fixpoint decimal (width : nat) (n : Z) : string :=
  match width with
  | O => EmptyString
  | S w => decimal w (n / 10) +:+ String (digit_char n) EmptyString
  end.

(** [n] in decimal as it is, without padding, on at most [fuel] digits. *)
Fixpoint unpadded (fuel : nat) (n : Z) : string :=
  match fuel with
  | O => EmptyString
  | S fuel' =>
      (if n <? 10 then EmptyString else unpadded fuel' (n / 10))
      +:+ String (digit_char n) EmptyString
  end.

(** [t.strftime('%b %d, %Y')] in the C locale, as CPython hands it to the
    C library: [%d] is padded to two digits; [%Y] is the year as glibc
    prints it, without padding (a [datetime] year has at most four
    digits). *)
Definition strftime (t : datetime) : string :=
  month_abbr (month t) +:+ " " +:+ decimal 2 (day t) +:+ ", " +:+ unpadded 4 (year t).

(** The EXIF form of a date and time, [YYYY:MM:DD HH:MM:SS]. *)
Definition exif_timestamp (t : datetime) : string :=
  decimal 4 (year t) +:+ ":" +:+ decimal 2 (month t) +:+ ":" +:+ decimal 2 (day t)
  +:+ " " +:+ decimal 2 (hour t) +:+ ":" +:+ decimal 2 (minute t) +:+ ":"
  +:+ decimal 2 (second t).

End Strptime.

(** An excerpt of [PIL.ExifTags.TAGS]; no other identifier maps to
    ['DateTimeOriginal'] or ['GPSInfo']. *)
Definition TAGS : gmap Z string :=
  list_to_map
    [(271, "Make"); (272, "Model"); (274, "Orientation"); (306, "DateTime");
     (34853, "GPSInfo"); (36867, "DateTimeOriginal"); (36868, "DateTimeDigitized")].

(** [tag_name = TAGS.get(tag, tag)]: the name, or the identifier itself. *)
Inductive tag_name : Type :=
| Named (name : string)
| Unnamed (tag : Z).

Definition TAGS_get (tag : Z) : tag_name :=
  match TAGS !! tag with
  | Some name => Named name
  | None => Unnamed tag
  end.

Definition name_is (t : tag_name) (name : string) : bool :=
  match t with
  | Named n => String.eqb n name
  | Unnamed _ => false
  end.

(** [datetime.strptime(value, ...)] on any value: a non-string raises
    [TypeError]. *)
Definition strptime_value (value : exif_value) : outcome Strptime.datetime :=
  match value with
  | EStr s => Strptime.strptime s
  | _ => Raise TypeError
  end.

(** The date text for the value of the ['DateTimeOriginal'] tag. *)
Definition reformat (value : exif_value) : exif_value :=
  match strptime_value value with
  | Ok datetime_obj => EStr (Strptime.strftime datetime_obj)
  | Raise _ => value
  end.

(** The literal [extract_gps_location] returns, in UTF-8. *)
Definition GPS_PLACEHOLDER : string := "拍摄地点".

Definition extract_gps_location (gps_info : exif_value) : option exif_value :=
  if truthy gps_info then Some (EStr GPS_PLACEHOLDER) else None.

(** The body of [for tag, value in exif_dict.items()], on the pair
    [(datetime_str, location_str)]. *)
Definition exif_step (tag : Z) (value : exif_value)
    (acc : option exif_value * option exif_value)
  : option exif_value * option exif_value :=
  let tag_name := TAGS_get tag in
  if name_is tag_name "DateTimeOriginal" then
    (Some match strptime_value value with
          | Ok datetime_obj => EStr (Strptime.strftime datetime_obj)
          | Raise _ => value
          end, acc.2)
  else if name_is tag_name "GPSInfo" then
    (acc.1, extract_gps_location value)
  else acc.

Definition scan_exif (exif_dict : gmap Z exif_value)
  : option exif_value * option exif_value :=
  map_fold exif_step (None, None) exif_dict.

(** [line1 = datetime_str if datetime_str else "2024.01.01"] and
    [line2 = location_str if location_str else "SHENZHEN"]. *)
Definition or_default (value : option exif_value) (default : string) : exif_value :=
  match value with
  | Some v => if truthy v then v else EStr default
  | None => EStr default
  end.

Definition caption_date (datetime_str : option exif_value) : exif_value :=
  or_default datetime_str "2024.01.01".
Definition caption_location (location_str : option exif_value) : exif_value :=
  or_default location_str "SHENZHEN".

(** ** File names *)

Definition lower_char (c : ascii) : ascii :=
  if Strptime.in_range "A" "Z" c
  then Ascii.ascii_of_N (Ascii.N_of_ascii c + 32)
  else c.

(** [str.lower()] on the letters A to Z, the only ones a suffix test
    below depends on. *)
Fixpoint lower (s : string) : string :=
  match s with
  | EmptyString => EmptyString
  | String c s' => String (lower_char c) (lower s')
  end.

Definition endswith (s suffix : string) : bool :=
  (String.length suffix <=? String.length s)%nat &&
  String.eqb (String.substring (String.length s - String.length suffix)
                               (String.length suffix) s) suffix.

(** [path.lower().endswith(('.nef', '.raw'))] *)
Definition is_raw (path : string) : bool :=
  endswith (lower path) ".nef" || endswith (lower path) ".raw".

Definition supported_formats : list string :=
  [".jpg"; ".jpeg"; ".nef"; ".raw"; ".tiff"; ".png"].

Definition is_supported (filename : string) : bool :=
  existsb (endswith (lower filename)) supported_formats.

(** ** PostcardComposer *)

Definition color : Type := Z * Z * Z.
Definition WHITE_BAR_COLOR : color := (248, 246, 240).
Definition TEXT_COLOR : color := (90, 90, 90).

(** What has been drawn on the canvas, in order. *)
Inductive draw_op (I F : Type) : Type :=
| Paste (img : I) (xy : Z * Z)
| Rectangle (box : Z * Z * Z * Z) (fill : color)
| Text (xy : Z * Z) (text : exif_value) (fill : color) (font : F).

Arguments Paste {I F} img xy.
Arguments Rectangle {I F} box fill.
Arguments Text {I F} xy text fill font.

(** A file of the output folder: a canvas encoded in full, or whatever a
    failed [save] left behind. *)
Inductive file (I F : Type) : Type :=
| Encoded (canvas : list (draw_op I F))
| Truncated.

Arguments Encoded {I F} canvas.
Arguments Truncated {I F}.

Inductive message : Type :=
| RawReadFailed (file_path : string) (e : exn)
| CannotRead (image_path : string)
| Rotated
| Done (output_path : string)
| Failed (image_path : string) (e : exn)
| TextFailed (e : exn)
| Processing (filename : string)
| Summary (processed_count : Z).

(** Pillow, [os] and the fonts of the machine, as the script calls them.
    The input files do not change while the batch runs, so [Image_open] is a
    function of the path; [text_error] and [save_error] tell whether
    [draw.text] and [canvas.save] raise. *)
Class Pillow : Type := {
  image : Type;
  font : Type;
  Image_open : string -> outcome image;
  size : image -> Z * Z;
  getexif : image -> outcome (option (gmap Z exif_value));
  rotate : image -> outcome image;
  resize : image -> Z * Z -> outcome image;
  rawpy_read : string -> outcome image;
  truetype : string -> Z -> outcome font;
  load_default : outcome font;
  text_error : font -> exif_value -> option exn;
  save_error : list (draw_op image font) -> string -> option exn;
  path_exists : string -> bool;
  makedirs : string -> outcome unit;
  listdir : string -> outcome (list string);
  path_join : string -> string -> string;
  splitext : string -> string * string
}.

(** The names bound at module level when a method runs, and the builtins
    the script uses; [rawpy] is neither imported nor a builtin. *)
Definition module_globals : list string :=
  ["os"; "Image"; "ImageDraw"; "ImageFont"; "ExifTags"; "TAGS"; "GPSTAGS";
   "datetime"; "PostcardProcessor"; "processor"].
Definition builtins_used : list string :=
  ["print"; "min"; "int"; "Exception"].

Definition lookup_global (name : string) : outcome unit :=
  if bool_decide (name ∈ module_globals ++ builtins_used) then Ok ()
  else Raise (NameError name).

Section Composer.
Context `{Pillow}.

Record world : Type := World {
  canvas : list (draw_op image font);
  files : gmap string (file image font);
  stdout : list message
}.

(** Statements that print, draw, write or raise. *)
Definition M (A : Type) : Type := world -> outcome A * world.

#[global] Instance M_ret : MRet M := fun A a w => (Ok a, w).
#[global] Instance M_bind : MBind M := fun A B k m w =>
  match m w with
  | (Ok a, w') => k a w'
  | (Raise e, w') => (Raise e, w')
  end.

Definition lift {A : Type} (o : outcome A) : M A := fun w => (o, w).

(** [try: body except ...: handler]; every exception of the model is an
    [Exception], so the bare and the [Exception] clauses catch alike. *)
Definition try_except {A : Type} (body : M A) (handler : exn -> M A) : M A :=
  fun w =>
    match body w with
    | (Ok a, w') => (Ok a, w')
    | (Raise e, w') => handler e w'
    end.

Definition print (msg : message) : M unit :=
  fun w => (Ok (), World (canvas w) (files w) (stdout w ++ [msg])).

(** [canvas = Image.new('RGB', (A6_WIDTH, A6_HEIGHT), WHITE_BAR_COLOR)] *)
Definition Image_new : M unit :=
  fun w => (Ok (), World [] (files w) (stdout w)).

Definition draw (op : draw_op image font) : M unit :=
  fun w => (Ok (), World (canvas w ++ [op]) (files w) (stdout w)).

Definition draw_text (xy : Z * Z) (text : exif_value) (fill : color) (f : font)
  : M unit :=
  fun w =>
    match text_error f text with
    | Some e => (Raise e, w)
    | None => draw (Text xy text fill f) w
    end.

(** [canvas.save(output_path, 'JPEG', quality=95, dpi=(300, 300))] *)
Definition save (output_path : string) : M unit :=
  fun w =>
    match save_error (canvas w) output_path with
    | Some e => (Raise e, World (canvas w) (<[output_path := Truncated]> (files w)) (stdout w))
    | None => (Ok (), World (canvas w) (<[output_path := Encoded (canvas w)]> (files w)) (stdout w))
    end.

Definition read_raw_file (file_path : string) : M (option image) :=
  try_except
    (_ ← lift (lookup_global "rawpy");
     img ← lift (rawpy_read file_path);
     mret (Some img))
    (fun e => print (RawReadFailed file_path e);; mret None).

Definition extract_exif_data (image_path : string)
  : M (option exif_value * option exif_value) :=
  found ← try_except
    (img ← lift (Image_open image_path);
     exif_dict ← lift (getexif img);
     mret (Some exif_dict))
    (fun _ =>
       if is_raw image_path then
         img ← read_raw_file image_path;
         match img with
         | Some img => exif_dict ← lift (getexif img); mret (Some exif_dict)
         | None => mret None
         end
       else mret None);
  match found with
  | None => mret (None, None)
  | Some None => mret (None, None)
  | Some (Some exif_dict) =>
      if (map_size exif_dict =? 0)%nat then mret (None, None)
      else mret (scan_exif exif_dict)
  end.

Definition load_font : M font :=
  try_except (lift (truetype "arial.ttf" 32)) (fun _ =>
  try_except (lift (truetype "/System/Library/Fonts/Arial.ttf" 32)) (fun _ =>
  try_except (lift (truetype "/usr/share/fonts/truetype/dejavu/DejaVuSans.ttf" 32)) (fun _ =>
  lift load_default))).

Definition add_text_info (white_bar_y white_bar_height : Z)
    (datetime_str location_str : option exif_value) : M unit :=
  try_except
    (font ← load_font;
     let line1 := caption_date datetime_str in
     let line2 := caption_location location_str in
     let margin := 40 in
     let line_spacing := white_bar_height / 4 in
     let text_y1 := white_bar_y + line_spacing in
     draw_text (margin, text_y1) line1 TEXT_COLOR font;;
     let text_y2 := text_y1 + line_spacing in
     draw_text (margin, text_y2) line2 TEXT_COLOR font)
    (fun e => print (TextFailed e)).

Definition create_postcard (image_path output_path : string) : M bool :=
  try_except
    (image ← (if is_raw image_path then read_raw_file image_path
              else img ← lift (Image_open image_path); mret (Some img));
     match image with
     | None => print (CannotRead image_path);; mret false
     | Some image =>
         '(datetime_str, location_str) ← extract_exif_data image_path;
         let '(original_width, original_height) := size image in
         turn ← lift (should_rotate_for_a6 original_width original_height);
         image ← (if turn : bool
                  then turned ← lift (rotate image); print Rotated;; mret turned
                  else mret image);
         let '(current_width, current_height) := size image in
         '(new_width, new_height) ←
           lift (calculate_dimensions current_width current_height);
         resized_image ← lift (resize image (new_width, new_height));
         Image_new;;
         draw (Paste resized_image (x_offset new_width, y_offset));;
         white_bar_height ← lift white_bar_height;
         let white_bar_y := new_height in
         draw (Rectangle (0, white_bar_y, A6_WIDTH, A6_HEIGHT) WHITE_BAR_COLOR);;
         add_text_info white_bar_y white_bar_height datetime_str location_str;;
         save output_path;;
         print (Done output_path);;
         mret true
     end)
    (fun e => print (Failed image_path e);; mret false).

(** One turn of the loop of [process_folder]. *)
Definition process_file (input_folder output_folder filename : string)
    (processed_count : Z) : M Z :=
  if is_supported filename then
    let input_path := path_join input_folder filename in
    let name_without_ext := (splitext filename).1 in
    let output_filename := name_without_ext +:+ "_postcard.jpg" in
    let output_path := path_join output_folder output_filename in
    print (Processing filename);;
    ok ← create_postcard input_path output_path;
    mret (if ok : bool then processed_count + 1 else processed_count)
  else mret processed_count.

Fixpoint process_files (input_folder output_folder : string)
    (filenames : list string) (processed_count : Z) : M Z :=
  match filenames with
  | [] => mret processed_count
  | filename :: rest =>
      n ← process_file input_folder output_folder filename processed_count;
      process_files input_folder output_folder rest n
  end.

Definition process_folder (input_folder output_folder : string) : M unit :=
  (if path_exists output_folder then mret () else lift (makedirs output_folder));;
  filenames ← lift (listdir input_folder);
  processed_count ← process_files input_folder output_folder filenames 0;
  print (Summary processed_count).

(** *** What a run amounts to

    The quantities the statements below are phrased with. *)

Definition say (w : world) (msgs : list message) : world :=
  World (canvas w) (files w) (stdout w ++ msgs).

(** The tag table [extract_exif_data] gets hold of, if any. *)
Definition exif_of (image_path : string) : option (gmap Z exif_value) :=
  match Image_open image_path with
  | Ok img => match getexif img with
              | Ok (Some exif_dict) => Some exif_dict
              | _ => None
              end
  | Raise _ => None
  end.

Definition metadata (image_path : string) : option exif_value * option exif_value :=
  match exif_of image_path with
  | Some exif_dict => scan_exif exif_dict
  | None => (None, None)
  end.

(** The font the fallback chain ends with, or the failure of its last
    resort. *)
Definition font_choice : outcome font :=
  match truetype "arial.ttf" 32 with
  | Ok f => Ok f
  | Raise _ =>
      match truetype "/System/Library/Fonts/Arial.ttf" 32 with
      | Ok f => Ok f
      | Raise _ =>
          match truetype "/usr/share/fonts/truetype/dejavu/DejaVuSans.ttf" 32 with
          | Ok f => Ok f
          | Raise _ => load_default
          end
      end
  end.

(** The two caption lines as [add_text_info] places them. *)
Definition date_line (white_bar_y white_bar_height : Z)
    (datetime_str : option exif_value) (f : font) : draw_op image font :=
  Text (40, white_bar_y + white_bar_height / 4) (caption_date datetime_str) TEXT_COLOR f.

Definition location_line (white_bar_y white_bar_height : Z)
    (location_str : option exif_value) (f : font) : draw_op image font :=
  Text (40, white_bar_y + white_bar_height / 4 + white_bar_height / 4)
       (caption_location location_str) TEXT_COLOR f.

(** What the text step draws, and the exception it swallows if any. *)
Definition caption (white_bar_y white_bar_height : Z)
    (datetime_str location_str : option exif_value)
  : list (draw_op image font) * option exn :=
  match font_choice with
  | Raise e => ([], Some e)
  | Ok f =>
      match text_error f (caption_date datetime_str) with
      | Some e => ([], Some e)
      | None =>
          match text_error f (caption_location location_str) with
          | Some e => ([date_line white_bar_y white_bar_height datetime_str f], Some e)
          | None => ([date_line white_bar_y white_bar_height datetime_str f;
                      location_line white_bar_y white_bar_height location_str f], None)
          end
      end
  end.

Definition report (failure : option exn) : list message :=
  match failure with
  | Some e => [TextFailed e]
  | None => []
  end.

(** Everything between decoding and compositing: the rotation decision,
    the rotation, the content size and the resampling. *)
Definition prepare (img : image) : outcome (image * bool * Z * Z) :=
  turn ← should_rotate_for_a6 (size img).1 (size img).2;
  img' ← (if turn : bool then rotate img else Ok img);
  dims ← calculate_dimensions (size img').1 (size img').2;
  resized ← resize img' dims;
  Ok (resized, turn, dims.1, dims.2).

Definition rotation_note (turn : bool) : list message :=
  if turn then [Rotated] else [].

(** The canvas of a postcard before the caption. *)
Definition base_canvas (resized : image) (new_width new_height : Z)
  : list (draw_op image font) :=
  [Paste resized (x_offset new_width, y_offset);
   Rectangle (0, new_height, A6_WIDTH, A6_HEIGHT) WHITE_BAR_COLOR].

(** The paths [process_folder] forms for a file name. *)
Definition input_path_of (input_folder filename : string) : string :=
  path_join input_folder filename.
Definition output_path_of (output_folder filename : string) : string :=
  path_join output_folder ((splitext filename).1 +:+ "_postcard.jpg").

End Composer.

(** ** A studio to run the composer in

    A small instance of [Pillow]: an image is its size; two files decode;
    the default font draws ASCII text only. *)

Module Studio.

Definition photo_exif : gmap Z exif_value :=
  {[ 36867 := EStr "2024:03:15 10:30:00"; 34853 := EDict [(1, EStr "N")] ]}.

Definition is_ascii_text (text : exif_value) : bool :=
  match text with
  | EStr s => forallb (fun c => Strptime.code c <? 128) (list_ascii_of_string s)
  | _ => false
  end.

(** [scalable] tells whether [arial.ttf] is installed. *)
Definition pillow (scalable : bool) : Pillow := {|
  image := Z * Z;
  font := string;
  Image_open path :=
    if String.eqb path "in/photo.jpg" then Ok (4000, 3000)
    else if String.eqb path "in/scan.png" then Ok (600, 800)
    else Raise (LibraryError "UnidentifiedImageError");
  size img := img;
  getexif img := if img.1 =? 4000 then Ok (Some photo_exif) else Ok None;
  rotate img := Ok (img.2, img.1);
  resize _ dims := Ok dims;
  rawpy_read _ := Raise (LibraryError "LibRawError");
  truetype name _ :=
    if scalable && String.eqb name "arial.ttf" then Ok "arial"
    else Raise (LibraryError "OSError");
  load_default := Ok "default";
  text_error f text :=
    if String.eqb f "default" && negb (is_ascii_text text)
    then Some (LibraryError "UnicodeEncodeError") else None;
  save_error _ _ := None;
  path_exists _ := true;
  makedirs _ := Ok ();
  listdir _ := Ok ["broken.jpg"; "photo.jpg"; "notes.txt"; "shot.NEF"];
  path_join folder name := folder +:+ "/" +:+ name;
  splitext name :=
    (String.substring 0 (String.length name - 4) name,
     String.substring (String.length name - 4) 4 name)
|}.

Definition blank (P : Pillow) : @world P := @World P [] ∅ [].

End Studio.

(** ** A bench with pictures on a shelf

    A second instance of [Pillow], set up from the pictures behind the
    paths, the listing of the input folder, the state of the output folder
    and the encoder; every font loads and draws. *)

Module Bench.

(** A decoded picture: its size and its tag table. *)
Record picture : Type := Picture {
  dims : Z * Z;
  tags : option (gmap Z exif_value)
}.

(** The pictures behind the paths, the listing of the input folder,
    whether the output folder exists, and the error of the encoder if it
    fails. *)
Record setup : Type := Setup {
  shelf : list (string * picture);
  listing : outcome (list string);
  folder : bool;
  encoder : option exn
}.

Definition pillow (s : setup) : Pillow := {|
  image := picture;
  font := string;
  Image_open path :=
    match List.find (fun entry => String.eqb entry.1 path) (shelf s) with
    | Some entry => Ok entry.2
    | None => Raise (LibraryError "FileNotFoundError")
    end;
  size img := dims img;
  getexif img := Ok (tags img);
  rotate img := Ok (Picture ((dims img).2, (dims img).1) (tags img));
  resize img d := Ok (Picture d (tags img));
  rawpy_read _ := Raise (LibraryError "LibRawError");
  truetype name _ := Ok name;
  load_default := Ok "default";
  text_error _ _ := None;
  save_error _ _ := encoder s;
  path_exists _ := folder s;
  makedirs _ := Raise (LibraryError "PermissionError");
  listdir _ := listing s;
  path_join folder name := folder +:+ "/" +:+ name;
  splitext name :=
    (String.substring 0 (String.length name - 4) name,
     String.substring (String.length name - 4) 4 name)
|}.

Definition blank (s : setup) : @world (pillow s) := @World (pillow s) [] ∅ [].

End Bench.

(** ** Reading the log *)

(** The file names announced and the output paths reported done. *)
Definition announced (log : list message) : list string :=
  flat_map (fun m => match m with Processing filename => [filename] | _ => [] end) log.

Definition reported_done (log : list message) : list string :=
  flat_map (fun m => match m with Done output_path => [output_path] | _ => [] end) log.

Section Batch.
Context `{Pillow}.

(** The output paths of the names [process_folder] takes up. *)
Definition output_paths (output_folder : string) (filenames : list string)
  : list string :=
  map (output_path_of output_folder) (List.filter is_supported filenames).

End Batch.

(** ** The rotation rule in the words of the specification

    The two fitting scales in exact arithmetic, for comparison with what
    [should_rotate_for_a6] computes in binary64. *)

Definition exact_fit (a b : Z) : Q :=
  Qmin (inject_Z A6_WIDTH / inject_Z a)
       (inject_Z A6_HEIGHT * (82 # 100) / inject_Z b).

(** [rotatedScale > unrotatedScale * 1.1] *)
Definition spec_rotation (width height : Z) : Prop :=
  (exact_fit width height * (11 # 10) < exact_fit height width)%Q.

(** [|w'/h' - width/height| < eps] on the result of [calculate_dimensions]. *)
Definition aspect_within (eps : Q) (width height : Z) : Prop :=
  exists w' h',
    calculate_dimensions width height = Ok (w', h') /\
    (Qabs (inject_Z w' / inject_Z h' - inject_Z width / inject_Z height) < eps)%Q.

(** ** The timestamp forms in the words of the specification

    [YYYY:MM:DD HH:MM:SS] and [Mon DD, YYYY], written out digit by digit
    and month by month, for comparison with what [strptime] accepts and
    [strftime] prints. *)

Module SpecDate.

Definition digit (d : Z) : ascii := Ascii.ascii_of_N (Z.to_N (48 + d)).

(** A number on two and on four digits. *)
Definition two (n : Z) : string :=
  String (digit (n / 10)) (String (digit (n mod 10)) EmptyString).
Definition four (n : Z) : string := two (n / 100) +:+ two (n mod 100).

Definition months : list string :=
  ["Jan"; "Feb"; "Mar"; "Apr"; "May"; "Jun";
   "Jul"; "Aug"; "Sep"; "Oct"; "Nov"; "Dec"].
Definition Mon (M : Z) : string := nth (Z.to_nat (M - 1)) months "".

(** [YYYY:MM:DD HH:MM:SS] *)
Definition timestamp (Y M D h m s : Z) : string :=
  four Y +:+ ":" +:+ two M +:+ ":" +:+ two D +:+ " "
  +:+ two h +:+ ":" +:+ two m +:+ ":" +:+ two s.

(** [Mon DD, YYYY] *)
Definition date (Y M D : Z) : string := Mon M +:+ " " +:+ two D +:+ ", " +:+ four Y.

(** The year without leading zeros. *)
Definition year (Y : Z) : string :=
  if Y <? 10 then String (digit Y) EmptyString
  else if Y <? 100 then two Y
  else if Y <? 1000 then String (digit (Y / 100)) (two (Y mod 100))
  else four Y.

(** A date of the Gregorian calendar in the years 1 to 9999 and a time of
    the day. *)
Definition leap (Y : Z) : bool :=
  (Y mod 4 =? 0) && (negb (Y mod 100 =? 0) || (Y mod 400 =? 0)).
Definition days (Y M : Z) : Z :=
  match M with
  | 2 => if leap Y then 29 else 28
  | 4 | 6 | 9 | 11 => 30
  | _ => 31
  end.
Definition calendar (Y M D h m s : Z) : Prop :=
  1 <= Y <= 9999 /\ 1 <= M <= 12 /\ 1 <= D <= days Y M /\
  0 <= h <= 23 /\ 0 <= m <= 59 /\ 0 <= s <= 59.

End SpecDate.

(** ** Quantities of the error analysis *)

Module LayoutAnalysis.
Import Binary64.

(** Every value the two functions round is at least [normal_floor], well
    inside the normal range. *)
Definition normal_floor : Q := 300 * min_normal.

(** What a run of [calculate_dimensions] on [w], [h] computes: the scale
    [s] and the two products [pw], [ph] before truncation. *)
Record fit (w h : Z) (s pw ph : Q) : Prop := {
  fit_scale_pos : (0 < s)%Q;
  fit_scale_w : (s * inject_Z w <= 1240 * (1 + u))%Q;
  fit_scale_h : (s * inject_Z h <= 1433 * (1 + u))%Q;
  fit_scale_tight :
    (1240 * (1 - u) <= s * inject_Z w)%Q \/ (1433 * (1 - u) <= s * inject_Z h)%Q;
  fit_pw : (inject_Z w * s * ((1 - u) * (1 - u)) <= pw
            <= inject_Z w * s * ((1 + u) * (1 + u)))%Q;
  fit_ph : (inject_Z h * s * ((1 - u) * (1 - u)) <= ph
            <= inject_Z h * s * ((1 + u) * (1 + u)))%Q
}.

(** [self.A6_HEIGHT * 0.82] and the literal [1.1], as binary64 values. *)
Definition area : Q := round64 (round64 (inject_Z A6_HEIGHT) * literal (82 # 100)).
Definition factor : Q := literal (11 # 10).

(** What a run of [fit_ratio a b] computes, [fb] being [float(b)]. *)
Record ratios (a : Z) (fb r1 r2 : Q) : Prop := {
  ratio_first : (1240 * (1 - u) <= r1 * inject_Z a <= 1240 * (1 + u))%Q;
  ratio_second : (area * (1 - u) <= r2 * fb <= area * (1 + u))%Q;
  ratio_normal_first : (normal_floor <= r1)%Q;
  ratio_normal_second : (normal_floor <= r2)%Q
}.

(** What the landscape branch of [should_rotate_for_a6 w h] computes:
    [hor] and [ver] are the two fitting ratios, [sc] is [hor * 1.1]. *)
Record rotation (w h : Z) (ver sc : Q) : Prop := {
  rot_sc_hi : (sc * inject_Z w <= 1240 * (1 + u) * (factor * (1 + u)))%Q;
  rot_sc_lo : (1240 * (1 - u) * (factor * (1 - u)) <= sc * inject_Z w)%Q;
  rot_ver_hi : (ver * inject_Z h <= 1240 * (1 + u))%Q;
  rot_ver_lo : (1240 * (1 - u) <= ver * inject_Z h)%Q \/
               (area * (1 - u) <= ver * (inject_Z w * (1 + u)))%Q
}.

(** The landscape branch of [should_rotate_for_a6] with the two constants
    [a = self.A6_HEIGHT * 0.82] and [c = 1.1] handed in: a run over many
    sizes computes them once. *)
Definition rotate_with (a c : Q) (width height : Z) : outcome bool :=
  r1 ← int_truediv A6_WIDTH width;
  r2 ← truediv a (round64 (inject_Z height));
  r1' ← int_truediv A6_WIDTH height;
  r2' ← truediv a (round64 (inject_Z width));
  scaled ← mul (min r1 r2) c;
  Ok (ltb scaled (min r1' r2')).

(** No rotation for any of the sizes 11k by 10k with [1 <= k <= n]. *)
Definition quiet_at_boundary (a c : Q) (n : nat) : bool :=
  forallb (fun k =>
             match rotate_with a c (11 * Z.of_nat k) (10 * Z.of_nat k) with
             | Ok false => true
             | _ => false
             end) (seq 1 n).

End LayoutAnalysis.

Module StrptimeAnalysis.
Import Strptime.

(** The first alternative whose classes match, whatever follows. *)
Fixpoint first_match (alts : list (list (ascii -> bool))) (s : string)
  : option (string * string) :=
  match alts with
  | [] => None
  | a :: alts' =>
      match match_classes a s with
      | Some r => Some r
      | None => first_match alts' s
      end
  end.

(** The groups captured on the EXIF form of [t]. *)
Definition groups_of (t : datetime) : list (ascii * string) :=
  [("S"%char, decimal 2 (second t)); ("M"%char, decimal 2 (minute t));
   ("H"%char, decimal 2 (hour t)); ("d"%char, decimal 2 (day t));
   ("m"%char, decimal 2 (month t)); ("Y"%char, decimal 4 (year t))].

End StrptimeAnalysis.

(** * Properties *)

(** ** Rounding error of binary64 arithmetic *)

Module Binary64Facts.
Import Binary64.

Lemma rne_error (y : Q) : (Qabs (inject_Z (rne y) - y) <= 1 # 2)%Q.
Proof.
  unfold rne.
  pose proof (Qfloor_le y) as Hlo.
  pose proof (Qlt_floor y) as Hhi.
  rewrite inject_Z_plus in Hhi. change (inject_Z 1) with 1%Q in Hhi.
  set (q := Qfloor y) in *.
  assert (Hs : (inject_Z (q + 1) == inject_Z q + 1)%Q) by (rewrite inject_Z_plus; reflexivity).
  apply Qabs_Qle_condition.
  destruct (Qcompare_spec (y - inject_Z q) (1 # 2)) as [He|Hl|Hg].
  - destruct (Z.even q); lra.
  - lra.
  - lra.
Qed.

Lemma pow2_pos (e : Z) : (0 < 2 ^ e)%Q.
Proof. apply Qpower_0_lt. reflexivity. Qed.

Lemma pow2_add (a b : Z) : (2 ^ (a + b) == 2 ^ a * 2 ^ b)%Q.
Proof. apply Qpower_plus. discriminate. Qed.

Lemma pow2_log2 (n : positive) : (2 ^ Z.log2 (Zpos n) <= inject_Z (Zpos n))%Q.
Proof.
  rewrite <- (Zpower_Qpower 2) by apply Z.log2_nonneg.
  rewrite <- Zle_Qle. apply Z.log2_spec. reflexivity.
Qed.

Lemma log2_pow2 (n : positive) : (inject_Z (Zpos n) < 2 ^ (Z.log2 (Zpos n) + 1))%Q.
Proof.
  rewrite <- (Zpower_Qpower 2) by (pose proof (Z.log2_nonneg (Zpos n)); lia).
  rewrite <- Zlt_Qlt. replace (Z.log2 (Z.pos n) + 1) with (Z.succ (Z.log2 (Z.pos n))) by lia.
  apply Z.log2_spec. reflexivity.
Qed.

Lemma ilog2_le (n d : positive) : (2 ^ ilog2 n d <= Zpos n # d)%Q.
Proof.
  unfold ilog2.
  destruct (Qle_bool _ _) eqn:E; [apply Qle_bool_iff; exact E|].
  pose proof (pow2_log2 n) as Hn.
  pose proof (log2_pow2 d) as Hd.
  pose proof (pow2_pos (Z.log2 (Zpos n))) as HA.
  set (a := Z.log2 (Zpos n)) in *. set (b := Z.log2 (Zpos d)) in *.
  replace (a - b - 1) with (a - (b + 1)) by lia.
  rewrite Qpower_minus by discriminate.
  rewrite (Qmake_Qdiv (Zpos n) d).
  assert (Hd0 : (0 < inject_Z (Zpos d))%Q) by (rewrite <- (Zlt_Qlt 0); lia).
  apply Qle_shift_div_l; [exact Hd0|].
  unfold Qdiv. rewrite <- Qmult_assoc, (Qmult_comm (/ _)), Qmult_assoc.
  apply Qle_shift_div_r; [apply pow2_pos|].
  set (A := (2 ^ a)%Q) in *. set (B := (2 ^ (b + 1))%Q) in *.
  set (N := inject_Z (Zpos n)) in *. set (D := inject_Z (Zpos d)) in *.
  nra.
Qed.

Lemma round_pos_abs_error (n d : positive) :
  (Qabs (round_pos n d - (Zpos n # d)) <= 2 ^ ulp_exp n d * (1 # 2))%Q.
Proof.
  unfold round_pos.
  set (e := ulp_exp n d). set (x := Zpos n # d).
  pose proof (rne_error (x * 2 ^ (- e))) as Hr.
  apply Qabs_Qle_condition in Hr. apply Qabs_Qle_condition.
  pose proof (pow2_pos e) as HP.
  assert (Hinv : (2 ^ (- e) * 2 ^ e == 1)%Q).
  { rewrite <- pow2_add. replace (- e + e) with 0 by lia. reflexivity. }
  set (P := (2 ^ e)%Q) in *. set (I := (2 ^ (- e))%Q) in *.
  set (m := inject_Z (rne (x * I))) in *.
  assert (Hx : (x == x * I * P)%Q) by (rewrite <- Qmult_assoc, Hinv; ring).
  split; nra.
Qed.

Lemma ulp_exp_normal (n d : positive) :
  (min_normal <= Zpos n # d)%Q ->
  (2 ^ ulp_exp n d <= 2 ^ (-52) * (Zpos n # d))%Q.
Proof.
  intros Hn. unfold ulp_exp.
  pose proof (pow2_pos (-52)) as H52.
  destruct (Z.max_spec (ilog2 n d - 52) (-1074)) as [[_ ->]|[_ ->]].
  - change (-1074) with (-52 + -1022). rewrite pow2_add.
    fold min_normal. set (c := (2 ^ (-52))%Q) in *. nra.
  - replace (ilog2 n d - 52) with (-52 + ilog2 n d) by lia. rewrite pow2_add.
    pose proof (ilog2_le n d). set (c := (2 ^ (-52))%Q) in *. nra.
Qed.

Lemma u_half : (2 ^ (-52) * (1 # 2) == u)%Q.
Proof. reflexivity. Qed.

Lemma round_pos_error (n d : positive) :
  (min_normal <= Zpos n # d)%Q ->
  (Qabs (round_pos n d - (Zpos n # d)) <= u * (Zpos n # d))%Q.
Proof.
  intros Hn.
  pose proof (round_pos_abs_error n d) as Ha.
  pose proof (ulp_exp_normal n d Hn) as Hu.
  rewrite <- u_half.
  set (c := (2 ^ (-52))%Q) in *. set (P := (2 ^ ulp_exp n d)%Q) in *.
  eapply Qle_trans; [exact Ha|]. nra.
Qed.

(** The relative error of a rounding in the normal range is at most [u]. *)
Lemma round64_error (x : Q) :
  (min_normal <= Qabs x)%Q -> (Qabs (round64 x - x) <= u * Qabs x)%Q.
Proof.
  destruct x as [[|n|n] d]; unfold round64; cbn [Qnum Qden]; intros Hn.
  - exfalso. revert Hn. apply Qlt_not_le. reflexivity.
  - change (Qabs (Zpos n # d)) with (Zpos n # d) in *.
    apply (round_pos_error n d Hn).
  - change (Qabs (Zneg n # d)) with (Zpos n # d) in *.
    pose proof (round_pos_error n d Hn) as H.
    apply Qabs_Qle_condition in H. apply Qabs_Qle_condition.
    assert (Ho : (Zneg n # d == - (Zpos n # d))%Q) by reflexivity.
    rewrite Ho. lra.
Qed.

(** [u] and the range constants, as the arithmetic below uses them. *)
Lemma u_bounds : (0 < u /\ u <= 1 # 1000000)%Q.
Proof. split; [reflexivity | vm_compute; discriminate]. Qed.

Lemma min_normal_pos : (0 < min_normal)%Q.
Proof. reflexivity. Qed.

Lemma min_normal_le_1 : (min_normal <= 1)%Q.
Proof. vm_compute. discriminate. Qed.

Lemma range_ratio : (min_normal * overflow_threshold == 4)%Q.
Proof. reflexivity. Qed.

Lemma round64_bounds (x : Q) :
  (min_normal <= x)%Q -> (x * (1 - u) <= round64 x <= x * (1 + u))%Q.
Proof.
  intros Hn. pose proof min_normal_pos as Hm.
  assert (Hx : (0 <= x)%Q) by lra.
  pose proof (round64_error x) as He.
  rewrite (Qabs_pos x Hx) in He. specialize (He Hn).
  apply Qabs_Qle_condition in He. lra.
Qed.

Lemma finite_lt (r : Q) : finite r = true <-> (Qabs r < overflow_threshold)%Q.
Proof.
  unfold finite. rewrite negb_true_iff, <- not_true_iff_false, Qle_bool_iff.
  split; [apply Qnot_le_lt | apply Qlt_not_le].
Qed.

Lemma to_float_inv (x r : Q) :
  to_float x = Ok r -> r = round64 x /\ (Qabs r < overflow_threshold)%Q.
Proof.
  unfold to_float. destruct (finite (round64 x)) eqn:E; [|discriminate].
  intros [= <-]. split; [reflexivity | apply finite_lt, E].
Qed.

Lemma to_float_ok (x : Q) :
  (Qabs (round64 x) < overflow_threshold)%Q -> to_float x = Ok (round64 x).
Proof. intros H. unfold to_float. apply finite_lt in H. rewrite H. reflexivity. Qed.

(** [int()] of a non-negative value is its floor. *)
Lemma to_int_floor (x : Q) : (0 <= x)%Q -> to_int x = Qfloor x.
Proof.
  destruct x as [n d]. unfold Qle, to_int, Qfloor. cbn [Qnum Qden].
  intros H. apply Z.quot_div_nonneg; lia.
Qed.

Lemma to_int_bounds (x : Q) :
  (0 <= x)%Q -> (inject_Z (to_int x) <= x < inject_Z (to_int x) + 1)%Q.
Proof.
  intros H. rewrite (to_int_floor x H). split; [apply Qfloor_le|].
  pose proof (Qlt_floor x) as Hl. rewrite inject_Z_plus in Hl. exact Hl.
Qed.

Lemma min_le_l (x y : Q) : (min x y <= x)%Q.
Proof.
  unfold min, ltb. destruct (Qle_bool x y) eqn:E; cbn; [apply Qle_refl|].
  apply Qlt_le_weak, Qnot_le_lt. rewrite <- Qle_bool_iff, E. discriminate.
Qed.

Lemma min_le_r (x y : Q) : (min x y <= y)%Q.
Proof.
  unfold min, ltb. destruct (Qle_bool x y) eqn:E; cbn; [|apply Qle_refl].
  apply Qle_bool_iff, E.
Qed.

Lemma min_glb (x y z : Q) : (z <= x)%Q -> (z <= y)%Q -> (z <= min x y)%Q.
Proof. intros Hx Hy. unfold min. destruct (ltb y x); assumption. Qed.

Lemma ltb_lt (x y : Q) : ltb x y = true <-> (x < y)%Q.
Proof.
  unfold ltb. rewrite negb_true_iff, <- not_true_iff_false, Qle_bool_iff.
  split; [apply Qnot_le_lt | apply Qlt_not_le].
Qed.
End Binary64Facts.

(** On all samples the model computes what [SpecFloat] computes. *)
Example model_agrees_with_reference : forallb Reference.agree Reference.samples = true.
Proof. vm_compute. reflexivity. Qed.

(** ** Layout: running [calculate_dimensions] *)

Module LayoutFacts.
Import Binary64 Binary64Facts.
Export LayoutAnalysis.

Lemma available_height_eq : available_height = Ok 1433.
Proof. vm_compute. reflexivity. Qed.

Lemma white_bar_height_eq : white_bar_height = Ok 314.
Proof. vm_compute. reflexivity. Qed.

(** *** Ordered-field steps *)

Lemma mul_le (a b c d : Q) :
  (0 <= a <= b)%Q -> (0 <= c <= d)%Q -> (a * c <= b * d)%Q.
Proof. intros. nra. Qed.

Lemma mul_cancel_le (x y z : Q) : (0 < z)%Q -> (x * z <= y * z)%Q -> (x <= y)%Q.
Proof. intros Hz H. apply (Qmult_le_r x y z Hz). exact H. Qed.

Lemma div_mul (b W : Q) : (1 <= W)%Q -> (b / W * W == b)%Q.
Proof. intros H. field. lra. Qed.

Lemma twice_below (a p r c : Q) :
  (0 <= c)%Q -> (a * c <= p)%Q -> (p * c <= r)%Q -> (a * (c * c) <= r)%Q.
Proof. intros. nra. Qed.

Lemma twice_above (a p r c : Q) :
  (0 <= c)%Q -> (p <= a * c)%Q -> (r <= p * c)%Q -> (r <= a * (c * c))%Q.
Proof. intros. nra. Qed.

Lemma mul_le_l (x y z : Q) : (0 <= z)%Q -> (x <= y)%Q -> (z * x <= z * y)%Q.
Proof. intros. nra. Qed.

Lemma le_of_mul (x W B : Q) : (0 <= x)%Q -> (1 <= W)%Q -> (x * W <= B)%Q -> (x <= B)%Q.
Proof. intros. nra. Qed.

Lemma inject_Z_pos (z : Z) : 0 < z -> (1 <= inject_Z z)%Q.
Proof. intros H. rewrite <- (Zle_Qle 1). lia. Qed.

(** *** Constants of the error analysis *)

Lemma threshold_large : (4000000 <= overflow_threshold)%Q.
Proof. vm_compute. discriminate. Qed.

Lemma up3 : ((1 + u) * ((1 + u) * (1 + u)) <= 1 + (1 # 100000))%Q.
Proof. vm_compute. discriminate. Qed.

Lemma down3 : (1 - (1 # 100000) <= (1 - u) * ((1 - u) * (1 - u)))%Q.
Proof. vm_compute. discriminate. Qed.

Lemma down2 : (1 # 2 <= (1 - u) * (1 - u))%Q.
Proof. vm_compute. discriminate. Qed.

Lemma four_u : ((1 + u) * (1 + u) - (1 - u) * (1 - u) == 4 * u)%Q.
Proof. ring. Qed.

Lemma drift_small : (4 * u * inject_Z (2 ^ 40) * (1433 * (1 + u)) <= 1)%Q.
Proof. vm_compute. discriminate. Qed.

Lemma normal_floor_pos : (0 < normal_floor)%Q.
Proof. reflexivity. Qed.

Lemma normal_floor_eq : (normal_floor == 300 * min_normal)%Q.
Proof. reflexivity. Qed.

(** *** Single operations *)

(** A rounding in the normal range, of a result far from overflow. *)
Lemma to_float_run (x : Q) :
  (min_normal <= x)%Q -> (x <= 1000000)%Q ->
  to_float x = Ok (round64 x) /\
  (x * (1 - u) <= round64 x <= x * (1 + u))%Q.
Proof.
  intros Hn Hb. destruct (round64_bounds _ Hn) as [Hlo Hhi].
  split; [|split; assumption].
  pose proof u_bounds as [Hu0 Hu1]. pose proof min_normal_pos as Hm.
  pose proof threshold_large as HL.
  apply to_float_ok.
  assert (Hx : (x * (1 + u) <= 1000000 * 2)%Q) by (apply mul_le; split; lra).
  assert (H0 : (0 <= x * (1 - u))%Q) by (apply Qmult_le_0_compat; lra).
  rewrite Qabs_pos by lra. lra.
Qed.

(** A converted positive [int]: within relative error [u], and finite. *)
Lemma of_int_inv (z : Z) (f : Q) :
  0 < z -> of_int z = Ok f ->
  (inject_Z z * (1 - u) <= f <= inject_Z z * (1 + u))%Q /\
  (f < overflow_threshold)%Q.
Proof.
  intros Hz H. apply to_float_inv in H as [-> Hf].
  pose proof (inject_Z_pos z Hz) as H1. pose proof min_normal_le_1.
  split; [apply round64_bounds; lra|].
  eapply Qle_lt_trans; [apply Qle_Qabs | exact Hf].
Qed.

Lemma of_int_small (z : Z) :
  0 < z < 2 ^ 1023 -> of_int z = Ok (round64 (inject_Z z)).
Proof.
  intros [Hz Hb]. apply to_float_ok.
  pose proof (inject_Z_pos z Hz) as H1. pose proof min_normal_le_1.
  pose proof u_bounds as [Hu0 Hu1].
  destruct (round64_bounds (inject_Z z)) as [Hlo Hhi]; [lra|].
  assert (Hb' : (inject_Z z <= inject_Z (2 ^ 1023))%Q) by (rewrite <- Zle_Qle; lia).
  assert (HT : (inject_Z (2 ^ 1023) * 2 == overflow_threshold)%Q) by reflexivity.
  set (T := overflow_threshold) in *. set (M := inject_Z (2 ^ 1023)) in *.
  set (W := inject_Z z) in *. set (r := round64 W) in *.
  assert (Hr0 : (0 <= W * (1 - u))%Q) by (apply Qmult_le_0_compat; lra).
  assert (Hr1 : (W * (1 + u) <= M * (1 + u))%Q) by (apply Qmult_le_compat_r; lra).
  assert (Hr2 : (M * u <= M * (1 # 1000000))%Q) by (apply Qmult_le_l; [|exact Hu1]; lra).
  rewrite Qabs_pos by lra. lra.
Qed.

(** Whatever converts is below [2^1024 / (1 - u)], which keeps the
    quotients of the canvas sizes by it in the normal range. *)
Lemma quotient_normal (q f A m T : Q) (k : Q) :
  (0 < f)%Q -> (f < T)%Q -> (0 < m)%Q -> (m * T == 4)%Q ->
  (q * f == A)%Q -> (0 <= k)%Q -> (4 * k < A)%Q -> (k * m <= q)%Q.
Proof.
  intros Hf HT Hm HR Hq H3 HA.
  destruct (Qlt_le_dec q (k * m)) as [Hlt|]; [exfalso|assumption].
  assert (H1 : (q * f < k * m * f)%Q) by (apply Qmult_lt_compat_r; assumption).
  assert (H2 : (m * f < m * T)%Q) by (apply Qmult_lt_l; assumption).
  assert (H4 : (m * f * k <= m * T * k)%Q) by (apply Qmult_le_compat_r; lra).
  assert (H5 : (m * T * k == 4 * k)%Q) by (rewrite HR; reflexivity).
  lra.
Qed.

Lemma quotient_small (q f A : Q) :
  (q * f == A)%Q -> (1 # 2 <= f)%Q -> (0 <= A)%Q -> (q <= 2 * A)%Q.
Proof.
  intros Hq Hf HA.
  destruct (Qlt_le_dec (2 * A) q) as [Hlt|]; [exfalso|assumption].
  assert (H1 : (2 * A * f < q * f)%Q) by (apply Qmult_lt_compat_r; lra).
  assert (H2 : (A * (1 # 2) <= A * f)%Q) by (apply mul_le_l; lra).
  lra.
Qed.

Lemma floor_of_quotient (q r k : Q) :
  (309 <= k)%Q -> (k * min_normal <= q)%Q -> (q * (1 - u) <= r)%Q ->
  (min_normal <= q)%Q /\ (normal_floor <= r)%Q.
Proof.
  intros Hk Hq Hr. pose proof min_normal_pos as Hm.
  pose proof u_bounds as [Hu0 Hu1]. pose proof normal_floor_eq as E.
  set (m := min_normal) in *. set (n := normal_floor) in *.
  assert (H1 : (309 * m <= k * m)%Q) by (apply Qmult_le_compat_r; lra).
  assert (H2 : (309 * m * (1 - u) <= q * (1 - u))%Q)
    by (apply Qmult_le_compat_r; lra).
  assert (H3 : (m * u <= m * (1 # 1000000))%Q) by (apply mul_le_l; lra).
  split; lra.
Qed.

(** [b / z] for a canvas size [b] and a positive [z] that converts. *)
Lemma int_truediv_run (b z : Z) (f : Q) :
  0 < z -> 1240 <= b <= 1748 -> of_int z = Ok f ->
  int_truediv b z = Ok (round64 (inject_Z b / inject_Z z)) /\
  (normal_floor <= round64 (inject_Z b / inject_Z z))%Q /\
  (inject_Z b / inject_Z z * (1 - u)
     <= round64 (inject_Z b / inject_Z z)
     <= inject_Z b / inject_Z z * (1 + u))%Q.
Proof.
  intros Hz Hb Hf. unfold int_truediv.
  destruct (Z.eqb_spec z 0) as [->|_]; [lia|].
  destruct (of_int_inv z f Hz Hf) as [[Hlo _] HT].
  pose proof (inject_Z_pos z Hz) as HW.
  assert (HB : (1240 <= inject_Z b <= 1748)%Q).
  { split; [rewrite <- (Zle_Qle 1240) | rewrite <- (Zle_Qle _ 1748)]; lia. }
  pose proof u_bounds as [Hu0 Hu1]. pose proof min_normal_pos as Hm.
  pose proof (div_mul (inject_Z b) _ HW) as Eq.
  set (B := inject_Z b) in *. set (W := inject_Z z) in *.
  set (q := (B / W)%Q) in *.
  assert (Hk : (309 * min_normal <= q)%Q).
  { apply (quotient_normal q (W * (1 - u)) (B * (1 - u)) _ overflow_threshold).
    - apply Qmult_lt_0_compat; lra.
    - lra.
    - exact Hm.
    - exact range_ratio.
    - rewrite Qmult_assoc, Eq. reflexivity.
    - lra.
    - assert (B * u <= B * (1 # 1000000))%Q by (apply mul_le_l; lra). lra. }
  assert (Hqb : (q <= 2 * B)%Q) by (apply (quotient_small q W B Eq); lra).
  destruct (round64_bounds q) as [Hrl Hrh]; [lra|].
  destruct (floor_of_quotient q (round64 q) 309 ltac:(lra) Hk Hrl) as [Hn Hfl].
  destruct (to_float_run q Hn ltac:(lra)) as [-> _].
  split; [reflexivity|]. split; [exact Hfl|]. split; assumption.
Qed.

Lemma mul_run (x y : Q) :
  (min_normal <= x * y)%Q -> (x * y <= 1000000)%Q ->
  mul x y = Ok (round64 (x * y)) /\
  (x * y * (1 - u) <= round64 (x * y) <= x * y * (1 + u))%Q.
Proof. apply to_float_run. Qed.

(** *** [calculate_dimensions] *)

Lemma up2 : ((1 + u) * (1 + u) <= 1 + (1 # 100000))%Q.
Proof. vm_compute. discriminate. Qed.

(** One scaled dimension: [z * s] for a converted [z]. *)
Lemma scaled_run (z : Z) (f s : Q) :
  0 < z -> of_int z = Ok f ->
  (normal_floor <= s)%Q ->
  (s * inject_Z z <= 1433 * (1 + u))%Q ->
  int_mul_float z s = Ok (round64 (f * s)) /\
  (inject_Z z * s * ((1 - u) * (1 - u)) <= round64 (f * s)
     <= inject_Z z * s * ((1 + u) * (1 + u)))%Q.
Proof.
  intros Hz Hf Hlo Hhi. unfold int_mul_float. rewrite Hf. cbn [mbind outcome_bind].
  destruct (of_int_inv z f Hz Hf) as [[Hfl Hfh] _].
  pose proof (inject_Z_pos z Hz) as HW.
  pose proof u_bounds as [Hu0 Hu1]. pose proof min_normal_pos as Hm.
  pose proof normal_floor_eq as En. pose proof up2 as Hup.
  set (W := inject_Z z) in *. set (m := min_normal) in *.
  set (n := normal_floor) in *.
  assert (Hs : (0 < s)%Q) by lra.
  assert (Hp1 : (W * s * (1 - u) <= f * s)%Q).
  { assert (W * (1 - u) * s <= f * s)%Q by (apply Qmult_le_compat_r; lra). lra. }
  assert (Hp2 : (f * s <= W * s * (1 + u))%Q).
  { assert (f * s <= W * (1 + u) * s)%Q by (apply Qmult_le_compat_r; lra). lra. }
  assert (Hf2 : (1 # 2 <= f)%Q).
  { assert (1 * (1 - u) <= W * (1 - u))%Q by (apply Qmult_le_compat_r; lra). lra. }
  assert (Hn : (m <= f * s)%Q).
  { assert ((1 # 2) * n <= f * s)%Q by (apply mul_le; split; lra). lra. }
  assert (Hb : (f * s <= 1000000)%Q).
  { assert (s * W * (1 + u) <= 1433 * (1 + u) * (1 + u))%Q
      by (apply Qmult_le_compat_r; lra). lra. }
  destruct (mul_run f s Hn Hb) as [-> [Hrl Hrh]].
  split; [reflexivity|]. split.
  - apply (twice_below (W * s) (f * s) _ (1 - u)); [lra | exact Hp1 | exact Hrl].
  - apply (twice_above (W * s) (f * s) _ (1 + u)); [lra | exact Hp2 | exact Hrh].
Qed.

Lemma calculate_dimensions_run (w h : Z) (fw fh : Q) :
  0 < w -> 0 < h -> of_int w = Ok fw -> of_int h = Ok fh ->
  exists s pw ph,
    calculate_dimensions w h = Ok (to_int pw, to_int ph) /\ fit w h s pw ph.
Proof.
  intros Hw Hh Hfw Hfh. unfold calculate_dimensions.
  rewrite available_height_eq. cbn [mbind outcome_bind].
  destruct (int_truediv_run available_width w fw Hw ltac:(cbv; split; discriminate) Hfw)
    as (-> & Hqw & Hrwl & Hrwh).
  destruct (int_truediv_run 1433 h fh Hh ltac:(lia) Hfh) as (-> & Hqh & Hrhl & Hrhh).
  cbn [mbind outcome_bind]. cbv zeta.
  change (inject_Z available_width) with 1240%Q in *.
  change (inject_Z 1433) with 1433%Q in *.
  pose proof (inject_Z_pos w Hw) as HW. pose proof (inject_Z_pos h Hh) as HH.
  pose proof (div_mul 1240 _ HW) as Ew. pose proof (div_mul 1433 _ HH) as Eh.
  pose proof u_bounds as [Hu0 Hu1]. pose proof normal_floor_pos as Hn0.
  set (W := inject_Z w) in *. set (H := inject_Z h) in *.
  set (qw := (1240 / W)%Q) in *. set (qh := (1433 / H)%Q) in *.
  set (rw := round64 qw) in *. set (rh := round64 qh) in *.
  assert (Ew1 : (qw * (1 + u) * W == 1240 * (1 + u))%Q) by (rewrite <- Ew; ring).
  assert (Ew0 : (qw * (1 - u) * W == 1240 * (1 - u))%Q) by (rewrite <- Ew; ring).
  assert (Eh1 : (qh * (1 + u) * H == 1433 * (1 + u))%Q) by (rewrite <- Eh; ring).
  assert (Eh0 : (qh * (1 - u) * H == 1433 * (1 - u))%Q) by (rewrite <- Eh; ring).
  assert (Hrw1 : (rw * W <= 1240 * (1 + u))%Q).
  { rewrite <- Ew1. apply Qmult_le_compat_r; lra. }
  assert (Hrw0 : (1240 * (1 - u) <= rw * W)%Q).
  { rewrite <- Ew0. apply Qmult_le_compat_r; lra. }
  assert (Hrh1 : (rh * H <= 1433 * (1 + u))%Q).
  { rewrite <- Eh1. apply Qmult_le_compat_r; lra. }
  assert (Hrh0 : (1433 * (1 - u) <= rh * H)%Q).
  { rewrite <- Eh0. apply Qmult_le_compat_r; lra. }
  pose proof (min_le_l rw rh) as Hsl. pose proof (min_le_r rw rh) as Hsr.
  assert (Hsg : (normal_floor <= min rw rh)%Q) by (apply min_glb; assumption).
  assert (Hst : (1240 * (1 - u) <= min rw rh * W)%Q \/
                (1433 * (1 - u) <= min rw rh * H)%Q).
  { unfold min. destruct (ltb rh rw); [right|left]; assumption. }
  set (s := min rw rh) in *.
  assert (Hs : (0 < s)%Q) by lra.
  assert (Hsw : (s * W <= 1240 * (1 + u))%Q).
  { assert (s * W <= rw * W)%Q by (apply Qmult_le_compat_r; lra). lra. }
  assert (Hsh : (s * H <= 1433 * (1 + u))%Q).
  { assert (s * H <= rh * H)%Q by (apply Qmult_le_compat_r; lra). lra. }
  destruct (scaled_run w fw s Hw Hfw Hsg) as [-> Hpw]; [fold W; lra|].
  destruct (scaled_run h fh s Hh Hfh Hsg) as [-> Hph]; [fold H; lra|].
  cbn [mbind outcome_bind].
  exists s, (round64 (fw * s)), (round64 (fh * s)).
  split; [reflexivity|]. constructor; assumption.
Qed.

Lemma calculate_dimensions_inv (w h : Z) (p : Z * Z) :
  calculate_dimensions w h = Ok p ->
  exists fw fh, of_int w = Ok fw /\ of_int h = Ok fh.
Proof.
  unfold calculate_dimensions. rewrite available_height_eq.
  cbn [mbind outcome_bind].
  destruct (int_truediv _ w) as [rw|]; [|discriminate].
  destruct (int_truediv _ h) as [rh|]; [|discriminate].
  cbn [mbind outcome_bind]. cbv zeta. unfold int_mul_float.
  destruct (of_int w) as [fw|]; [|discriminate]. cbn [mbind outcome_bind].
  destruct (mul fw _); [|discriminate]. cbn [mbind outcome_bind].
  destruct (of_int h) as [fh|]; [|discriminate].
  intros _. exists fw, fh. split; reflexivity.
Qed.

Lemma to_int_le (x : Q) (n : Z) :
  (0 <= x)%Q -> (x < inject_Z n + 1)%Q -> 0 <= to_int x <= n.
Proof.
  intros H0 Hx. destruct (to_int_bounds x H0) as [Hl Hh].
  assert (H1 : (-1 < inject_Z (to_int x))%Q) by lra.
  assert (H2 : (inject_Z (to_int x) < inject_Z (n + 1))%Q)
    by (rewrite inject_Z_plus; change (inject_Z 1) with 1%Q; lra).
  rewrite <- (Zlt_Qlt (-1)) in H1. rewrite <- Zlt_Qlt in H2. lia.
Qed.

Lemma to_int_ge (x : Q) (n : Z) :
  (0 <= x)%Q -> (inject_Z n < x)%Q -> n <= to_int x.
Proof.
  intros H0 Hx. destruct (to_int_bounds x H0) as [Hl Hh].
  assert (H2 : (inject_Z n < inject_Z (to_int x + 1))%Q)
    by (rewrite inject_Z_plus; change (inject_Z 1) with 1%Q; lra).
  rewrite <- Zlt_Qlt in H2. lia.
Qed.

(** [p] lies between [B * (1 - u)^3] and [B * (1 + u)^3] when [p] is the
    rounded product of a side [W] by a scale [s] with [s * W] near [B]. *)
Lemma product_above (p sW B c : Q) :
  (0 <= c)%Q -> (p <= sW * c)%Q -> (sW <= B)%Q -> (p <= B * c)%Q.
Proof. intros. nra. Qed.

Lemma product_below (p sW B c : Q) :
  (0 <= c)%Q -> (sW * c <= p)%Q -> (B <= sW)%Q -> (B * c <= p)%Q.
Proof. intros. nra. Qed.

Lemma fit_nonneg (w h : Z) (s pw ph : Q) :
  0 < w -> 0 < h -> fit w h s pw ph -> (0 <= pw)%Q /\ (0 <= ph)%Q.
Proof.
  intros Hw Hh [Hs _ _ _ [Hpl _] [Hql _]].
  pose proof (inject_Z_pos w Hw) as HW. pose proof (inject_Z_pos h Hh) as HH.
  pose proof down2 as Hd.
  split.
  - apply (product_below pw (inject_Z w * s) 0 _) in Hpl; [lra|lra|].
    apply Qmult_le_0_compat; lra.
  - apply (product_below ph (inject_Z h * s) 0 _) in Hql; [lra|lra|].
    apply Qmult_le_0_compat; lra.
Qed.

(** The scaled content fits the available area and touches one of its
    sides to within a pixel. *)
Lemma fit_bounds (w h : Z) (s pw ph : Q) :
  0 < w -> 0 < h -> fit w h s pw ph ->
  0 <= to_int pw <= 1240 /\ 0 <= to_int ph <= 1433 /\
  (1239 <= to_int pw \/ 1432 <= to_int ph).
Proof.
  intros Hw Hh Hfit.
  destruct (fit_nonneg w h s pw ph Hw Hh Hfit) as [Hpw0 Hph0].
  destruct Hfit as [Hs Hsw Hsh Hst [Hpl Hph] [Hql Hqh]].
  pose proof u_bounds as [Hu0 Hu1].
  pose proof up3 as Hup. pose proof down3 as Hdn.
  pose proof up2 as Hup2. pose proof down2 as Hdn2.
  rewrite (Qmult_comm (inject_Z w) s) in Hpl, Hph.
  rewrite (Qmult_comm (inject_Z h) s) in Hql, Hqh.
  apply (product_above pw _ (1240 * (1 + u))) in Hph; [|lra|exact Hsw].
  apply (product_above ph _ (1433 * (1 + u))) in Hqh; [|lra|exact Hsh].
  split; [|split].
  - apply to_int_le; [exact Hpw0|]. change (inject_Z 1240) with 1240%Q. lra.
  - apply to_int_le; [exact Hph0|]. change (inject_Z 1433) with 1433%Q. lra.
  - destruct Hst as [Ht|Ht]; [left|right]; (apply to_int_ge; [assumption|]).
    + change (inject_Z 1239) with 1239%Q.
      apply (product_below pw _ (1240 * (1 - u))) in Hpl; [|lra|exact Ht]. lra.
    + change (inject_Z 1432) with 1432%Q.
      apply (product_below ph _ (1433 * (1 - u))) in Hql; [|lra|exact Ht]. lra.
Qed.

(** Rounding moves [pw * h - ph * w] by at most one when the smaller
    side is at most [2^40]. *)
Lemma fit_drift (w h : Z) (s pw ph : Q) :
  0 < w -> 0 < h -> fit w h s pw ph -> Z.min w h <= 2 ^ 40 ->
  (Qabs (pw * inject_Z h - ph * inject_Z w) <= 1)%Q.
Proof.
  intros Hw Hh [Hs Hsw Hsh _ [Hpl Hph] [Hql Hqh]] Hmin.
  pose proof (inject_Z_pos w Hw) as HW. pose proof (inject_Z_pos h Hh) as HH.
  pose proof u_bounds as [Hu0 Hu1]. pose proof four_u as H4.
  pose proof drift_small as Hk.
  assert (Hm : (inject_Z (Z.min w h) <= inject_Z (2 ^ 40))%Q)
    by (rewrite <- Zle_Qle; exact Hmin).
  set (W := inject_Z w) in *. set (H := inject_Z h) in *.
  set (M := inject_Z (2 ^ 40)) in *.
  set (c := ((1 + u) * (1 + u))%Q) in *. set (d := ((1 - u) * (1 - u))%Q) in *.
  assert (E4 : (W * H * s * c - W * H * s * d == W * H * s * (4 * u))%Q)
    by (rewrite <- H4; ring).
  assert (H1 : (pw * H <= W * s * c * H)%Q) by (apply Qmult_le_compat_r; lra).
  assert (H2 : (H * s * d * W <= ph * W)%Q) by (apply Qmult_le_compat_r; lra).
  assert (H3 : (W * s * d * H <= pw * H)%Q) by (apply Qmult_le_compat_r; lra).
  assert (H5 : (ph * W <= H * s * c * W)%Q) by (apply Qmult_le_compat_r; lra).
  assert (He : (W * H * s * (4 * u) <= 1)%Q).
  { destruct (Z.min_spec w h) as [[_ E]|[_ E]]; rewrite E in Hm; fold W H in Hm.
    - assert ((W * (4 * u)) * (s * H) <= (M * (4 * u)) * (1433 * (1 + u)))%Q.
      { apply mul_le; split; [|apply Qmult_le_compat_r| |]; try lra.
        - apply Qmult_le_0_compat; lra.
        - apply Qmult_le_0_compat; lra. }
      lra.
    - assert ((H * (4 * u)) * (s * W) <= (M * (4 * u)) * (1433 * (1 + u)))%Q.
      { apply mul_le; split; [|apply Qmult_le_compat_r| |]; try lra.
        - apply Qmult_le_0_compat; lra.
        - apply Qmult_le_0_compat; lra. }
      lra. }
  apply Qabs_Qle_condition. lra.
Qed.

Lemma cross_step (a b pw ph W H : Q) :
  (1 <= W)%Q -> (1 <= H)%Q -> (a <= pw)%Q -> (ph < b + 1)%Q ->
  (pw * H - ph * W <= 1)%Q -> (a * H - b * W < W + 1)%Q.
Proof. intros. nra. Qed.

Lemma fit_aspect (w h : Z) (s pw ph : Q) :
  0 < w -> 0 < h -> fit w h s pw ph -> Z.min w h <= 2 ^ 40 ->
  Z.abs (to_int pw * h - to_int ph * w) <= Z.max w h.
Proof.
  intros Hw Hh Hfit Hmin.
  pose proof (fit_drift w h s pw ph Hw Hh Hfit Hmin) as Hd.
  apply Qabs_Qle_condition in Hd.
  pose proof (inject_Z_pos w Hw) as HW. pose proof (inject_Z_pos h Hh) as HH.
  destruct (fit_nonneg w h s pw ph Hw Hh Hfit) as [Hpw0 Hph0].
  destruct (to_int_bounds pw Hpw0) as [Ha1 Ha2].
  destruct (to_int_bounds ph Hph0) as [Hb1 Hb2].
  assert (Hlt : (inject_Z (to_int pw * h - to_int ph * w) < inject_Z (w + 1))%Q).
  { unfold Zminus. rewrite !inject_Z_plus, inject_Z_opp, !inject_Z_mult.
    change (inject_Z 1) with 1%Q.
    pose proof (cross_step _ _ pw ph _ _ HW HH Ha1 Hb2 ltac:(lra)). lra. }
  assert (Hgt : (inject_Z (to_int ph * w - to_int pw * h) < inject_Z (h + 1))%Q).
  { unfold Zminus. rewrite !inject_Z_plus, inject_Z_opp, !inject_Z_mult.
    change (inject_Z 1) with 1%Q.
    pose proof (cross_step _ _ ph pw _ _ HH HW Hb1 Ha2 ltac:(lra)). lra. }
  rewrite <- Zlt_Qlt in Hlt, Hgt. lia.
Qed.

(** *** [should_rotate_for_a6] *)

Lemma area_eq : int_mul_float A6_HEIGHT (literal (82 # 100)) = Ok area.
Proof. vm_compute. reflexivity. Qed.

Lemma area_bounds : (1433 <= area <= 1434)%Q.
Proof. split; vm_compute; discriminate. Qed.

Lemma factor_bounds : (11 # 10 <= factor <= (11 # 10) + (1 # 1000000000))%Q.
Proof. split; vm_compute; discriminate. Qed.

(** The landscape branch is [rotate_with] at the two constants. *)
Lemma should_rotate_with (w h : Z) :
  0 < h < w -> w < 2 ^ 1023 ->
  should_rotate_for_a6 w h = rotate_with area factor w h.
Proof.
  intros [Hh Hhw] Hb. unfold should_rotate_for_a6, rotate_with, fit_ratio, float_div_int.
  destruct (Z.ltb_spec h w) as [_|]; [|lia].
  rewrite area_eq, !of_int_small by lia. cbn [mbind outcome_bind].
  destruct (int_truediv A6_WIDTH w) as [r1|]; [|reflexivity].
  destruct (truediv area (round64 (inject_Z h))) as [r2|]; [|reflexivity].
  destruct (int_truediv A6_WIDTH h) as [r1'|]; [|reflexivity].
  destruct (truediv area (round64 (inject_Z w))) as [r2'|]; reflexivity.
Qed.

Lemma quiet_at_boundary_spec (a c : Q) (n : nat) (k : Z) :
  quiet_at_boundary a c n = true -> (1 <= Z.to_nat k <= n)%nat ->
  rotate_with a c (11 * k) (10 * k) = Ok false.
Proof.
  intros Hall Hk. unfold quiet_at_boundary in Hall.
  rewrite forallb_forall in Hall. specialize (Hall (Z.to_nat k)).
  rewrite Z2Nat.id in Hall by lia.
  destruct (rotate_with a c (11 * k) (10 * k)) as [[|]|].
  - assert (false = true); [|discriminate]. apply Hall, in_seq. lia.
  - reflexivity.
  - assert (false = true); [|discriminate]. apply Hall, in_seq. lia.
Qed.

(** [area / z] for a positive [z] that converts to [f]. *)
Lemma float_div_int_run (z : Z) (f : Q) :
  0 < z -> of_int z = Ok f ->
  float_div_int area z = Ok (round64 (area / f)) /\
  (normal_floor <= round64 (area / f))%Q /\
  (area * (1 - u) <= round64 (area / f) * f <= area * (1 + u))%Q.
Proof.
  intros Hz Hf. unfold float_div_int. rewrite Hf. cbn [mbind outcome_bind].
  destruct (of_int_inv z f Hz Hf) as [[Hfl Hfh] HT].
  pose proof (inject_Z_pos z Hz) as HW.
  pose proof u_bounds as [Hu0 Hu1]. pose proof min_normal_pos as Hm.
  pose proof area_bounds as [Ha1 Ha2].
  assert (Hf0 : (1 # 2 <= f)%Q).
  { assert (1 * (1 - u) <= inject_Z z * (1 - u))%Q
      by (apply Qmult_le_compat_r; lra). lra. }
  assert (Eq : (area / f * f == area)%Q) by (field; lra).
  unfold truediv.
  destruct (Qeq_bool f 0) eqn:E0; [apply Qeq_bool_iff in E0; lra|].
  set (q := (area / f)%Q) in *. set (A := area) in *.
  assert (Hk : (358 * min_normal <= q)%Q).
  { apply (quotient_normal q f A _ overflow_threshold);
      [lra | exact HT | exact Hm | exact range_ratio | exact Eq | lra | lra]. }
  assert (Hqb : (q <= 2 * A)%Q) by (apply (quotient_small q f A Eq); lra).
  destruct (round64_bounds q) as [Hrl Hrh]; [lra|].
  destruct (floor_of_quotient q (round64 q) 358 ltac:(lra) Hk Hrl) as [Hn Hnf].
  destruct (to_float_run q Hn ltac:(lra)) as [-> _].
  split; [reflexivity|]. split; [exact Hnf|].
  assert (E1 : (q * (1 + u) * f == A * (1 + u))%Q) by (rewrite <- Eq; ring).
  assert (E0' : (q * (1 - u) * f == A * (1 - u))%Q) by (rewrite <- Eq; ring).
  split.
  - rewrite <- E0'. apply Qmult_le_compat_r; lra.
  - rewrite <- E1. apply Qmult_le_compat_r; lra.
Qed.

Lemma fit_ratio_run (a b : Z) (fa fb : Q) :
  0 < a -> 0 < b -> of_int a = Ok fa -> of_int b = Ok fb ->
  exists r1 r2, fit_ratio a b = Ok (min r1 r2) /\ ratios a fb r1 r2.
Proof.
  intros Ha Hb Hfa Hfb. unfold fit_ratio.
  destruct (int_truediv_run A6_WIDTH a fa Ha ltac:(cbv; split; discriminate) Hfa)
    as (-> & Hq & Hrl & Hrh).
  cbn [mbind outcome_bind]. rewrite area_eq. cbn [mbind outcome_bind].
  destruct (float_div_int_run b fb Hb Hfb) as (-> & Hn2 & Hr2).
  cbn [mbind outcome_bind].
  change (inject_Z A6_WIDTH) with 1240%Q in *.
  pose proof (inject_Z_pos a Ha) as HA.
  pose proof (div_mul 1240 _ HA) as Ea.
  exists (round64 (1240 / inject_Z a)), (round64 (area / fb)).
  split; [reflexivity|].
  set (A := inject_Z a) in *. set (q := (1240 / A)%Q) in *.
  assert (E1 : (q * (1 + u) * A == 1240 * (1 + u))%Q) by (rewrite <- Ea; ring).
  assert (E0 : (q * (1 - u) * A == 1240 * (1 - u))%Q) by (rewrite <- Ea; ring).
  constructor; fold A; [split | exact Hr2 | exact Hq | exact Hn2].
  - rewrite <- E0. apply Qmult_le_compat_r; lra.
  - rewrite <- E1. apply Qmult_le_compat_r; lra.
Qed.

Lemma area_margin : (1240 * (1 - u) * (1 + u) <= area * (1 - u))%Q.
Proof. vm_compute. discriminate. Qed.

Lemma should_rotate_run (w h : Z) (fw fh : Q) :
  0 < h < w -> of_int w = Ok fw -> of_int h = Ok fh ->
  exists hor ver sc,
    fit_ratio w h = Ok hor /\ fit_ratio h w = Ok ver /\
    mul hor factor = Ok sc /\
    should_rotate_for_a6 w h = Ok (ltb sc ver) /\
    rotation w h ver sc.
Proof.
  intros [Hh Hhw] Hfw Hfh. assert (Hw : 0 < w) by lia.
  destruct (fit_ratio_run w h fw fh Hw Hh Hfw Hfh)
    as (a1 & a2 & Ehor & [[Ha1l Ha1h] [Ha2l Ha2h] Hn1 Hn2]).
  destruct (fit_ratio_run h w fh fw Hh Hw Hfh Hfw)
    as (b1 & b2 & Ever & [[Hb1l Hb1h] [Hb2l Hb2h] Hn3 Hn4]).
  destruct (of_int_inv w fw Hw Hfw) as [[Hfwl Hfwh] _].
  destruct (of_int_inv h fh Hh Hfh) as [[Hfhl Hfhh] _].
  pose proof (inject_Z_pos w Hw) as HW. pose proof (inject_Z_pos h Hh) as HH.
  assert (HHW : (inject_Z h <= inject_Z w)%Q) by (rewrite <- Zle_Qle; lia).
  pose proof u_bounds as [Hu0 Hu1]. pose proof min_normal_pos as Hm.
  pose proof normal_floor_eq as En. pose proof area_margin as Hma.
  pose proof factor_bounds as [Hc1 Hc2].
  set (W := inject_Z w) in *. set (H := inject_Z h) in *.
  set (m := min_normal) in *. set (n := normal_floor) in *.
  set (c := factor) in *. set (A := area) in *.
  (* the unrotated ratio is the width ratio, up to rounding *)
  assert (Ha2W : (1240 * (1 - u) <= a2 * W)%Q).
  { apply (mul_cancel_le _ _ (1 + u)); [lra|].
    assert (a2 * fh <= a2 * (H * (1 + u)))%Q by (apply mul_le_l; lra).
    assert (a2 * H * (1 + u) <= a2 * W * (1 + u))%Q.
    { apply Qmult_le_compat_r; [|lra]. apply mul_le_l; lra. }
    lra. }
  assert (Hhor_lo : (1240 * (1 - u) <= min a1 a2 * W)%Q).
  { unfold min. destruct (ltb a2 a1); lra. }
  assert (Hhor_n : (n <= min a1 a2)%Q) by (apply min_glb; assumption).
  assert (Hver_lo : (1240 * (1 - u) <= min b1 b2 * H)%Q \/
                    (A * (1 - u) <= min b1 b2 * (W * (1 + u)))%Q).
  { unfold min. destruct (ltb b2 b1); [right|left]; [|lra].
    assert (b2 * fw <= b2 * (W * (1 + u)))%Q by (apply mul_le_l; lra). lra. }
  pose proof (min_le_l a1 a2) as Hhor1. pose proof (min_le_l b1 b2) as Hver1.
  set (hor := min a1 a2) in *. set (ver := min b1 b2) in *.
  assert (HhorW : (hor * W <= 1240 * (1 + u))%Q).
  { assert (hor * W <= a1 * W)%Q by (apply Qmult_le_compat_r; lra). lra. }
  assert (Hhb : (hor <= 1240 * (1 + u))%Q)
    by (apply (le_of_mul hor W); [lra | exact HW | exact HhorW]).
  destruct (mul_run hor c) as (Esc & Hscl & Hsch).
  { fold m. assert (n * 1 <= hor * c)%Q by (apply mul_le; split; lra). lra. }
  { assert (hor * c <= 1240 * (1 + u) * 2)%Q by (apply mul_le; split; lra). lra. }
  exists hor, ver, (round64 (hor * c)).
  split; [exact Ehor|]. split; [exact Ever|]. split; [exact Esc|]. split.
  - unfold should_rotate_for_a6. destruct (Z.ltb_spec h w); [|lia].
    rewrite Ehor, Ever. cbn [mbind outcome_bind]. fold factor. fold c.
    rewrite Esc. reflexivity.
  - set (sc := round64 (hor * c)) in *.
    constructor; fold W H A c.
    + assert (sc * W <= hor * c * (1 + u) * W)%Q by (apply Qmult_le_compat_r; lra).
      assert (hor * W * (c * (1 + u)) <= 1240 * (1 + u) * (c * (1 + u)))%Q.
      { apply Qmult_le_compat_r; [exact HhorW|]. apply Qmult_le_0_compat; lra. }
      lra.
    + assert (hor * c * (1 - u) * W <= sc * W)%Q by (apply Qmult_le_compat_r; lra).
      assert (1240 * (1 - u) * (c * (1 - u)) <= hor * W * (c * (1 - u)))%Q.
      { apply Qmult_le_compat_r; [exact Hhor_lo|]. apply Qmult_le_0_compat; lra. }
      lra.
    + assert (ver * H <= b1 * H)%Q by (apply Qmult_le_compat_r; lra). lra.
    + exact Hver_lo.
Qed.

Lemma area_clear : (1240 * (1 + u) * (factor * (1 + u)) * (1 + u) < area * (1 - u))%Q.
Proof. vm_compute. reflexivity. Qed.

(** Rotation is triggered whenever the exact ratio [w / h] is at least
    [t], for any [t] that clears [1.1] by the rounding errors. *)
Lemma rotation_triggered (w h : Z) (ver sc t : Q) :
  0 < h -> 0 < w -> rotation w h ver sc ->
  ((1 + u) * (factor * (1 + u)) < (1 - u) * t)%Q ->
  (t * inject_Z h <= inject_Z w)%Q ->
  ltb sc ver = true.
Proof.
  intros Hh Hw [Hhi _ _ Hlo] Ht Hwide. apply ltb_lt.
  pose proof (inject_Z_pos w Hw) as HW. pose proof (inject_Z_pos h Hh) as HH.
  pose proof u_bounds as [Hu0 Hu1]. pose proof area_clear as Hac.
  set (W := inject_Z w) in *. set (H := inject_Z h) in *.
  set (c := factor) in *. set (A := area) in *.
  destruct (Qlt_le_dec sc ver) as [|Hle]; [assumption|exfalso].
  destruct Hlo as [Hlo|Hlo].
  - assert (F1 : (ver * H * W <= sc * H * W)%Q).
    { apply Qmult_le_compat_r; [|lra]. apply Qmult_le_compat_r; lra. }
    assert (F2 : (1240 * (1 - u) * W <= ver * H * W)%Q)
      by (apply Qmult_le_compat_r; lra).
    assert (F3 : (1240 * (1 - u) * (t * H) <= 1240 * (1 - u) * W)%Q)
      by (apply mul_le_l; lra).
    assert (F4 : (sc * W * H <= 1240 * (1 + u) * (c * (1 + u)) * H)%Q)
      by (apply Qmult_le_compat_r; lra).
    assert (F5 : ((1 + u) * (c * (1 + u)) * (1240 * H) < (1 - u) * t * (1240 * H))%Q)
      by (apply Qmult_lt_compat_r; lra).
    lra.
  - assert (F1 : (ver * (W * (1 + u)) <= sc * (W * (1 + u)))%Q).
    { apply Qmult_le_compat_r; [lra|]. apply Qmult_le_0_compat; lra. }
    assert (F2 : (sc * W * (1 + u) <= 1240 * (1 + u) * (c * (1 + u)) * (1 + u))%Q)
      by (apply Qmult_le_compat_r; lra).
    lra.
Qed.

(** Rotation is not triggered whenever [w / h] is at most [t], for any
    [t] that stays below [1.1] by the rounding errors. *)
Lemma rotation_not_triggered (w h : Z) (ver sc t : Q) :
  0 < h -> 0 < w -> rotation w h ver sc ->
  ((1 + u) * t <= (1 - u) * (factor * (1 - u)))%Q -> (0 <= t)%Q ->
  (inject_Z w <= t * inject_Z h)%Q ->
  ltb sc ver = false.
Proof.
  intros Hh Hw [_ Hlo Hhi _] Ht Ht0 Hnarrow.
  apply not_true_iff_false. rewrite ltb_lt. apply Qle_not_lt.
  pose proof (inject_Z_pos w Hw) as HW. pose proof (inject_Z_pos h Hh) as HH.
  pose proof u_bounds as [Hu0 Hu1].
  set (W := inject_Z w) in *. set (H := inject_Z h) in *.
  set (c := factor) in *.
  destruct (Qlt_le_dec sc ver) as [Hlt|]; [exfalso|assumption].
  assert (F1 : (sc * W * H < ver * W * H)%Q).
  { apply Qmult_lt_compat_r; [lra|]. apply Qmult_lt_compat_r; lra. }
  assert (F2 : (ver * H * W <= 1240 * (1 + u) * W)%Q)
    by (apply Qmult_le_compat_r; lra).
  assert (F3 : (1240 * (1 + u) * W <= 1240 * (1 + u) * (t * H))%Q)
    by (apply mul_le_l; lra).
  assert (F4 : (1240 * (1 - u) * (c * (1 - u)) * H <= sc * W * H)%Q)
    by (apply Qmult_le_compat_r; lra).
  assert (F5 : ((1 + u) * t * (1240 * H) <= (1 - u) * (c * (1 - u)) * (1240 * H))%Q)
    by (apply Qmult_le_compat_r; lra).
  lra.
Qed.

(** The thresholds the statements below use. *)
Lemma threshold_wide :
  ((1 + u) * (factor * (1 + u)) < (1 - u) * (1100000000001 # 1000000000000))%Q.
Proof. vm_compute. reflexivity. Qed.

Lemma threshold_narrow :
  ((1 + u) * (1099999999999 # 1000000000000) <= (1 - u) * (factor * (1 - u)))%Q.
Proof. vm_compute. discriminate. Qed.
End LayoutFacts.

(** ** Metadata: parsing and formatting the capture time *)

Module StrptimeFacts.
Import Strptime.
Export StrptimeAnalysis.

Lemma digit_char_spec (d : Z) :
  digit (digit_char d) = true /\ code (digit_char d) - 48 = d mod 10.
Proof.
  unfold digit_char. pose proof (Z.mod_pos_bound d 10 ltac:(lia)) as Hr.
  set (r := d mod 10) in *.
  assert (Hc : r = 0 \/ r = 1 \/ r = 2 \/ r = 3 \/ r = 4 \/ r = 5 \/ r = 6 \/
               r = 7 \/ r = 8 \/ r = 9) by lia.
  clearbody r. repeat (destruct Hc as [-> | Hc]; [split; reflexivity|]).
  subst r. split; reflexivity.
Qed.

Lemma append_cons (c : ascii) (a b : string) : String c a +:+ b = String c (a +:+ b).
Proof. reflexivity. Qed.

Lemma append_nil_l (b : string) : "" +:+ b = b.
Proof. reflexivity. Qed.

Lemma append_nil_r (a : string) : a +:+ "" = a.
Proof. induction a as [|x a IH]; [reflexivity|]. rewrite append_cons, IH. reflexivity. Qed.

Lemma append_assoc (a b c : string) : (a +:+ b) +:+ c = a +:+ (b +:+ c).
Proof.
  induction a as [|x a IH]; [reflexivity|]. rewrite !append_cons, IH. reflexivity.
Qed.

Lemma int_of_app (a b : string) (acc : Z) :
  int_of acc (a +:+ b) = int_of (int_of acc a) b.
Proof.
  revert acc. induction a as [|c a IH]; intros acc; [reflexivity|].
  rewrite append_cons. cbn [int_of]. destruct (digit c); apply IH.
Qed.

Lemma int_of_decimal (w : nat) (n acc : Z) :
  0 <= n -> int_of acc (decimal w n) = acc * 10 ^ Z.of_nat w + n mod 10 ^ Z.of_nat w.
Proof.
  revert n acc. induction w as [|w IH]; intros n acc Hn.
  - cbn. rewrite Z.mod_1_r. lia.
  - cbn [decimal]. rewrite int_of_app, IH by (apply Z.div_pos; lia).
    destruct (digit_char_spec n) as [Hd Hv]. cbn [int_of]. rewrite Hd, Hv.
    rewrite Nat2Z.inj_succ, Z.pow_succ_r by lia.
    set (p := 10 ^ Z.of_nat w). assert (Hp : 0 < p) by (apply Z.pow_pos_nonneg; lia).
    rewrite (Z.rem_mul_r n 10 p) by lia. lia.
Qed.

Lemma int_of_decimal_small (w : nat) (n : Z) :
  0 <= n < 10 ^ Z.of_nat w -> int_of 0 (decimal w n) = n.
Proof.
  intros Hn. rewrite int_of_decimal by lia. rewrite Z.mod_small by lia. lia.
Qed.

Lemma decimal_2 (n : Z) :
  decimal 2 n = String (digit_char (n / 10)) (String (digit_char n) "").
Proof. reflexivity. Qed.

(** A run of [w] digits is matched by [w] digit classes. *)
Lemma match_digits (w : nat) (n : Z) (rest : string) :
  match_classes (repeat digit w) (decimal w n +:+ rest) = Some (decimal w n, rest).
Proof.
  revert n rest. induction w as [|w IH]; intros n rest; [reflexivity|].
  cbn [decimal]. rewrite append_assoc, append_cons, append_nil_l.
  cbn [repeat]. rewrite repeat_cons.
  assert (Happ : forall cs s1 s' c,
    match_classes cs (s1 +:+ String c s') = Some (s1, String c s') ->
    digit c = true ->
    match_classes (cs ++ [digit]) (s1 +:+ String c s')
    = Some (s1 +:+ String c "", s')).
  { clear. induction cs as [|cl cs IHcs]; intros s1 s' c Hm Hc.
    - cbn in Hm. injection Hm as Hs1 _. rewrite <- Hs1, !append_nil_l. cbn.
      rewrite Hc. reflexivity.
    - destruct s1 as [|x s1].
      + rewrite append_nil_l in *. cbn in Hm. destruct (cl c); [|discriminate].
        destruct (match_classes cs s') as [[? ?]|]; discriminate.
      + rewrite !append_cons in *. cbn in Hm |- *. destruct (cl x); [|discriminate].
        destruct (match_classes cs (s1 +:+ String c s')) as [[txt r]|] eqn:E;
          [|discriminate].
        injection Hm as -> ->. rewrite (IHcs _ _ _ E Hc). reflexivity. }
  apply Happ; [apply IH | apply digit_char_spec].
Qed.

Lemma alternatives_first {A : Type} (alts : list (list (ascii -> bool)))
    (k : string -> string -> option A) (s txt rest : string) (r : A) :
  first_match alts s = Some (txt, rest) -> k txt rest = Some r ->
  alternatives alts k s = Some r.
Proof.
  intros Hf Hk. induction alts as [|a alts IH]; [discriminate|].
  cbn in Hf |- *. destruct (match_classes a s) as [[txt' rest']|].
  - injection Hf as -> ->. rewrite Hk. reflexivity.
  - apply IH, Hf.
Qed.

(** Case analysis on a bounded number. *)
Lemma bounded_cases (P : Z -> Prop) (hi : nat) :
  Forall (fun n => P (Z.of_nat n)) (seq 0 (S hi)) ->
  forall v, 0 <= v <= Z.of_nat hi -> P v.
Proof.
  intros Hall v Hv. rewrite Forall_forall in Hall.
  rewrite <- (Z2Nat.id v) by lia. apply Hall, elem_of_seq. lia.
Qed.

Ltac by_cases hi :=
  lazymatch goal with
  | |- forall v, _ <= v <= _ -> @?P v => apply (bounded_cases P hi)
  end;
  cbn [seq];
  repeat (constructor;
          [first [ intros; lia | intros _ rest; vm_compute; reflexivity ]|]);
  constructor.

(** Each zero-padded field of a valid time is matched in full by its
    directive. *)
Lemma first_match_m (v : Z) :
  0 <= v <= 12 -> 1 <= v -> forall rest,
  first_match
    [[exactly "1"; in_range "0" "2"]; [exactly "0"; in_range "1" "9"]; [in_range "1" "9"]]
    (decimal 2 v +:+ rest) = Some (decimal 2 v, rest).
Proof. revert v. by_cases 12%nat. Qed.

Lemma first_match_d (v : Z) :
  0 <= v <= 31 -> 1 <= v -> forall rest,
  first_match
    [[exactly "3"; in_range "0" "1"]; [in_range "1" "2"; digit];
     [exactly "0"; in_range "1" "9"]; [in_range "1" "9"]; [exactly " "; in_range "1" "9"]]
    (decimal 2 v +:+ rest) = Some (decimal 2 v, rest).
Proof. revert v. by_cases 31%nat. Qed.

Lemma first_match_H (v : Z) :
  0 <= v <= 23 -> 0 <= v -> forall rest,
  first_match
    [[exactly "2"; in_range "0" "3"]; [in_range "0" "1"; digit]; [digit]]
    (decimal 2 v +:+ rest) = Some (decimal 2 v, rest).
Proof. revert v. by_cases 23%nat. Qed.

Lemma first_match_M (v : Z) :
  0 <= v <= 59 -> 0 <= v -> forall rest,
  first_match [[in_range "0" "5"; digit]; [digit]]
    (decimal 2 v +:+ rest) = Some (decimal 2 v, rest).
Proof. revert v. by_cases 59%nat. Qed.

Lemma first_match_S (v : Z) :
  0 <= v <= 59 -> 0 <= v -> forall rest,
  first_match
    [[exactly "6"; in_range "0" "1"]; [in_range "0" "5"; digit]; [digit]]
    (decimal 2 v +:+ rest) = Some (decimal 2 v, rest).
Proof. revert v. by_cases 59%nat. Qed.

Lemma first_match_Y (v : Z) (rest : string) :
  first_match [[digit; digit; digit; digit]] (decimal 4 v +:+ rest)
  = Some (decimal 4 v, rest).
Proof.
  cbn [first_match]. change [digit; digit; digit; digit] with (repeat digit 4).
  rewrite match_digits. reflexivity.
Qed.

Lemma spaces_digit {A : Type} (k : string -> option A) (v : Z) (s : string) :
  spaces k (String (digit_char v) s) = None.
Proof.
  unfold digit_char. pose proof (Z.mod_pos_bound v 10 ltac:(lia)) as Hr.
  set (r := v mod 10) in *.
  assert (Hc : r = 0 \/ r = 1 \/ r = 2 \/ r = 3 \/ r = 4 \/ r = 5 \/ r = 6 \/
               r = 7 \/ r = 8 \/ r = 9) by lia.
  clearbody r. repeat (destruct Hc as [-> | Hc]; [reflexivity|]).
  subst r. reflexivity.
Qed.

Lemma spaces_decimal {A : Type} (k : string -> option A) (v : Z) (s : string) :
  spaces k (decimal 2 v +:+ s) = None.
Proof. rewrite decimal_2, append_cons. apply spaces_digit. Qed.

Lemma valid_ranges (t : datetime) :
  valid t = true ->
  1 <= year t <= 9999 /\ 1 <= month t <= 12 /\
  1 <= day t <= days_in_month (year t) (month t) /\
  0 <= hour t <= 23 /\ 0 <= minute t <= 59 /\ 0 <= second t <= 59.
Proof. unfold valid. rewrite !andb_true_iff, !Z.leb_le. tauto. Qed.

Lemma days_in_month_le (y m : Z) : days_in_month y m <= 31.
Proof.
  unfold days_in_month.
  repeat match goal with |- context [if ?b then _ else _] => destruct b end; lia.
Qed.

Lemma match_exif_timestamp (t : datetime) :
  valid t = true ->
  match_items exif_format [] (exif_timestamp t) = Some (groups_of t, "").
Proof.
  intros Hv. apply valid_ranges in Hv as (HY & Hm & Hd & HH & HM & HS).
  pose proof (days_in_month_le (year t) (month t)) as Hdim.
  unfold exif_format, exif_timestamp, dir_Y, dir_m, dir_d, dir_H, dir_M, dir_S.
  cbn [match_items].
  eapply alternatives_first; [apply first_match_Y|].
  rewrite append_cons, append_nil_l. cbn [match_items]. change (exactly ":" ":") with true.
  cbn [match_items].
  eapply alternatives_first; [apply first_match_m; lia|].
  rewrite append_cons, append_nil_l. cbn [match_items]. change (exactly ":" ":") with true.
  cbn [match_items].
  eapply alternatives_first; [apply first_match_d; lia|].
  rewrite append_cons, append_nil_l. cbn [match_items spaces]. change (space " ") with true.
  cbn iota. rewrite spaces_decimal.
  cbn [match_items].
  eapply alternatives_first; [apply first_match_H; lia|].
  rewrite append_cons, append_nil_l. cbn [match_items]. change (exactly ":" ":") with true.
  cbn [match_items].
  eapply alternatives_first; [apply first_match_M; lia|].
  rewrite append_cons, append_nil_l. cbn [match_items]. change (exactly ":" ":") with true.
  cbn [match_items].
  eapply alternatives_first.
  - rewrite <- (append_nil_r (decimal 2 (second t))) at 1.
    apply first_match_S; lia.
  - reflexivity.
Qed.

(** Parsing the EXIF form of a valid date and time gives it back. *)
Lemma strptime_exif_timestamp (t : datetime) :
  valid t = true -> strptime (exif_timestamp t) = Ok t.
Proof.
  intros Hv. unfold strptime. rewrite (match_exif_timestamp t Hv).
  cbn [String.eqb negb].
  pose proof (valid_ranges t Hv) as (HY & Hm & Hd & HH & HM & HS).
  pose proof (days_in_month_le (year t) (month t)) as Hdim.
  assert (EY : group "Y" (groups_of t) = year t).
  { unfold group, groups_of. cbn -[decimal int_of]. apply int_of_decimal_small. cbn; lia. }
  assert (Em : group "m" (groups_of t) = month t).
  { unfold group, groups_of. cbn -[decimal int_of]. apply int_of_decimal_small. cbn; lia. }
  assert (Ed : group "d" (groups_of t) = day t).
  { unfold group, groups_of. cbn -[decimal int_of]. apply int_of_decimal_small. cbn; lia. }
  assert (EH : group "H" (groups_of t) = hour t).
  { unfold group, groups_of. cbn -[decimal int_of]. apply int_of_decimal_small. cbn; lia. }
  assert (EM : group "M" (groups_of t) = minute t).
  { unfold group, groups_of. cbn -[decimal int_of]. apply int_of_decimal_small. cbn; lia. }
  assert (ES : group "S" (groups_of t) = second t).
  { unfold group, groups_of. cbn -[decimal int_of]. apply int_of_decimal_small. cbn; lia. }
  rewrite EY, Em, Ed, EH, EM, ES.
  destruct t as [Y m d H M S]. cbn [year month day hour minute second] in *.
  rewrite Hv. reflexivity.
Qed.
End StrptimeFacts.

(** ** The forms of the specification and the formats of the code *)

Module SpecDateFacts.
Import Strptime StrptimeFacts.

(** Two strings of digits are equal when the digits are. *)
Ltac same_digits :=
  repeat match goal with |- String _ _ = String _ _ => f_equal end;
  try reflexivity;
  do 3 f_equal; Z.div_mod_to_equations; lia.

Lemma digit_char_digit (d : Z) : 0 <= d <= 9 -> digit_char d = SpecDate.digit d.
Proof. intros Hd. unfold digit_char, SpecDate.digit. rewrite Z.mod_small by lia. reflexivity. Qed.

Lemma decimal_two (n : Z) : 0 <= n <= 99 -> decimal 2 n = SpecDate.two n.
Proof.
  intros Hn. rewrite decimal_2. unfold SpecDate.two.
  rewrite (digit_char_digit (n / 10)) by (Z.div_mod_to_equations; lia).
  reflexivity.
Qed.

Lemma decimal_four (n : Z) : 0 <= n <= 9999 -> decimal 4 n = SpecDate.four n.
Proof.
  intros Hn.
  change (decimal 4 n)
    with (String (digit_char (n / 10 / 10 / 10))
            (String (digit_char (n / 10 / 10))
               (String (digit_char (n / 10)) (String (digit_char n) "")))).
  change (SpecDate.four n)
    with (String (SpecDate.digit (n / 100 / 10))
            (String (SpecDate.digit ((n / 100) mod 10))
               (String (SpecDate.digit ((n mod 100) / 10))
                  (String (SpecDate.digit ((n mod 100) mod 10)) "")))).
  unfold digit_char, SpecDate.digit.
  same_digits.
Qed.

Lemma month_abbr_Mon (M : Z) : 1 <= M <= 12 -> month_abbr M = SpecDate.Mon M.
Proof.
  intros HM.
  assert (Hc : M = 1 \/ M = 2 \/ M = 3 \/ M = 4 \/ M = 5 \/ M = 6 \/ M = 7 \/
               M = 8 \/ M = 9 \/ M = 10 \/ M = 11 \/ M = 12) by lia.
  repeat (destruct Hc as [->|Hc]; [reflexivity|]). subst M. reflexivity.
Qed.

(** The year as glibc prints it is the year without leading zeros. *)
Lemma unpadded_year (Y : Z) : 1 <= Y <= 9999 -> unpadded 4 Y = SpecDate.year Y.
Proof.
  intros HY. unfold SpecDate.year. cbn [unpadded].
  destruct (Z.ltb_spec Y 10) as [H1|H1].
  { rewrite append_nil_l, (digit_char_digit Y) by lia. reflexivity. }
  destruct (Z.ltb_spec (Y / 10) 10) as [H2|H2];
    destruct (Z.ltb_spec Y 100) as [H3|H3];
    try (exfalso; Z.div_mod_to_equations; lia).
  { rewrite append_nil_l. unfold SpecDate.two.
    rewrite (digit_char_digit (Y / 10)) by (Z.div_mod_to_equations; lia).
    reflexivity. }
  destruct (Z.ltb_spec (Y / 10 / 10) 10) as [H4|H4];
    destruct (Z.ltb_spec Y 1000) as [H5|H5];
    try (exfalso; Z.div_mod_to_equations; lia).
  { rewrite append_nil_l.
    change (String (SpecDate.digit (Y / 100)) (SpecDate.two (Y mod 100)))
      with (String (SpecDate.digit (Y / 100))
              (String (SpecDate.digit ((Y mod 100) / 10))
                 (String (SpecDate.digit ((Y mod 100) mod 10)) ""))).
    repeat first [rewrite append_cons | rewrite append_nil_l].
    unfold digit_char, SpecDate.digit. same_digits. }
  destruct (Z.ltb_spec (Y / 10 / 10 / 10) 10) as [H6|H6];
    [|exfalso; Z.div_mod_to_equations; lia].
  rewrite append_nil_l. rewrite <- decimal_four by lia. reflexivity.
Qed.

Lemma is_leap_leap (Y : Z) : is_leap Y = SpecDate.leap Y.
Proof.
  unfold is_leap, SpecDate.leap.
  destruct (Z.eqb_spec (Y mod 4) 0), (Z.eqb_spec (Y mod 100) 0),
    (Z.eqb_spec (Y mod 400) 0); try reflexivity;
    exfalso; Z.div_mod_to_equations; lia.
Qed.

Lemma days_in_month_days (Y M : Z) :
  1 <= M <= 12 -> days_in_month Y M = SpecDate.days Y M.
Proof.
  intros HM.
  assert (Hc : M = 1 \/ M = 2 \/ M = 3 \/ M = 4 \/ M = 5 \/ M = 6 \/ M = 7 \/
               M = 8 \/ M = 9 \/ M = 10 \/ M = 11 \/ M = 12) by lia.
  unfold days_in_month, SpecDate.days. rewrite is_leap_leap.
  repeat (destruct Hc as [->|Hc]; [reflexivity|]). subst M. reflexivity.
Qed.

Lemma calendar_valid (Y M D h m s : Z) :
  SpecDate.calendar Y M D h m s -> valid (Datetime Y M D h m s) = true.
Proof.
  intros (HY & HM & HD & Hh & Hm & Hs). unfold valid.
  cbn [year month day hour minute second].
  rewrite (days_in_month_days Y M HM), !andb_true_iff, !Z.leb_le. lia.
Qed.

Lemma calendar_day (Y M D h m s : Z) : SpecDate.calendar Y M D h m s -> 1 <= D <= 31.
Proof.
  intros (_ & HM & HD & _).
  rewrite <- (days_in_month_days Y M HM) in HD.
  pose proof (days_in_month_le Y M). lia.
Qed.

(** The form [YYYY:MM:DD HH:MM:SS] of the specification is the EXIF form
    [strptime] is run on. *)
Lemma timestamp_exif (Y M D h m s : Z) :
  SpecDate.calendar Y M D h m s ->
  SpecDate.timestamp Y M D h m s = exif_timestamp (Datetime Y M D h m s).
Proof.
  intros Hc. pose proof (calendar_day _ _ _ _ _ _ Hc) as HD.
  destruct Hc as (HY & HM & _ & Hh & Hm & Hs).
  unfold SpecDate.timestamp, exif_timestamp.
  cbn [year month day hour minute second].
  rewrite (decimal_four Y), !decimal_two by lia. reflexivity.
Qed.

(** What [strftime] prints, in the words of the specification. *)
Lemma strftime_date (Y M D h m s : Z) :
  SpecDate.calendar Y M D h m s ->
  strftime (Datetime Y M D h m s)
  = SpecDate.Mon M +:+ " " +:+ SpecDate.two D +:+ ", " +:+ SpecDate.year Y.
Proof.
  intros Hc. pose proof (calendar_day _ _ _ _ _ _ Hc) as HD.
  destruct Hc as (HY & HM & _). unfold strftime. cbn [year month day].
  rewrite (month_abbr_Mon M HM), (decimal_two D), (unpadded_year Y HY) by lia.
  reflexivity.
Qed.

Lemma year_four (Y : Z) : 1000 <= Y -> SpecDate.year Y = SpecDate.four Y.
Proof.
  intros HY. unfold SpecDate.year.
  destruct (Z.ltb_spec Y 10); [lia|]. destruct (Z.ltb_spec Y 100); [lia|].
  destruct (Z.ltb_spec Y 1000); [lia|]. reflexivity.
Qed.

End SpecDateFacts.

(** ** Metadata: scanning the tag table *)

Module MetadataFacts.

Lemma TAGS_name (tag : Z) (name : string) :
  TAGS !! tag = Some name ->
  (tag, name) ∈ [(271, "Make"); (272, "Model"); (274, "Orientation"); (306, "DateTime");
                 (34853, "GPSInfo"); (36867, "DateTimeOriginal");
                 (36868, "DateTimeDigitized")].
Proof. apply elem_of_list_to_map_2. Qed.

Lemma name_is_date (tag : Z) :
  name_is (TAGS_get tag) "DateTimeOriginal" = true <-> tag = 36867.
Proof.
  split; [|intros ->; reflexivity].
  unfold TAGS_get. destruct (TAGS !! tag) as [name|] eqn:E; [|discriminate].
  apply TAGS_name in E.
  repeat (apply elem_of_cons in E as [[= -> ->]|E]; [first [discriminate | reflexivity]|]).
  apply elem_of_nil in E. contradiction.
Qed.

Lemma name_is_gps (tag : Z) :
  name_is (TAGS_get tag) "GPSInfo" = true <-> tag = 34853.
Proof.
  split; [|intros ->; reflexivity].
  unfold TAGS_get. destruct (TAGS !! tag) as [name|] eqn:E; [|discriminate].
  apply TAGS_name in E.
  repeat (apply elem_of_cons in E as [[= -> ->]|E]; [first [discriminate | reflexivity]|]).
  apply elem_of_nil in E. contradiction.
Qed.

(** The loop depends on the table only through the two tags. *)
Lemma scan_exif_lookup (exif_dict : gmap Z exif_value) :
  scan_exif exif_dict =
    (reformat <$> exif_dict !! 36867, exif_dict !! 34853 ≫= extract_gps_location).
Proof.
  unfold scan_exif.
  apply (map_fold_weak_ind
    (fun r (m : gmap Z exif_value) =>
       r = (reformat <$> m !! 36867, m !! 34853 ≫= extract_gps_location))).
  - reflexivity.
  - intros tag value m r Hnone ->. unfold exif_step. cbn [fst snd].
    destruct (name_is (TAGS_get tag) "DateTimeOriginal") eqn:Ed.
    + apply name_is_date in Ed as ->.
      rewrite lookup_insert_eq, lookup_insert_ne by discriminate. reflexivity.
    + destruct (name_is (TAGS_get tag) "GPSInfo") eqn:Eg.
      * apply name_is_gps in Eg as ->.
        rewrite lookup_insert_eq, lookup_insert_ne by discriminate. reflexivity.
      * rewrite !lookup_insert_ne; [reflexivity| |].
        -- intros ->. rewrite (proj2 (name_is_gps 34853)) in Eg by reflexivity.
           discriminate.
        -- intros ->. rewrite (proj2 (name_is_date 36867)) in Ed by reflexivity.
           discriminate.
Qed.

End MetadataFacts.

(** ** Composition: what each step does to the world *)

Section ComposerFacts.
Context `{Pillow}.

Ltac run :=
  cbv beta iota zeta delta
    [mbind mret M_bind M_ret lift try_except print Image_new draw
     canvas files stdout].

Lemma lookup_rawpy : lookup_global "rawpy" = Raise (NameError "rawpy").
Proof. vm_compute. reflexivity. Qed.

Lemma say_nil (w : world) : say w [] = w.
Proof. destruct w. unfold say. cbn. rewrite app_nil_r. reflexivity. Qed.

Lemma say_say (w : world) (a b : list message) : say (say w a) b = say w (a ++ b).
Proof. unfold say. cbn. rewrite app_assoc. reflexivity. Qed.

(** [rawpy] is not bound: the read raises [NameError], which is caught. *)
Lemma read_raw_file_none (file_path : string) (w : world) :
  read_raw_file file_path w
  = (Ok None, say w [RawReadFailed file_path (NameError "rawpy")]).
Proof. unfold read_raw_file. run. rewrite lookup_rawpy. reflexivity. Qed.

Lemma scan_exif_empty (exif_dict : gmap Z exif_value) :
  map_size exif_dict = 0%nat -> scan_exif exif_dict = (None, None).
Proof. intros ->%map_size_empty_iff. reflexivity. Qed.

(** The extraction never raises; it prints only on the raw path. *)
Lemma extract_exif_data_spec (image_path : string) (w : world) :
  exists msgs,
    extract_exif_data image_path w = (Ok (metadata image_path), say w msgs) /\
    (is_raw image_path = false -> msgs = []).
Proof.
  unfold extract_exif_data, metadata, exif_of. run.
  destruct (Image_open image_path) as [img|e]; run.
  - destruct (getexif img) as [[exif_dict|]|e]; run.
    + exists []. rewrite say_nil. split; [|reflexivity].
      destruct (Nat.eqb_spec (map_size exif_dict) 0) as [E|_]; run.
      * rewrite (scan_exif_empty _ E). reflexivity.
      * reflexivity.
    + exists []. rewrite say_nil. split; reflexivity.
    + destruct (is_raw image_path) eqn:Er; run.
      * rewrite read_raw_file_none. run. eexists. split; [reflexivity|discriminate].
      * exists []. rewrite say_nil. split; reflexivity.
  - destruct (is_raw image_path) eqn:Er; run.
    + rewrite read_raw_file_none. run. eexists. split; [reflexivity|discriminate].
    + exists []. rewrite say_nil. split; reflexivity.
Qed.

Lemma load_font_spec (w : world) : load_font w = (font_choice, w).
Proof.
  unfold load_font, font_choice. run.
  destruct (truetype "arial.ttf" 32); [reflexivity|].
  destruct (truetype "/System/Library/Fonts/Arial.ttf" 32); [reflexivity|].
  destruct (truetype "/usr/share/fonts/truetype/dejavu/DejaVuSans.ttf" 32);
    reflexivity.
Qed.

(** The text step never raises: it draws a prefix of the caption and
    prints the failure that stopped it. *)
Lemma add_text_info_spec (white_bar_y white_bar_height : Z)
    (datetime_str location_str : option exif_value) (w : world) :
  add_text_info white_bar_y white_bar_height datetime_str location_str w
  = (Ok (),
     let '(lines, failure) :=
       caption white_bar_y white_bar_height datetime_str location_str in
     World (canvas w ++ lines) (files w) (stdout w ++ report failure)).
Proof.
  unfold add_text_info, caption. run. rewrite load_font_spec.
  destruct w as [cv fs out]. run.
  destruct font_choice as [f|e]; run.
  - unfold draw_text. run.
    destruct (text_error f (caption_date datetime_str)) as [e|]; run.
    + rewrite app_nil_r. reflexivity.
    + destruct (text_error f (caption_location location_str)) as [e|]; run.
      * reflexivity.
      * unfold date_line, location_line, report. rewrite <- app_assoc, app_nil_r.
        reflexivity.
  - rewrite app_nil_r. reflexivity.
Qed.

(** *** [create_postcard] *)

Lemma create_postcard_raw (image_path output_path : string) (w : world) :
  is_raw image_path = true ->
  create_postcard image_path output_path w
  = (Ok false, say w [RawReadFailed image_path (NameError "rawpy");
                      CannotRead image_path]).
Proof.
  intros Hraw. unfold create_postcard. rewrite Hraw. run.
  rewrite read_raw_file_none. run. unfold say. cbn.
  rewrite <- app_assoc. reflexivity.
Qed.

Lemma create_postcard_open_failure (image_path output_path : string)
    (w : world) (e : exn) :
  is_raw image_path = false -> Image_open image_path = Raise e ->
  create_postcard image_path output_path w = (Ok false, say w [Failed image_path e]).
Proof.
  intros Hraw Hopen. unfold create_postcard. rewrite Hraw. run.
  rewrite Hopen. reflexivity.
Qed.

Lemma create_postcard_composed (image_path output_path : string) (w : world)
    (img resized : image) (turn : bool) (new_width new_height : Z) :
  is_raw image_path = false -> Image_open image_path = Ok img ->
  prepare img = Ok (resized, turn, new_width, new_height) ->
  create_postcard image_path output_path w
  = let '(lines, failure) :=
      caption new_height 314 (metadata image_path).1 (metadata image_path).2 in
    let cv := base_canvas resized new_width new_height ++ lines in
    let notes := rotation_note turn ++ report failure in
    match save_error cv output_path with
    | None => (Ok true,
               World cv (<[output_path := Encoded cv]> (files w))
                     (stdout w ++ notes ++ [Done output_path]))
    | Some e => (Ok false,
                 World cv (<[output_path := Truncated]> (files w))
                       (stdout w ++ notes ++ [Failed image_path e]))
    end.
Proof.
  intros Hraw Hopen Hprep. unfold create_postcard. rewrite Hraw. run.
  rewrite Hopen. run.
  destruct (extract_exif_data_spec image_path w) as (msgs & -> & Hm).
  rewrite (Hm Hraw), say_nil. clear msgs Hm.
  destruct (metadata image_path) as [datetime_str location_str]. cbn [fst snd]. run.
  unfold prepare in Hprep. destruct (size img) as [ow oh]. cbn [fst snd] in Hprep.
  destruct (should_rotate_for_a6 ow oh) as [turn'|]; [|discriminate].
  cbn [mbind outcome_bind] in Hprep. run.
  destruct turn'.
  - destruct (rotate img) as [img'|] eqn:Hturn; [|discriminate].
    cbn [mbind outcome_bind] in Hprep. run.
    destruct (size img') as [cw ch]. cbn [fst snd] in Hprep.
    destruct (calculate_dimensions cw ch) as [[nw nh]|]; [|discriminate].
    cbn [mbind outcome_bind] in Hprep. run.
    destruct (resize img' (nw, nh)) as [resized'|]; [|discriminate].
    cbn [mbind outcome_bind fst snd] in Hprep. injection Hprep as -> <- -> ->.
    run. rewrite LayoutFacts.white_bar_height_eq. run. rewrite add_text_info_spec.
    destruct (caption new_height 314 datetime_str location_str) as [lines failure].
    run. unfold save. run. cbn [app].
    destruct (save_error _ output_path); run; cbn [rotation_note app];
      rewrite <- !app_assoc; reflexivity.
  - cbn [mbind outcome_bind] in Hprep. run.
    destruct (size img) as [cw ch]. cbn [fst snd] in Hprep.
    destruct (calculate_dimensions cw ch) as [[nw nh]|]; [|discriminate].
    cbn [mbind outcome_bind] in Hprep. run.
    destruct (resize img (nw, nh)) as [resized'|]; [|discriminate].
    cbn [mbind outcome_bind fst snd] in Hprep. injection Hprep as -> <- -> ->.
    run. rewrite LayoutFacts.white_bar_height_eq. run. rewrite add_text_info_spec.
    destruct (caption new_height 314 datetime_str location_str) as [lines failure].
    run. unfold save. run. cbn [app].
    destruct (save_error _ output_path); run; cbn [rotation_note app];
      rewrite <- !app_assoc; reflexivity.
Qed.

(** A failure before compositing leaves the output folder alone. *)
Lemma create_postcard_unprepared (image_path output_path : string) (w : world)
    (img : image) (e : exn) :
  is_raw image_path = false -> Image_open image_path = Ok img ->
  prepare img = Raise e ->
  exists notes,
    create_postcard image_path output_path w
    = (Ok false, say w (notes ++ [Failed image_path e])).
Proof.
  intros Hraw Hopen Hprep. unfold create_postcard. rewrite Hraw. run.
  rewrite Hopen. run.
  destruct (extract_exif_data_spec image_path w) as (msgs & -> & Hm).
  rewrite (Hm Hraw), say_nil. clear msgs Hm.
  destruct (metadata image_path) as [datetime_str location_str]. run.
  unfold prepare in Hprep. destruct (size img) as [ow oh]. cbn [fst snd] in Hprep.
  destruct (should_rotate_for_a6 ow oh) as [turn|e0].
  2:{ injection Hprep as ->. exists []. reflexivity. }
  cbn [mbind outcome_bind] in Hprep. run. destruct turn.
  - destruct (rotate img) as [img'|e0].
    2:{ injection Hprep as ->. exists []. reflexivity. }
    cbn [mbind outcome_bind] in Hprep. run.
    destruct (size img') as [cw ch]. cbn [fst snd] in Hprep.
    destruct (calculate_dimensions cw ch) as [[nw nh]|e0].
    2:{ injection Hprep as ->. exists [Rotated]. unfold say. cbn.
        rewrite <- app_assoc. reflexivity. }
    cbn [mbind outcome_bind] in Hprep. run.
    destruct (resize img' (nw, nh)) as [resized|e0]; [discriminate|].
    injection Hprep as ->. exists [Rotated]. unfold say. cbn.
    rewrite <- app_assoc. reflexivity.
  - cbn [mbind outcome_bind] in Hprep. run.
    destruct (size img) as [cw ch]. cbn [fst snd] in Hprep.
    destruct (calculate_dimensions cw ch) as [[nw nh]|e0].
    2:{ injection Hprep as ->. exists []. reflexivity. }
    cbn [mbind outcome_bind] in Hprep. run.
    destruct (resize img (nw, nh)) as [resized|e0]; [discriminate|].
    injection Hprep as ->. exists []. reflexivity.
Qed.

(** [create_postcard] returns a verdict whatever happens. *)
Lemma create_postcard_total (image_path output_path : string) (w : world) :
  exists ok w', create_postcard image_path output_path w = (Ok ok, w').
Proof.
  unfold create_postcard, try_except.
  match goal with |- context [match ?body w with _ => _ end] =>
    destruct (body w) as [[ok|e] w'] end.
  - exists ok, w'. reflexivity.
  - eexists _, _. run. reflexivity.
Qed.

(** *** The batch *)

Lemma process_file_supported (input_folder output_folder filename : string)
    (n : Z) (w w' : world) (ok : bool) :
  is_supported filename = true ->
  create_postcard (input_path_of input_folder filename)
                  (output_path_of output_folder filename)
                  (say w [Processing filename]) = (Ok ok, w') ->
  process_file input_folder output_folder filename n w
  = (Ok (if ok then n + 1 else n), w').
Proof.
  intros Hs Hc. unfold process_file. rewrite Hs.
  cbv beta iota zeta delta [mbind mret M_bind M_ret print].
  unfold input_path_of, output_path_of, say in Hc. rewrite Hc.
  reflexivity.
Qed.

Lemma process_file_total (input_folder output_folder filename : string)
    (n : Z) (w : world) :
  exists n' w', process_file input_folder output_folder filename n w = (Ok n', w').
Proof.
  unfold process_file. destruct (is_supported filename).
  - cbv beta iota zeta delta [mbind mret M_bind M_ret print].
    match goal with |- context [create_postcard ?a ?b ?c] =>
      destruct (create_postcard_total a b c) as (ok & w' & ->) end.
    eexists _, _. reflexivity.
  - eexists _, _. reflexivity.
Qed.

(** No file stops the loop. *)
Lemma process_files_total (input_folder output_folder : string)
    (filenames : list string) (n : Z) (w : world) :
  exists n' w',
    process_files input_folder output_folder filenames n w = (Ok n', w').
Proof.
  revert n w. induction filenames as [|filename rest IH]; intros n w.
  - eexists _, _. reflexivity.
  - destruct (process_file_total input_folder output_folder filename n w)
      as (n1 & w1 & E).
    destruct (IH n1 w1) as (n' & w' & E').
    exists n', w'. cbn [process_files].
    cbv beta iota zeta delta [mbind M_bind]. rewrite E. exact E'.
Qed.

Lemma process_files_cons (input_folder output_folder filename : string)
    (rest : list string) (n n' : Z) (w w' : world) :
  process_file input_folder output_folder filename n w = (Ok n', w') ->
  process_files input_folder output_folder (filename :: rest) n w
  = process_files input_folder output_folder rest n' w'.
Proof. intros Hf. cbn [process_files]. run. rewrite Hf. reflexivity. Qed.

End ComposerFacts.

(** ** The rotation rule in exact arithmetic *)

Module RotationSpecFacts.
Import LayoutFacts.

Lemma exact_fit_landscape (w h : Z) :
  0 < h < w ->
  (exact_fit w h == 1240 / inject_Z w)%Q /\
  (exact_fit h w * inject_Z h <= 1240)%Q /\
  ((1240 <= exact_fit h w * inject_Z h)%Q \/
   (exact_fit h w * inject_Z w == 1748 * (82 # 100))%Q).
Proof.
  intros [Hh Hw]. assert (Hw0 : 0 < w) by lia.
  pose proof (inject_Z_pos w Hw0) as HW. pose proof (inject_Z_pos h Hh) as HH.
  assert (HHW : (inject_Z h <= inject_Z w)%Q) by (rewrite <- Zle_Qle; lia).
  unfold exact_fit. change (inject_Z A6_WIDTH) with 1240%Q.
  change (inject_Z A6_HEIGHT) with 1748%Q.
  pose proof (div_mul 1240 _ HW) as Ea. pose proof (div_mul 1240 _ HH) as Ec.
  pose proof (div_mul (1748 * (82 # 100)) _ HH) as Eb.
  pose proof (div_mul (1748 * (82 # 100)) _ HW) as Ed.
  set (W := inject_Z w) in *. set (H := inject_Z h) in *.
  set (a := (1240 / W)%Q) in *. set (b := (1748 * (82 # 100) / H)%Q) in *.
  set (c := (1240 / H)%Q) in *. set (d := (1748 * (82 # 100) / W)%Q) in *.
  assert (Hab : (a <= b)%Q).
  { apply (mul_cancel_le _ _ (W * H)); [apply Qmult_lt_0_compat; lra|].
    assert (E1 : (a * (W * H) == 1240 * H)%Q) by (rewrite <- Ea; ring).
    assert (E2 : (b * (W * H) == 1748 * (82 # 100) * W)%Q) by (rewrite <- Eb; ring).
    rewrite E1, E2. lra. }
  split; [apply Q.min_l, Hab|]. split.
  - assert (Hle : (Qmin c d <= c)%Q) by apply Q.le_min_l.
    assert (Qmin c d * H <= c * H)%Q by (apply Qmult_le_compat_r; lra). lra.
  - destruct (Q.min_dec c d) as [E|E]; rewrite E; [left; lra | right; exact Ed].
Qed.

(** In exact arithmetic the rule rotates exactly the images more than ten
    percent wider than high. *)
Lemma spec_rotation_iff (w h : Z) :
  0 < h < w -> spec_rotation w h <-> 11 * h < 10 * w.
Proof.
  intros Hhw. destruct Hhw as [Hh Hw]. assert (Hw0 : 0 < w) by lia.
  pose proof (inject_Z_pos w Hw0) as HW. pose proof (inject_Z_pos h Hh) as HH.
  destruct (exact_fit_landscape w h (conj Hh Hw)) as (Ea & Hhi & Hlo).
  pose proof (div_mul 1240 _ HW) as Eq.
  unfold spec_rotation. rewrite Ea.
  rewrite (Zlt_Qlt (11 * h) (10 * w)), !inject_Z_mult.
  change (inject_Z 11) with 11%Q. change (inject_Z 10) with 10%Q.
  set (W := inject_Z w) in *. set (H := inject_Z h) in *.
  set (a := (1240 / W)%Q) in *. set (v := exact_fit h w) in *.
  assert (HWH : (0 < W * H)%Q) by (apply Qmult_lt_0_compat; lra).
  assert (E1 : (a * (11 # 10) * (W * H) == 1364 * H)%Q).
  { transitivity (a * W * ((11 # 10) * H))%Q; [ring | rewrite Eq; ring]. }
  split.
  - intros Hlt.
    assert (F : (a * (11 # 10) * (W * H) < v * (W * H))%Q)
      by (apply Qmult_lt_compat_r; assumption).
    assert (G : (v * H * W <= 1240 * W)%Q) by (apply Qmult_le_compat_r; lra).
    lra.
  - intros Hlt. apply (Qmult_lt_r _ _ (W * H) HWH). rewrite E1.
    destruct Hlo as [Hlo|Hlo].
    + assert (G : (1240 * W <= v * H * W)%Q) by (apply Qmult_le_compat_r; lra).
      lra.
    + assert (G : (v * W * H == 1748 * (82 # 100) * H)%Q) by (rewrite Hlo; ring).
      lra.
Qed.

End RotationSpecFacts.

(** * The claims on the layout planner *)

Section LayoutClaims.
Import Binary64 Binary64Facts LayoutFacts RotationSpecFacts.

(** Sizes below [2^1023] convert to binary64 without overflow. *)
Lemma of_int_converts (z : Z) : 0 < z < 2 ^ 1023 -> exists f, of_int z = Ok f.
Proof. intros Hz. eexists. apply of_int_small, Hz. Qed.

Lemma calculate_dimensions_returns (width height : Z) :
  0 < width < 2 ^ 1023 -> 0 < height < 2 ^ 1023 ->
  exists dims, calculate_dimensions width height = Ok dims.
Proof.
  intros Hw Hh. destruct (of_int_converts width Hw) as [fw Hfw].
  destruct (of_int_converts height Hh) as [fh Hfh].
  destruct (calculate_dimensions_run width height fw fh) as (s & pw & ph & E & _);
    try assumption; try lia.
  eexists. exact E.
Qed.

(** Every result of [calculate_dimensions] on positive sizes comes from a
    run as [fit] describes it. *)
Lemma calculate_dimensions_fit (width height w' h' : Z) :
  0 < width -> 0 < height -> calculate_dimensions width height = Ok (w', h') ->
  exists s pw ph, fit width height s pw ph /\ w' = to_int pw /\ h' = to_int ph.
Proof.
  intros Hw Hh E. destruct (calculate_dimensions_inv _ _ _ E) as (fw & fh & Hfw & Hfh).
  destruct (calculate_dimensions_run width height fw fh Hw Hh Hfw Hfh)
    as (s & pw & ph & E' & Hfit).
  rewrite E in E'. injection E' as -> ->. exists s, pw, ph. auto.
Qed.

(** C1 (as amended). For every positive width and height,
    [calculate_dimensions] works on an available area of 1240 by
    1433 = floor(1748 * (1 - 0.18)); it returns for all sizes below 2^1023;
    whatever it returns satisfies 0 <= w' <= 1240 and 0 <= h' <= 1433,
    reaches 1239 in width or 1432 in height, and, when the smaller side is
    at most 2^40, keeps [w' * height] and [h' * width] within
    [max width height] of each other: each side is less than one pixel
    away from the proportional size. *)
Theorem C1_calculate_dimensions_fits (width height : Z) :
  0 < width -> 0 < height ->
  available_width = 1240 /\ available_height = Ok 1433 /\
  (width < 2 ^ 1023 -> height < 2 ^ 1023 ->
   exists dims, calculate_dimensions width height = Ok dims) /\
  forall w' h',
    calculate_dimensions width height = Ok (w', h') ->
    0 <= w' <= A6_WIDTH /\ 0 <= h' <= 1433 /\
    (1239 <= w' \/ 1432 <= h') /\
    (Z.min width height <= 2 ^ 40 ->
     Z.abs (w' * height - h' * width) <= Z.max width height).
Proof.
  intros Hw Hh. split; [reflexivity|]. split; [exact available_height_eq|]. split.
  - intros Hwb Hhb. apply calculate_dimensions_returns; lia.
  - intros w' h' E.
    destruct (calculate_dimensions_fit _ _ _ _ Hw Hh E) as (s & pw & ph & Hfit & -> & ->).
    destruct (fit_bounds _ _ _ _ _ Hw Hh Hfit) as (Hbw & Hbh & Ht).
    split; [exact Hbw|]. split; [exact Hbh|]. split; [exact Ht|].
    intros Hmin. apply (fit_aspect _ _ s); assumption.
Qed.

Lemma C1_calculate_dimensions_fits_witness :
  calculate_dimensions 4000 3000 = Ok (1240, 930) /\
  0 <= 1240 <= A6_WIDTH /\ 0 <= 930 <= 1433 /\
  (1239 <= 1240 \/ 1432 <= 930) /\
  Z.abs (1240 * 3000 - 930 * 4000) <= Z.max 4000 3000.
Proof.
  assert (E : calculate_dimensions 4000 3000 = Ok (1240, 930))
    by (vm_compute; reflexivity).
  destruct (C1_calculate_dimensions_fits 4000 3000 ltac:(lia) ltac:(lia))
    as (_ & _ & _ & Hall).
  destruct (Hall 1240 930 E) as (Hw & Hh & Ht & Ha).
  split; [exact E|]. split; [exact Hw|]. split; [exact Hh|]. split; [exact Ht|].
  apply Ha. vm_compute. discriminate.
Defined.

(** C1 as stated fails: a 621 by 1 source, within the available area, is
    scaled to 1240 by 1, and the aspect ratio moves from 621 to 1240. *)
Lemma C1_counterexample :
  calculate_dimensions 621 1 = Ok (1240, 1) /\ ~ aspect_within 600 621 1.
Proof.
  assert (E : calculate_dimensions 621 1 = Ok (1240, 1)) by (vm_compute; reflexivity).
  split; [exact E|]. intros (w' & h' & E' & Hlt).
  rewrite E in E'. injection E' as <- <-. revert Hlt. vm_compute. discriminate.
Qed.

(** The degenerate case: a 10000 by 1 source gets height 0, and a 1 by 37
    source loses a pixel of height to binary64 rounding. *)
Example calculate_dimensions_flat : calculate_dimensions 10000 1 = Ok (1240, 0).
Proof. vm_compute. reflexivity. Qed.

Example calculate_dimensions_short : calculate_dimensions 1 37 = Ok (38, 1432).
Proof. vm_compute. reflexivity. Qed.

(** C7. For every positive source size the plan keeps
    [contentWidth <= canvasWidth] and
    [contentHeight + stripHeight <= canvasHeight], the strip height being
    floor(1748 * 0.18) = 314; the plan exists for all sizes below 2^1023. *)
Theorem C7_canvas_plan_invariant (width height : Z) :
  0 < width -> 0 < height ->
  white_bar_height = Ok 314 /\
  (width < 2 ^ 1023 -> height < 2 ^ 1023 ->
   exists dims, calculate_dimensions width height = Ok dims) /\
  forall content_width content_height strip_height,
    calculate_dimensions width height = Ok (content_width, content_height) ->
    white_bar_height = Ok strip_height ->
    content_width <= A6_WIDTH /\ content_height + strip_height <= A6_HEIGHT.
Proof.
  intros Hw Hh. split; [exact white_bar_height_eq|]. split.
  - intros Hwb Hhb. apply calculate_dimensions_returns; lia.
  - intros cw ch sh E Es. rewrite white_bar_height_eq in Es. injection Es as <-.
    destruct (calculate_dimensions_fit _ _ _ _ Hw Hh E) as (s & pw & ph & Hfit & -> & ->).
    destruct (fit_bounds _ _ _ _ _ Hw Hh Hfit) as (Hbw & Hbh & _).
    unfold A6_WIDTH, A6_HEIGHT. lia.
Qed.

Lemma C7_canvas_plan_invariant_witness :
  calculate_dimensions 3000 4000 = Ok (1074, 1433) /\
  1074 <= A6_WIDTH /\ 1433 + 314 <= A6_HEIGHT.
Proof.
  assert (E : calculate_dimensions 3000 4000 = Ok (1074, 1433))
    by (vm_compute; reflexivity).
  split; [exact E|].
  destruct (C7_canvas_plan_invariant 3000 4000 ltac:(lia) ltac:(lia)) as (Es & _ & Hall).
  exact (Hall 1074 1433 314 E Es).
Defined.

End LayoutClaims.

Section RotationClaims.
Import Binary64 Binary64Facts LayoutFacts RotationSpecFacts.

(** At exactly ten percent the first 3022 sizes are not rotated. *)
Lemma boundary_quiet (k : Z) :
  1 <= k <= 3022 -> should_rotate_for_a6 (11 * k) (10 * k) = Ok false.
Proof.
  intros Hk. rewrite should_rotate_with by lia.
  apply (quiet_at_boundary_spec area factor 3022); [|lia].
  vm_compute. reflexivity.
Qed.

Lemma should_rotate_returns (width height : Z) :
  0 < height < width -> width < 2 ^ 1023 ->
  exists horizontal_ratio vertical_ratio scaled,
    fit_ratio width height = Ok horizontal_ratio /\
    fit_ratio height width = Ok vertical_ratio /\
    mul horizontal_ratio (literal (11 # 10)) = Ok scaled /\
    should_rotate_for_a6 width height = Ok (ltb scaled vertical_ratio) /\
    rotation width height vertical_ratio scaled.
Proof.
  intros Hhw Hb.
  destruct (of_int_converts width ltac:(lia)) as [fw Hfw].
  destruct (of_int_converts height ltac:(lia)) as [fh Hfh].
  apply (should_rotate_run width height fw fh Hhw Hfw Hfh).
Qed.

Lemma ratio_at_least (n d w h : Z) :
  0 < d -> n * h <= d * w ->
  ((n # Z.to_pos d) * inject_Z h <= inject_Z w)%Q.
Proof.
  intros Hd Hle. unfold Qle, Qmult, inject_Z. cbn [Qnum Qden].
  rewrite Pos.mul_1_r, Z2Pos.id by lia. lia.
Qed.

Lemma ratio_at_most (n d w h : Z) :
  0 < d -> d * w <= n * h ->
  (inject_Z w <= (n # Z.to_pos d) * inject_Z h)%Q.
Proof.
  intros Hd Hle. unfold Qle, Qmult, inject_Z. cbn [Qnum Qden].
  rewrite Pos.mul_1_r, Z2Pos.id by lia. lia.
Qed.

(** C2 (as amended). For every landscape input [should_rotate_for_a6]
    returns the binary64 comparison [horizontal_ratio * 1.1 < vertical_ratio]
    of the two fitting ratios. It agrees with the exact rule
    [rotatedScale > unrotatedScale * 1.1] whenever width / height is not
    within one part in 10^12 of 1.1: in particular rotation is triggered at
    every excess of 10.01 percent or more. At exactly ten percent rotation
    is not triggered for the sizes 11k by 10k up to k = 3022. *)
Theorem C2_rotation_threshold :
  (forall width height : Z,
     0 < height < width -> width < 2 ^ 1023 ->
     exists horizontal_ratio vertical_ratio scaled,
       fit_ratio width height = Ok horizontal_ratio /\
       fit_ratio height width = Ok vertical_ratio /\
       mul horizontal_ratio (literal (11 # 10)) = Ok scaled /\
       should_rotate_for_a6 width height = Ok (ltb scaled vertical_ratio) /\
       (11 * (10 ^ 12 + 1) * height <= 10 ^ 13 * width ->
        spec_rotation width height /\ should_rotate_for_a6 width height = Ok true) /\
       (11001 * height <= 10000 * width ->
        should_rotate_for_a6 width height = Ok true) /\
       (10 ^ 13 * width <= 11 * (10 ^ 12 - 1) * height ->
        ~ spec_rotation width height /\
        should_rotate_for_a6 width height = Ok false)) /\
  (forall k : Z, 1 <= k <= 3022 ->
     ~ spec_rotation (11 * k) (10 * k) /\
     should_rotate_for_a6 (11 * k) (10 * k) = Ok false).
Proof.
  split.
  - intros width height Hhw Hb.
    destruct (should_rotate_returns width height Hhw Hb)
      as (hor & ver & sc & Eh & Ev & Es & E & Hrot).
    exists hor, ver, sc. do 4 (split; [assumption|]).
    assert (Hh : 0 < height) by lia. assert (Hw : 0 < width) by lia.
    split; [|split].
    + intros Hwide. split; [apply spec_rotation_iff; [exact Hhw | lia]|].
      rewrite E. f_equal.
      apply (rotation_triggered width height ver sc _ Hh Hw Hrot threshold_wide).
      apply (ratio_at_least 1100000000001 1000000000000); lia.
    + intros Hwide. rewrite E. f_equal.
      apply (rotation_triggered width height ver sc (11001 # 10000) Hh Hw Hrot).
      * eapply Qlt_le_trans; [exact threshold_wide|]. vm_compute. discriminate.
      * apply (ratio_at_least 11001 10000); lia.
    + intros Hnarrow. split; [rewrite spec_rotation_iff by exact Hhw; lia|].
      rewrite E. f_equal.
      apply (rotation_not_triggered width height ver sc _ Hh Hw Hrot threshold_narrow).
      * vm_compute. discriminate.
      * apply (ratio_at_most 1099999999999 1000000000000); lia.
  - intros k Hk. split; [|apply boundary_quiet, Hk].
    rewrite spec_rotation_iff by lia. lia.
Qed.

Lemma C2_rotation_threshold_witness :
  should_rotate_for_a6 11001 10000 = Ok true /\
  should_rotate_for_a6 10999 10000 = Ok false /\
  should_rotate_for_a6 11 10 = Ok false.
Proof.
  destruct C2_rotation_threshold as [Hall Hquiet].
  destruct (Hall 11001 10000 ltac:(lia) ltac:(vm_compute; reflexivity))
    as (_ & _ & _ & _ & _ & _ & _ & Hyes & _).
  destruct (Hall 10999 10000 ltac:(lia) ltac:(vm_compute; reflexivity))
    as (_ & _ & _ & _ & _ & _ & _ & _ & Hno).
  split; [apply Hyes; lia|]. split; [apply Hno; lia|].
  apply (Hquiet 1). lia.
Defined.

(** C2 as stated fails: 33253 by 30230 is exactly ten percent wider than
    high, the exact rule does not rotate it, and the code does. *)
Lemma C2_counterexample :
  10 * 33253 = 11 * 30230 /\
  (exact_fit 30230 33253 == exact_fit 33253 30230 * (11 # 10))%Q /\
  ~ spec_rotation 33253 30230 /\
  should_rotate_for_a6 33253 30230 = Ok true.
Proof.
  split; [reflexivity|]. split; [vm_compute; reflexivity|]. split.
  - rewrite spec_rotation_iff by lia. lia.
  - vm_compute. reflexivity.
Qed.

(** C3. A portrait or square input is never rotated. *)
Theorem C3_portrait_never_rotates (width height : Z) :
  width <= height -> should_rotate_for_a6 width height = Ok false.
Proof.
  intros Hle. unfold should_rotate_for_a6.
  destruct (Z.ltb_spec height width); [lia | reflexivity].
Qed.

Lemma C3_portrait_never_rotates_witness :
  should_rotate_for_a6 3000 4000 = Ok false /\ should_rotate_for_a6 0 0 = Ok false.
Proof.
  split.
  - apply (C3_portrait_never_rotates 3000 4000). lia.
  - apply (C3_portrait_never_rotates 0 0). lia.
Defined.

End RotationClaims.

(** ** File names *)

Module FileNameFacts.
Import StrptimeFacts.

Lemma lower_append (a b : string) : lower (a +:+ b) = lower a +:+ lower b.
Proof.
  induction a as [|c a IH]; [reflexivity|].
  rewrite append_cons. cbn [lower]. rewrite IH, append_cons. reflexivity.
Qed.

Lemma length_append (a b : string) :
  String.length (a +:+ b) = (String.length a + String.length b)%nat.
Proof.
  induction a as [|c a IH]; [reflexivity|].
  rewrite append_cons. cbn [String.length]. rewrite IH. reflexivity.
Qed.

Lemma substring_all (b : string) : String.substring 0 (String.length b) b = b.
Proof. induction b as [|c b IH]; [reflexivity|]. cbn. rewrite IH. reflexivity. Qed.

Lemma substring_append (a b : string) :
  String.substring (String.length a) (String.length b) (a +:+ b) = b.
Proof.
  induction a as [|c a IH]; [apply substring_all|].
  rewrite append_cons. cbn [String.length String.substring]. exact IH.
Qed.

Lemma endswith_append (a b : string) : endswith (a +:+ b) b = true.
Proof.
  unfold endswith. rewrite length_append.
  replace (String.length a + String.length b - String.length b)%nat
    with (String.length a) by lia.
  rewrite substring_append, String.eqb_refl, andb_true_r.
  apply Nat.leb_le. lia.
Qed.

(** A path that ends in [.nef] or [.raw] takes the raw branch. *)
Lemma is_raw_suffix (stem : string) :
  is_raw (stem +:+ ".nef") = true /\ is_raw (stem +:+ ".raw") = true.
Proof.
  unfold is_raw. rewrite !lower_append.
  change (lower ".nef") with ".nef". change (lower ".raw") with ".raw".
  rewrite !endswith_append. split; [reflexivity | apply orb_true_r].
Qed.

End FileNameFacts.

(** * The claims on metadata and composition *)

Section ComposerClaims.
Context `{Pillow}.
Import MetadataFacts StrptimeFacts.

Lemma metadata_of_table (image_path : string) (img : image)
    (exif_dict : gmap Z exif_value) :
  Image_open image_path = Ok img -> getexif img = Ok (Some exif_dict) ->
  metadata image_path
  = (reformat <$> exif_dict !! 36867, exif_dict !! 34853 ≫= extract_gps_location).
Proof.
  intros Ho Hg. unfold metadata, exif_of. rewrite Ho, Hg. apply scan_exif_lookup.
Qed.

Lemma reformat_timestamp (t : Strptime.datetime) :
  Strptime.valid t = true ->
  reformat (EStr (Strptime.exif_timestamp t)) = EStr (Strptime.strftime t).
Proof.
  intros Hv. unfold reformat, strptime_value.
  rewrite (strptime_exif_timestamp t Hv). reflexivity.
Qed.

(** The date text for a timestamp in the form of the specification. *)
Lemma reformat_spec_timestamp (Y M D h m s : Z) :
  SpecDate.calendar Y M D h m s ->
  reformat (EStr (SpecDate.timestamp Y M D h m s))
  = EStr (SpecDate.Mon M +:+ " " +:+ SpecDate.two D +:+ ", " +:+ SpecDate.year Y).
Proof.
  intros Hc. rewrite (SpecDateFacts.timestamp_exif _ _ _ _ _ _ Hc).
  rewrite (reformat_timestamp _ (SpecDateFacts.calendar_valid _ _ _ _ _ _ Hc)).
  rewrite (SpecDateFacts.strftime_date _ _ _ _ _ _ Hc). reflexivity.
Qed.

(** C4 (as amended). When the table has the ['DateTimeOriginal'] tag
    (36867) the extraction returns a date text. For every date of the
    calendar and time of the day written [YYYY:MM:DD HH:MM:SS] it is the
    English month abbreviation, the day on two digits and the year without
    leading zeros: [Mon DD, YYYY] for the years from 1000 on, so that
    ["2024:03:15 10:30:00"] gives ["Mar 15, 2024"], and a shorter year
    below. A value that [strptime] rejects is returned as it is, and is
    the date line of the caption unless it is empty. *)
Theorem C4_timestamp_reformatted (image_path : string) (w : world) (img : image)
    (exif_dict : gmap Z exif_value) (value : exif_value) :
  Image_open image_path = Ok img -> getexif img = Ok (Some exif_dict) ->
  exif_dict !! 36867 = Some value ->
  TAGS !! 36867 = Some "DateTimeOriginal" /\
  exists datetime_str location_str msgs,
    extract_exif_data image_path w
    = (Ok (Some datetime_str, location_str),
       World (canvas w) (files w) (stdout w ++ msgs)) /\
    (forall Y M D h m s : Z,
       SpecDate.calendar Y M D h m s ->
       value = EStr (SpecDate.timestamp Y M D h m s) ->
       datetime_str
       = EStr (SpecDate.Mon M +:+ " " +:+ SpecDate.two D +:+ ", " +:+ SpecDate.year Y) /\
       (1000 <= Y -> datetime_str = EStr (SpecDate.date Y M D))) /\
    (value = EStr "2024:03:15 10:30:00" -> datetime_str = EStr "Mar 15, 2024") /\
    (forall e, strptime_value value = Raise e ->
       datetime_str = value /\
       (truthy value = true -> caption_date (Some datetime_str) = value)).
Proof.
  intros Ho Hg Hv. split; [reflexivity|].
  destruct (extract_exif_data_spec image_path w) as (msgs & E & _).
  rewrite (metadata_of_table _ _ _ Ho Hg), Hv in E. cbn [fmap option_fmap option_map] in E.
  exists (reformat value), (exif_dict !! 34853 ≫= extract_gps_location), msgs.
  split; [exact E|]. split; [|split].
  - intros Y M D h m s Hc ->. rewrite (reformat_spec_timestamp _ _ _ _ _ _ Hc).
    split; [reflexivity|]. intros HY. unfold SpecDate.date.
    rewrite (SpecDateFacts.year_four Y HY). reflexivity.
  - intros ->. vm_compute. reflexivity.
  - intros e He. unfold reformat. rewrite He. split; [reflexivity|].
    intros Ht. unfold caption_date, or_default. rewrite Ht. reflexivity.
Qed.

(** C5. The extraction never raises. When the table lacks the
    ['DateTimeOriginal'] tag the caption date is ["2024.01.01"]; when it
    lacks the ['GPSInfo'] tag (34853) the caption location is ["SHENZHEN"];
    both hold as well when the file has no table or does not open. *)
Theorem C5_metadata_fallbacks (image_path : string) (w : world) :
  exists datetime_str location_str msgs,
    extract_exif_data image_path w
    = (Ok (datetime_str, location_str),
       World (canvas w) (files w) (stdout w ++ msgs)) /\
    (forall img exif_dict,
       Image_open image_path = Ok img -> getexif img = Ok (Some exif_dict) ->
       (exif_dict !! 36867 = None -> caption_date datetime_str = EStr "2024.01.01") /\
       (exif_dict !! 34853 = None ->
        caption_location location_str = EStr "SHENZHEN")) /\
    (forall e, Image_open image_path = Raise e ->
       caption_date datetime_str = EStr "2024.01.01" /\
       caption_location location_str = EStr "SHENZHEN") /\
    (forall img, Image_open image_path = Ok img ->
       getexif img = Ok None \/ (exists e, getexif img = Raise e) ->
       caption_date datetime_str = EStr "2024.01.01" /\
       caption_location location_str = EStr "SHENZHEN").
Proof.
  destruct (extract_exif_data_spec image_path w) as (msgs & E & _).
  exists (metadata image_path).1, (metadata image_path).2, msgs.
  split; [rewrite E; destruct (metadata image_path); reflexivity|].
  split; [|split].
  - intros img exif_dict Ho Hg. rewrite (metadata_of_table _ _ _ Ho Hg). cbn [fst snd].
    split; intros ->; reflexivity.
  - intros e Ho. unfold metadata, exif_of. rewrite Ho. split; reflexivity.
  - intros img Ho Hg. unfold metadata, exif_of. rewrite Ho.
    destruct Hg as [->|[e ->]]; split; reflexivity.
Qed.

(** C6. The content is pasted at the horizontal offset
    floor((canvasWidth - contentWidth) / 2) and the vertical offset 0; the
    horizontal offset is non-negative whenever the content is no wider
    than the canvas, which holds for every content width the layout
    produces from positive sizes. *)
Theorem C6_content_centered :
  (forall content_width : Z,
     2 * x_offset content_width <= A6_WIDTH - content_width
       < 2 * x_offset content_width + 2 /\
     y_offset = 0 /\
     (content_width <= A6_WIDTH -> 0 <= x_offset content_width)) /\
  (forall width height content_width content_height : Z,
     0 < width -> 0 < height ->
     calculate_dimensions width height = Ok (content_width, content_height) ->
     0 <= x_offset content_width) /\
  (forall (image_path output_path : string) (w : world) (img resized : image)
          (turn : bool) (content_width content_height : Z),
     is_raw image_path = false -> Image_open image_path = Ok img ->
     prepare img = Ok (resized, turn, content_width, content_height) ->
     exists rest,
       canvas (create_postcard image_path output_path w).2
       = Paste resized (x_offset content_width, y_offset) :: rest).
Proof.
  assert (Hoff : forall cw, 2 * x_offset cw <= A6_WIDTH - cw < 2 * x_offset cw + 2).
  { intros cw. unfold x_offset.
    pose proof (Z.div_mod (A6_WIDTH - cw) 2 ltac:(lia)).
    pose proof (Z.mod_pos_bound (A6_WIDTH - cw) 2 ltac:(lia)). lia. }
  split; [|split].
  - intros cw. split; [apply Hoff|]. split; [reflexivity|].
    intros Hle. specialize (Hoff cw). unfold A6_WIDTH in *. lia.
  - intros width height cw ch Hw Hh E.
    destruct (calculate_dimensions_fit _ _ _ _ Hw Hh E) as (s & pw & ph & Hfit & -> & ->).
    destruct (LayoutFacts.fit_bounds _ _ _ _ _ Hw Hh Hfit) as (Hbw & _ & _).
    specialize (Hoff (Binary64.to_int pw)). unfold A6_WIDTH in *. lia.
  - intros image_path output_path w img resized turn cw ch Hraw Ho Hp.
    rewrite (create_postcard_composed _ _ _ _ _ _ _ _ Hraw Ho Hp).
    destruct (caption ch 314 _ _) as [lines failure]. cbv zeta.
    destruct (save_error _ output_path); eexists; reflexivity.
Qed.

(** C8. When the source does not decode, [create_postcard] returns
    [False], prints the failure, and leaves the output folder as it was:
    this holds when [Image.open] raises, for every raw file, and when the
    pixel data fails to load while rotating or resizing. The batch then
    goes on with the next file and the count is unchanged; no file at all
    stops the loop. *)
Theorem C8_decode_failure (image_path output_path : string) (w : world) :
  (forall e, is_raw image_path = false -> Image_open image_path = Raise e ->
     create_postcard image_path output_path w
     = (Ok false, World (canvas w) (files w) (stdout w ++ [Failed image_path e]))) /\
  (is_raw image_path = true ->
     create_postcard image_path output_path w
     = (Ok false,
        World (canvas w) (files w)
              (stdout w ++ [RawReadFailed image_path (NameError "rawpy");
                            CannotRead image_path]))) /\
  (forall img e, is_raw image_path = false -> Image_open image_path = Ok img ->
     prepare img = Raise e ->
     exists notes,
       create_postcard image_path output_path w
       = (Ok false,
          World (canvas w) (files w) (stdout w ++ notes ++ [Failed image_path e]))) /\
  (forall (input_folder output_folder filename : string) (rest : list string)
          (n : Z) (e : exn),
     is_supported filename = true ->
     image_path = path_join input_folder filename ->
     is_raw image_path = false -> Image_open image_path = Raise e ->
     process_files input_folder output_folder (filename :: rest) n w
     = process_files input_folder output_folder rest n
         (World (canvas w) (files w)
                (stdout w ++ [Processing filename; Failed image_path e]))) /\
  (forall (input_folder output_folder : string) (filenames : list string) (n : Z),
     exists n' w',
       process_files input_folder output_folder filenames n w = (Ok n', w')).
Proof.
  split; [|split; [|split; [|split]]].
  - intros e Hraw Ho. exact (create_postcard_open_failure _ _ _ e Hraw Ho).
  - intros Hraw. exact (create_postcard_raw _ _ _ Hraw).
  - intros img e Hraw Ho Hp.
    exact (create_postcard_unprepared _ output_path w img e Hraw Ho Hp).
  - intros input_folder output_folder filename rest n e Hs -> Hraw Ho.
    apply process_files_cons.
    rewrite (process_file_supported _ _ _ n w
               (say w ([Processing filename] ++ [Failed (path_join input_folder filename) e]))
               false Hs).
    + reflexivity.
    + unfold input_path_of.
      rewrite (create_postcard_open_failure _ _ _ e Hraw Ho), say_say. reflexivity.
  - intros input_folder output_folder filenames n. apply process_files_total.
Qed.

(** C9 (as amended). When the text step fails, because no font loads or
    because drawing a line raises, the failure is caught inside
    [add_text_info] and printed; the lines not yet drawn are omitted, a
    date line already drawn stays; the canvas is still handed to the
    encoder and, when encoding succeeds, [create_postcard] returns [True]
    with the file written. *)
Theorem C9_text_failure_contained (image_path output_path : string) (w : world)
    (img resized : image) (turn : bool) (new_width new_height : Z)
    (lines : list (draw_op image font)) (e : exn) :
  is_raw image_path = false -> Image_open image_path = Ok img ->
  prepare img = Ok (resized, turn, new_width, new_height) ->
  caption new_height 314 (metadata image_path).1 (metadata image_path).2
  = (lines, Some e) ->
  (lines = [] \/
   exists f, font_choice = Ok f /\
             lines = [date_line new_height 314 (metadata image_path).1 f]) /\
  add_text_info new_height 314 (metadata image_path).1 (metadata image_path).2 w
  = (Ok (), World (canvas w ++ lines) (files w) (stdout w ++ [TextFailed e])) /\
  let cv := base_canvas resized new_width new_height ++ lines in
  (save_error cv output_path = None ->
   create_postcard image_path output_path w
   = (Ok true,
      World cv (<[output_path := Encoded cv]> (files w))
            (stdout w ++ rotation_note turn ++ [TextFailed e; Done output_path]))).
Proof.
  intros Hraw Ho Hp Hc. split; [|split].
  - unfold caption in Hc. destruct font_choice as [f|e0].
    + destruct (text_error f _); [injection Hc as <- _; left; reflexivity|].
      destruct (text_error f _); [|discriminate].
      injection Hc as <- _. right. exists f. split; reflexivity.
    + injection Hc as <- _. left. reflexivity.
  - rewrite add_text_info_spec, Hc. reflexivity.
  - cbv zeta. intros Hs.
    rewrite (create_postcard_composed _ _ _ _ _ _ _ _ Hraw Ho Hp), Hc.
    cbv zeta. rewrite Hs. cbn [report]. rewrite <- (app_assoc (rotation_note turn)).
    reflexivity.
Qed.

(** C10. [read_raw_file] returns [None] for every path: the name [rawpy]
    is not bound, the [NameError] is caught and printed. So for every path
    ending in [.nef] or [.raw], in any letter case, [create_postcard]
    returns [False] and writes nothing. *)
Theorem C10_raw_files_never_read :
  (forall (file_path : string) (w : world),
     read_raw_file file_path w
     = (Ok None,
        World (canvas w) (files w)
              (stdout w ++ [RawReadFailed file_path (NameError "rawpy")]))) /\
  (forall stem : string,
     is_raw (stem +:+ ".nef") = true /\ is_raw (stem +:+ ".raw") = true) /\
  (forall (image_path output_path : string) (w : world),
     is_raw image_path = true ->
     create_postcard image_path output_path w
     = (Ok false,
        World (canvas w) (files w)
              (stdout w ++ [RawReadFailed image_path (NameError "rawpy");
                            CannotRead image_path]))).
Proof.
  split; [|split].
  - intros file_path w. exact (read_raw_file_none file_path w).
  - exact FileNameFacts.is_raw_suffix.
  - intros image_path output_path w Hraw. exact (create_postcard_raw _ _ _ Hraw).
Qed.

End ComposerClaims.

(** * The claims in the studio

    Each statement above with a premise is run here on a concrete input. *)

Lemma C4_timestamp_reformatted_witness :
  exists location_str msgs,
    @extract_exif_data (Studio.pillow true) "in/photo.jpg" (Studio.blank _)
    = (Ok (Some (EStr "Mar 15, 2024"), location_str),
       @World (Studio.pillow true) [] ∅ msgs).
Proof.
  destruct (@C4_timestamp_reformatted (Studio.pillow true) "in/photo.jpg"
              (Studio.blank _) (4000, 3000) Studio.photo_exif
              (EStr "2024:03:15 10:30:00")
              ltac:(reflexivity) ltac:(reflexivity) ltac:(vm_compute; reflexivity))
    as (_ & d & l & msgs & E & Hform & _ & _).
  destruct (Hform 2024 3 15 10 30 0 ltac:(vm_compute; intuition discriminate) eq_refl)
    as [_ Hd].
  exists l, msgs. rewrite E, (Hd ltac:(lia)). reflexivity.
Defined.

(** C4 as stated fails: the first day of the year 999, written
    [0999:01:01 00:00:00], is a timestamp in the form of the claim, and its
    date text is ["Jan 01, 999"], not the ["Jan 01, 0999"] of the form
    [Mon DD, YYYY]. *)
Lemma C4_counterexample :
  SpecDate.calendar 999 1 1 0 0 0 /\
  SpecDate.timestamp 999 1 1 0 0 0 = "0999:01:01 00:00:00" /\
  SpecDate.date 999 1 1 = "Jan 01, 0999" /\
  reformat (EStr "0999:01:01 00:00:00") = EStr "Jan 01, 999" /\
  scan_exif {[ 36867 := EStr "0999:01:01 00:00:00" ]}
  = (Some (EStr "Jan 01, 999"), None).
Proof.
  split; [vm_compute; intuition discriminate|].
  repeat split; vm_compute; reflexivity.
Qed.

Lemma C5_metadata_fallbacks_witness :
  exists datetime_str location_str msgs,
    @extract_exif_data (Studio.pillow true) "in/scan.png" (Studio.blank _)
    = (Ok (datetime_str, location_str), @World (Studio.pillow true) [] ∅ msgs) /\
    caption_date datetime_str = EStr "2024.01.01" /\
    caption_location location_str = EStr "SHENZHEN".
Proof.
  destruct (@C5_metadata_fallbacks (Studio.pillow true) "in/scan.png" (Studio.blank _))
    as (d & l & msgs & E & _ & _ & Hnone).
  exists d, l, msgs. split; [exact E|].
  apply (Hnone (600, 800)); [reflexivity | left; reflexivity].
Defined.

Lemma C6_content_centered_witness :
  0 <= x_offset 1074 /\
  exists rest,
    canvas (@create_postcard (Studio.pillow true) "in/photo.jpg"
              "out/photo_postcard.jpg" (Studio.blank _)).2
    = Paste (1074, 1433) (x_offset 1074, y_offset) :: rest.
Proof.
  destruct (@C6_content_centered (Studio.pillow true)) as (Hoff & _ & Hpaste).
  split.
  - apply (Hoff 1074). vm_compute. discriminate.
  - apply (Hpaste "in/photo.jpg" "out/photo_postcard.jpg" (Studio.blank _)
             (4000, 3000) (1074, 1433) true 1074 1433);
      [reflexivity | reflexivity | vm_compute; reflexivity].
Defined.

Lemma C8_decode_failure_witness :
  @create_postcard (Studio.pillow true) "in/broken.jpg" "out/broken_postcard.jpg"
    (Studio.blank _)
  = (Ok false,
     @World (Studio.pillow true) [] ∅
       [Failed "in/broken.jpg" (LibraryError "UnidentifiedImageError")]).
Proof.
  destruct (@C8_decode_failure (Studio.pillow true) "in/broken.jpg"
              "out/broken_postcard.jpg" (Studio.blank _)) as (Hopen & _).
  apply (Hopen (LibraryError "UnidentifiedImageError")); reflexivity.
Defined.

Lemma C9_text_failure_contained_witness :
  (@create_postcard (Studio.pillow false) "in/photo.jpg" "out/photo_postcard.jpg"
     (Studio.blank _)).1 = Ok true.
Proof.
  destruct (@C9_text_failure_contained (Studio.pillow false) "in/photo.jpg"
              "out/photo_postcard.jpg" (Studio.blank _) (4000, 3000) (1074, 1433)
              true 1074 1433
              [Text (40, 1511) (EStr "Mar 15, 2024") TEXT_COLOR "default"]
              (LibraryError "UnicodeEncodeError")
              ltac:(reflexivity) ltac:(reflexivity)
              ltac:(vm_compute; reflexivity) ltac:(vm_compute; reflexivity))
    as (_ & _ & Hsaved).
  rewrite (Hsaved eq_refl). reflexivity.
Defined.

(** C9 as stated fails: without a scalable font the location line of a
    geotagged photograph cannot be drawn; the text step fails, the file is
    reported as done, and its caption is not omitted: the date line is on
    the encoded canvas. *)
Lemma C9_counterexample :
  let run := @create_postcard (Studio.pillow false) "in/photo.jpg"
               "out/photo_postcard.jpg" (Studio.blank _) in
  run.1 = Ok true /\
  stdout run.2 = [Rotated; TextFailed (LibraryError "UnicodeEncodeError");
                  Done "out/photo_postcard.jpg"] /\
  files run.2 !! "out/photo_postcard.jpg"
  = Some (Encoded [Paste (1074, 1433) (83, 0);
                   Rectangle (0, 1433, 1240, 1748) WHITE_BAR_COLOR;
                   Text (40, 1511) (EStr "Mar 15, 2024") TEXT_COLOR "default"]).
Proof. vm_compute. repeat split; reflexivity. Qed.

Lemma C10_raw_files_never_read_witness :
  @create_postcard (Studio.pillow true) "in/shot.NEF" "out/shot_postcard.jpg"
    (Studio.blank _)
  = (Ok false,
     @World (Studio.pillow true) [] ∅
       [RawReadFailed "in/shot.NEF" (NameError "rawpy"); CannotRead "in/shot.NEF"]).
Proof.
  destruct (@C10_raw_files_never_read (Studio.pillow true)) as (_ & _ & Hraw).
  apply (Hraw "in/shot.NEF" "out/shot_postcard.jpg" (Studio.blank _)).
  vm_compute. reflexivity.
Defined.

(** The whole batch in the studio: one file fails to decode, one is
    composed, one is skipped, one is raw. *)
Example batch_in_the_studio :
  let run := @process_folder (Studio.pillow true) "in" "out" (Studio.blank _) in
  run.1 = Ok () /\
  stdout run.2
  = [Processing "broken.jpg";
     Failed "in/broken.jpg" (LibraryError "UnidentifiedImageError");
     Processing "photo.jpg"; Rotated; Done "out/photo_postcard.jpg";
     Processing "shot.NEF"; RawReadFailed "in/shot.NEF" (NameError "rawpy");
     CannotRead "in/shot.NEF"; Summary 1] /\
  files run.2 !! "out/broken_postcard.jpg" = None /\
  files run.2 !! "out/shot_postcard.jpg" = None.
Proof. vm_compute. repeat split; reflexivity. Qed.

(** * Further properties

    What the code shows beyond the claims: the edge cases of the planner,
    the success path of the composer, and the log and the files of a
    batch. *)

(** ** Rounding from below *)

Module Binary64More.
Import Binary64 Binary64Facts.

Lemma rne_ge_int (k : Z) (y : Q) : (inject_Z k <= y)%Q -> k <= rne y.
Proof.
  intros Hk. apply Qfloor_resp_le in Hk. rewrite Qfloor_Z in Hk.
  unfold rne. destruct (Qcompare _ _); [destruct (Z.even _)| |]; lia.
Qed.

Lemma pow2_int (k : Z) : 0 <= k -> (inject_Z (2 ^ k) == 2 ^ k)%Q.
Proof. intros Hk. apply Zpower_Qpower, Hk. Qed.

Lemma pow2_ge_1 (k : Z) : 0 <= k -> (1 <= 2 ^ k)%Q.
Proof.
  intros Hk. rewrite <- pow2_int by exact Hk. rewrite <- (Zle_Qle 1).
  pose proof (Z.pow_pos_nonneg 2 k ltac:(lia) Hk). lia.
Qed.

Lemma ilog2_nonneg (n d : positive) : (1 <= Zpos n # d)%Q -> 0 <= ilog2 n d.
Proof.
  intros Hx. unfold ilog2.
  assert (Hnd : Zpos d <= Zpos n) by (unfold Qle in Hx; cbn in Hx; lia).
  pose proof (Z.log2_le_mono _ _ Hnd) as Hl.
  set (l := Z.log2 (Zpos n) - Z.log2 (Zpos d)) in *.
  destruct (Qle_bool (2 ^ l) (Zpos n # d)) eqn:E; [lia|].
  destruct (Z.eq_dec l 0) as [E0|]; [|lia].
  rewrite E0 in E. change (2 ^ 0)%Q with 1%Q in E.
  apply Qle_bool_iff in Hx. congruence.
Qed.

(** Rounding does not pass below an integer of at most 53 bits. *)
Lemma round_pos_ge_int (n d : positive) (z : Z) :
  0 < z <= 2 ^ 53 -> (inject_Z z <= Zpos n # d)%Q -> (inject_Z z <= round_pos n d)%Q.
Proof.
  intros [Hz Hb] Hx.
  assert (H1 : (1 <= inject_Z z)%Q) by (rewrite <- (Zle_Qle 1); lia).
  pose proof (ilog2_nonneg n d ltac:(lra)) as Hl.
  pose proof (ilog2_le n d) as Hlow.
  unfold round_pos, ulp_exp. rewrite Z.max_l by lia.
  set (l := ilog2 n d) in *. set (x := Zpos n # d) in *.
  pose proof (pow2_pos (l - 52)) as HP. pose proof (pow2_pos (- (l - 52))) as HI.
  assert (Hinv : (2 ^ (- (l - 52)) * 2 ^ (l - 52) == 1)%Q).
  { rewrite <- pow2_add. replace (- (l - 52) + (l - 52)) with 0 by lia. reflexivity. }
  destruct (Z_le_gt_dec (l - 52) 0) as [He|He].
  - assert (Hk : (inject_Z (z * 2 ^ (- (l - 52))) == inject_Z z * 2 ^ (- (l - 52)))%Q).
    { rewrite inject_Z_mult, pow2_int by lia. reflexivity. }
    assert (Hle : (inject_Z (z * 2 ^ (- (l - 52))) <= x * 2 ^ (- (l - 52)))%Q).
    { rewrite Hk. apply Qmult_le_compat_r; lra. }
    apply rne_ge_int in Hle. rewrite Zle_Qle in Hle. rewrite Hk in Hle.
    set (m := inject_Z (rne (x * 2 ^ (- (l - 52))))) in *.
    set (P := (2 ^ (l - 52))%Q) in *. set (I := (2 ^ (- (l - 52)))%Q) in *.
    assert (Hm : (inject_Z z * I * P <= m * P)%Q) by (apply Qmult_le_compat_r; lra).
    assert (Hzz : (inject_Z z * I * P == inject_Z z)%Q) by (rewrite <- Qmult_assoc, Hinv; ring).
    lra.
  - assert (H52 : (inject_Z (2 ^ 52) == 2 ^ l * 2 ^ (- (l - 52)))%Q).
    { rewrite <- pow2_add, pow2_int by lia. replace (l + - (l - 52)) with 52 by lia.
      reflexivity. }
    assert (Hle : (inject_Z (2 ^ 52) <= x * 2 ^ (- (l - 52)))%Q).
    { rewrite H52. apply Qmult_le_compat_r; lra. }
    apply rne_ge_int in Hle. rewrite Zle_Qle in Hle.
    assert (Hz53 : (inject_Z z <= inject_Z (2 ^ 53))%Q) by (rewrite <- Zle_Qle; exact Hb).
    assert (Hp : (2 <= 2 ^ (l - 52))%Q).
    { replace (l - 52) with (1 + (l - 53)) by lia. rewrite pow2_add.
      pose proof (pow2_ge_1 (l - 53) ltac:(lia)). change (2 ^ 1)%Q with 2%Q. lra. }
    set (m := inject_Z (rne (x * 2 ^ (- (l - 52))))) in *.
    set (P := (2 ^ (l - 52))%Q) in *.
    change (inject_Z (2 ^ 52)) with 4503599627370496%Q in Hle.
    change (inject_Z (2 ^ 53)) with 9007199254740992%Q in Hz53.
    assert (Hm : (4503599627370496 * 2 <= m * P)%Q) by (apply LayoutFacts.mul_le; lra).
    lra.
Qed.

Lemma round64_ge_int (x : Q) (z : Z) :
  0 < z <= 2 ^ 53 -> (inject_Z z <= x)%Q -> (inject_Z z <= round64 x)%Q.
Proof.
  intros Hz Hx. destruct x as [[|n|n] d]; unfold round64; cbn [Qnum Qden].
  - unfold Qle in Hx. cbn in Hx. lia.
  - apply round_pos_ge_int; assumption.
  - unfold Qle in Hx. cbn in Hx. lia.
Qed.

End Binary64More.

(** ** The planner: order, gain and zero sides *)

Module LayoutMore.
Import Binary64 Binary64Facts Binary64More LayoutFacts.

Lemma to_int_mono (x y : Q) : (0 <= x)%Q -> (x <= y)%Q -> to_int x <= to_int y.
Proof.
  intros Hx Hxy. rewrite !to_int_floor by lra. apply Qfloor_resp_le, Hxy.
Qed.

Lemma down2_fine : (1 - (1 # 100000) <= (1 - u) * (1 - u))%Q.
Proof. vm_compute. discriminate. Qed.

Lemma four_u_small : (4 * u * inject_Z (2 ^ 50) <= 1 # 2)%Q.
Proof. vm_compute. discriminate. Qed.

(** The longer side gets the larger product. *)
Lemma product_order (a b : Z) (s pa pb : Q) :
  0 < b < a -> b <= 2 ^ 50 -> (0 < s)%Q ->
  (inject_Z a * s * ((1 - u) * (1 - u)) <= pa)%Q ->
  (pb <= inject_Z b * s * ((1 + u) * (1 + u)))%Q ->
  (pb <= pa)%Q.
Proof.
  intros [Hb Hba] Hm Hs Hpa Hpb.
  pose proof (inject_Z_pos b Hb) as HB.
  assert (HA : (inject_Z b + 1 <= inject_Z a)%Q).
  { change 1%Q with (inject_Z 1). rewrite <- inject_Z_plus, <- Zle_Qle. lia. }
  assert (HM : (inject_Z b <= inject_Z (2 ^ 50))%Q) by (rewrite <- Zle_Qle; exact Hm).
  pose proof u_bounds as [Hu0 Hu1]. pose proof down2 as Hd. pose proof four_u_small as Hk.
  set (A := inject_Z a) in *. set (B := inject_Z b) in *.
  set (M := inject_Z (2 ^ 50)) in *.
  assert (A2 : (s * (4 * u * B) <= s * (1 # 2))%Q).
  { apply mul_le_l; [lra|].
    assert (4 * u * B <= 4 * u * M)%Q by (apply mul_le_l; lra). lra. }
  assert (A3 : (s * (1 # 2) <= s * ((1 - u) * (1 - u)))%Q) by (apply mul_le_l; lra).
  assert (A4 : ((B + 1) * (s * ((1 - u) * (1 - u))) <= A * (s * ((1 - u) * (1 - u))))%Q).
  { apply Qmult_le_compat_r; [lra|]. apply Qmult_le_0_compat; lra. }
  lra.
Qed.

Lemma calculate_dimensions_square (w a b : Z) :
  calculate_dimensions w w = Ok (a, b) -> a = b.
Proof.
  unfold calculate_dimensions. destruct available_height as [ah|]; [|discriminate].
  cbn [mbind outcome_bind].
  destruct (int_truediv available_width w) as [r1|]; [|discriminate].
  cbn [mbind outcome_bind].
  destruct (int_truediv ah w) as [r2|]; [|discriminate].
  cbn [mbind outcome_bind].
  destruct (int_mul_float w (min r1 r2)) as [p|]; [|discriminate].
  cbn [mbind outcome_bind]. intros [= <- <-]. reflexivity.
Qed.

(** Neither side vanishes unless the source is more than 1239 times wider
    than high or more than 1432 times higher than wide. *)
Lemma fit_positive (w h : Z) (s pw ph : Q) :
  0 < w -> 0 < h -> fit w h s pw ph ->
  w <= 1239 * h -> h <= 1432 * w ->
  1 <= to_int pw /\ 1 <= to_int ph.
Proof.
  intros Hw Hh Hfit Hwide Hhigh.
  destruct (fit_nonneg w h s pw ph Hw Hh Hfit) as [Hpw0 Hph0].
  destruct Hfit as [Hs _ _ Hst [Hpl _] [Hql _]].
  pose proof (inject_Z_pos w Hw) as HW. pose proof (inject_Z_pos h Hh) as HH.
  assert (HWH : (inject_Z w <= 1239 * inject_Z h)%Q).
  { change 1239%Q with (inject_Z 1239). rewrite <- inject_Z_mult, <- Zle_Qle. exact Hwide. }
  assert (HHW : (inject_Z h <= 1432 * inject_Z w)%Q).
  { change 1432%Q with (inject_Z 1432). rewrite <- inject_Z_mult, <- Zle_Qle. exact Hhigh. }
  pose proof u_bounds as [Hu0 Hu1]. pose proof down2_fine as Hd.
  set (W := inject_Z w) in *. set (H := inject_Z h) in *.
  assert (B1 : (W * s <= 1239 * H * s)%Q) by (apply Qmult_le_compat_r; lra).
  assert (B2 : (H * s <= 1432 * W * s)%Q) by (apply Qmult_le_compat_r; lra).
  destruct Hst as [Ht|Ht].
  - apply (product_below pw (W * s) (1240 * (1 - (1 # 1000000)))) in Hpl; [|lra|lra].
    apply (product_below ph (H * s) (10007 # 10000)) in Hql; [|lra|lra].
    split; (apply to_int_ge; [assumption | change (inject_Z 1) with 1%Q; lra]).
  - apply (product_below ph (H * s) (1433 * (1 - (1 # 1000000)))) in Hql; [|lra|lra].
    apply (product_below pw (W * s) (10006 # 10000)) in Hpl; [|lra|lra].
    split; (apply to_int_ge; [assumption | change (inject_Z 1) with 1%Q; lra]).
Qed.

Lemma trigger_floor : (13639 # 10 <= 1240 * (1 - u) * (factor * (1 - u)))%Q.
Proof. vm_compute. discriminate. Qed.

(** A rotated image is more than 9.99 percent wider than high. *)
Lemma rotation_margin (w h : Z) (ver sc : Q) :
  0 < h -> 0 < w -> rotation w h ver sc -> ltb sc ver = true ->
  ((10999 # 10000) * inject_Z h <= inject_Z w)%Q.
Proof.
  intros Hh Hw [_ Hsl Hvh _] Hlt. apply ltb_lt in Hlt.
  pose proof (inject_Z_pos w Hw) as HW. pose proof (inject_Z_pos h Hh) as HH.
  pose proof u_bounds as [Hu0 Hu1]. pose proof trigger_floor as Hk.
  set (W := inject_Z w) in *. set (H := inject_Z h) in *.
  set (K := (1240 * (1 - u) * (factor * (1 - u)))%Q) in *.
  assert (P1 : (K * H <= sc * W * H)%Q) by (apply Qmult_le_compat_r; lra).
  assert (P2 : ((13639 # 10) * H <= K * H)%Q) by (apply Qmult_le_compat_r; lra).
  assert (P3 : (sc * H < ver * H)%Q) by (apply Qmult_lt_compat_r; lra).
  assert (P4 : (sc * H * W <= (124001 # 100) * W)%Q) by (apply Qmult_le_compat_r; lra).
  lra.
Qed.

(** What rotating gains: the two runs of [calculate_dimensions], on the
    image as it is and on the image turned. *)
Lemma rotation_gain (w h : Z) (s pw ph s' pw' ph' : Q) :
  0 < h -> 0 < w -> ((10999 # 10000) * inject_Z h <= inject_Z w)%Q ->
  fit w h s pw ph -> fit h w s' pw' ph' ->
  to_int pw <= 1240 /\ 1363 <= to_int ph' /\ to_int ph <= to_int pw'.
Proof.
  intros Hh Hw Hm Hfit Hfit'.
  destruct (fit_bounds w h s pw ph Hw Hh Hfit) as ([_ Ha] & _ & _).
  destruct (fit_nonneg w h s pw ph Hw Hh Hfit) as [Hpw0 Hph0].
  destruct (fit_nonneg h w s' pw' ph' Hh Hw Hfit') as [Hpw0' Hph0'].
  destruct Hfit as [Hs Hsw _ _ _ [_ Hqh]].
  destruct Hfit' as [Hs' _ _ Hst' [Hpl' _] [Hql' _]].
  pose proof (inject_Z_pos w Hw) as HW. pose proof (inject_Z_pos h Hh) as HH.
  pose proof u_bounds as [Hu0 Hu1]. pose proof down2_fine as Hd. pose proof up2 as Hup.
  set (W := inject_Z w) in *. set (H := inject_Z h) in *.
  split; [exact Ha|].
  assert (M1 : ((10999 # 10000) * H * s <= W * s)%Q) by (apply Qmult_le_compat_r; lra).
  assert (M2 : ((10999 # 10000) * H * s' <= W * s')%Q) by (apply Qmult_le_compat_r; lra).
  destruct Hst' as [Ht|Ht].
  - (* the turned image is limited by the canvas width *)
    apply (product_below ph' (W * s') (13638 # 10)) in Hql'; [|lra|lra].
    apply (product_below pw' (H * s') (12399 # 10)) in Hpl'; [|lra|lra].
    apply (product_above ph (H * s) (11275 # 10)) in Hqh; [|lra|lra].
    split.
    + apply to_int_ge; [assumption|]. change (inject_Z 1363) with 1363%Q. lra.
    + apply to_int_mono; [assumption|]. lra.
  - (* the turned image is limited by the available height *)
    apply (product_below ph' (W * s') (14329 # 10)) in Hql'; [|lra|lra].
    split.
    + apply to_int_ge; [assumption|]. change (inject_Z 1363) with 1363%Q. lra.
    + apply to_int_mono; [assumption|].
      assert (N1 : ((115 # 100) * s * W <= s' * W)%Q) by lra.
      apply mul_cancel_le in N1; [|lra].
      assert (N2 : (H * ((115 # 100) * s) <= H * s')%Q) by (apply mul_le_l; lra).
      assert (N3 : (0 <= H * s)%Q) by (apply Qmult_le_0_compat; lra).
      apply (product_below pw' (H * s') ((115 # 100) * (H * s))) in Hpl'; [|lra|lra].
      assert (N4 : ((H * s) * ((1 + u) * (1 + u)) <= (H * s) * (1 + (1 # 100000)))%Q)
        by (apply mul_le_l; lra).
      assert (N5 : ((H * s) * (1 - (1 # 100000)) <= (H * s) * ((1 - u) * (1 - u)))%Q)
        by (apply mul_le_l; lra).
      lra.
Qed.

(** What a run of [calculate_dimensions] computes, operation by
    operation. *)
Lemma calculate_dimensions_computes (w h w' h' : Z) :
  calculate_dimensions w h = Ok (w', h') ->
  let s := min (round64 (inject_Z 1240 / inject_Z w))
               (round64 (inject_Z 1433 / inject_Z h)) in
  w' = to_int (round64 (round64 (inject_Z w) * s)) /\
  h' = to_int (round64 (round64 (inject_Z h) * s)).
Proof.
  unfold calculate_dimensions. rewrite available_height_eq.
  cbn [mbind outcome_bind]. unfold int_truediv, available_width, A6_WIDTH.
  destruct (w =? 0); [discriminate|].
  destruct (to_float (inject_Z 1240 / inject_Z w)) as [r1|] eqn:E1; [|discriminate].
  apply to_float_inv in E1 as [-> _]. cbn [mbind outcome_bind].
  destruct (h =? 0); [discriminate|].
  destruct (to_float (inject_Z 1433 / inject_Z h)) as [r2|] eqn:E2; [|discriminate].
  apply to_float_inv in E2 as [-> _]. cbn [mbind outcome_bind].
  unfold int_mul_float, of_int, mul.
  destruct (to_float (inject_Z w)) as [fw|] eqn:Ew; [|discriminate].
  apply to_float_inv in Ew as [-> _]. cbn [mbind outcome_bind].
  destruct (to_float (round64 (inject_Z w) * _)) as [pw|] eqn:Epw; [|discriminate].
  apply to_float_inv in Epw as [-> _]. cbn [mbind outcome_bind].
  destruct (to_float (inject_Z h)) as [fh|] eqn:Eh; [|discriminate].
  apply to_float_inv in Eh as [-> _]. cbn [mbind outcome_bind].
  destruct (to_float (round64 (inject_Z h) * _)) as [ph|] eqn:Eph; [|discriminate].
  apply to_float_inv in Eph as [-> _]. cbn [mbind outcome_bind].
  intros [= <- <-]. split; reflexivity.
Qed.

(** A side of at most 53 bits scaled by a factor of at least one is not
    rounded below itself. *)
Lemma scaled_not_below (z : Z) (s : Q) :
  0 < z <= 2 ^ 53 -> (1 <= s)%Q -> z <= to_int (round64 (round64 (inject_Z z) * s)).
Proof.
  intros Hz Hs. pose proof (inject_Z_pos z ltac:(lia)) as HZ.
  pose proof (round64_ge_int (inject_Z z) z Hz ltac:(lra)) as Hf.
  assert (Hp : (inject_Z z <= round64 (inject_Z z) * s)%Q).
  { assert (inject_Z z * 1 <= round64 (inject_Z z) * s)%Q by (apply mul_le; lra). lra. }
  apply (round64_ge_int _ z Hz) in Hp.
  rewrite to_int_floor by lra. rewrite <- (Qfloor_Z z) at 1.
  apply Qfloor_resp_le, Hp.
Qed.

Lemma ratio_ge_1 (b z : Z) : 0 < z <= b -> (1 <= round64 (inject_Z b / inject_Z z))%Q.
Proof.
  intros [Hz Hb]. pose proof (inject_Z_pos z Hz) as HZ.
  apply (round64_ge_int _ 1); [lia|]. change (inject_Z 1) with 1%Q.
  apply Qle_shift_div_l; [lra|]. rewrite Qmult_1_l, <- Zle_Qle. exact Hb.
Qed.

(** *** Sizes with a zero side *)

Lemma calculate_dimensions_zero_width (h : Z) :
  calculate_dimensions 0 h = Raise ZeroDivisionError.
Proof. unfold calculate_dimensions. rewrite available_height_eq. reflexivity. Qed.

Lemma ratio_runs (w : Z) :
  0 < w < 2 ^ 1023 -> exists r, int_truediv A6_WIDTH w = Ok r.
Proof.
  intros Hw.
  destruct (int_truediv_run A6_WIDTH w _ ltac:(lia) ltac:(cbv; split; discriminate)
              (of_int_small w Hw)) as (-> & _).
  eexists. reflexivity.
Qed.

Lemma calculate_dimensions_zero_height (w : Z) :
  0 < w < 2 ^ 1023 -> calculate_dimensions w 0 = Raise ZeroDivisionError.
Proof.
  intros Hw. unfold calculate_dimensions. rewrite available_height_eq.
  cbn [mbind outcome_bind]. unfold available_width.
  destruct (ratio_runs w Hw) as [r ->]. reflexivity.
Qed.

Lemma should_rotate_zero_height (w : Z) :
  0 < w < 2 ^ 1023 -> should_rotate_for_a6 w 0 = Raise ZeroDivisionError.
Proof.
  intros Hw. unfold should_rotate_for_a6, fit_ratio.
  destruct (Z.ltb_spec 0 w) as [_|]; [|lia].
  destruct (ratio_runs w Hw) as [r ->]. rewrite area_eq. cbn [mbind outcome_bind].
  assert (E : float_div_int area 0 = Raise ZeroDivisionError) by (vm_compute; reflexivity).
  rewrite E. reflexivity.
Qed.

End LayoutMore.

(** ** File names: the filter of the batch *)

Module FileNameMore.
Import StrptimeFacts FileNameFacts.

Lemma length_lower (s : string) : String.length (lower s) = String.length s.
Proof. induction s as [|c s IH]; [reflexivity|]. cbn. rewrite IH. reflexivity. Qed.

Lemma lower_substring (n m : nat) (s : string) :
  lower (String.substring n m s) = String.substring n m (lower s).
Proof.
  revert n m. induction s as [|c s IH]; intros n m.
  - destruct n, m; reflexivity.
  - destruct n as [|n]; [destruct m as [|m]|]; cbn [String.substring lower].
    + reflexivity.
    + rewrite IH. reflexivity.
    + apply IH.
Qed.

(** A string is its first [n] characters followed by the rest. *)
Lemma substring_split (n : nat) (s : string) :
  (n <= String.length s)%nat ->
  s = String.substring 0 n s +:+ String.substring n (String.length s - n) s.
Proof.
  revert n. induction s as [|c s IH]; intros n Hn.
  - destruct n; [reflexivity | cbn in Hn; lia].
  - destruct n as [|n].
    + rewrite Nat.sub_0_r, substring_all. destruct (String c s); reflexivity.
    + cbn [String.length] in *. cbn [String.substring Nat.sub].
      rewrite append_cons. f_equal. apply IH. lia.
Qed.

(** [s.lower().endswith(ext)] sees a suffix of [s] whose lower-casing is
    [ext]. *)
Lemma endswith_lower (s ext : string) :
  endswith (lower s) ext = true ->
  exists stem tail, s = stem +:+ tail /\ lower tail = ext.
Proof.
  unfold endswith. rewrite length_lower. intros [Hlen Heq]%andb_true_iff.
  apply Nat.leb_le in Hlen. apply String.eqb_eq in Heq.
  exists (String.substring 0 (String.length s - String.length ext) s),
         (String.substring (String.length s - String.length ext) (String.length ext) s).
  split; [|rewrite lower_substring; exact Heq].
  rewrite (substring_split (String.length s - String.length ext) s) at 1 by lia.
  do 2 f_equal. lia.
Qed.

Lemma is_supported_suffix (stem tail : string) :
  lower tail ∈ supported_formats -> is_supported (stem +:+ tail) = true.
Proof.
  intros Hin. unfold is_supported. apply existsb_exists. exists (lower tail).
  split; [apply list_elem_of_In, Hin|]. rewrite lower_append. apply endswith_append.
Qed.

Lemma is_raw_supported (path : string) : is_raw path = true -> is_supported path = true.
Proof.
  unfold is_raw, is_supported, supported_formats. cbn [existsb].
  intros [-> | ->]%orb_true_iff; rewrite ?orb_true_r; reflexivity.
Qed.

End FileNameMore.

(** ** The composer and the batch: what a run leaves behind *)

Section ComposerMore.
Context `{Pillow}.

Ltac run :=
  cbv beta iota zeta delta
    [mbind mret M_bind M_ret lift try_except print Image_new draw
     canvas files stdout].

Lemma announced_app (a b : list message) : announced (a ++ b) = announced a ++ announced b.
Proof. apply flat_map_app. Qed.

Lemma reported_done_app (a b : list message) :
  reported_done (a ++ b) = reported_done a ++ reported_done b.
Proof. apply flat_map_app. Qed.

(** A failure of the rotation decision ends the file before anything is
    printed. *)
Lemma create_postcard_undecided (image_path output_path : string) (w : world)
    (img : image) (e : exn) :
  is_raw image_path = false -> Image_open image_path = Ok img ->
  should_rotate_for_a6 (size img).1 (size img).2 = Raise e ->
  create_postcard image_path output_path w = (Ok false, say w [Failed image_path e]).
Proof.
  intros Hraw Hopen Hturn. unfold create_postcard. rewrite Hraw. run.
  rewrite Hopen. run.
  destruct (extract_exif_data_spec image_path w) as (msgs & -> & Hm).
  rewrite (Hm Hraw), say_nil. clear msgs Hm.
  destruct (metadata image_path) as [datetime_str location_str]. run.
  destruct (size img) as [ow oh]. cbn [fst snd] in Hturn. rewrite Hturn. reflexivity.
Qed.

Lemma create_postcard_unsized (image_path output_path : string) (w : world)
    (img : image) (e : exn) :
  is_raw image_path = false -> Image_open image_path = Ok img ->
  should_rotate_for_a6 (size img).1 (size img).2 = Ok false ->
  calculate_dimensions (size img).1 (size img).2 = Raise e ->
  create_postcard image_path output_path w = (Ok false, say w [Failed image_path e]).
Proof.
  intros Hraw Hopen Hturn Hdims. unfold create_postcard. rewrite Hraw. run.
  rewrite Hopen. run.
  destruct (extract_exif_data_spec image_path w) as (msgs & -> & Hm).
  rewrite (Hm Hraw), say_nil. clear msgs Hm.
  destruct (metadata image_path) as [datetime_str location_str]. run.
  destruct (size img) as [ow oh] eqn:Hsize. cbn [fst snd] in Hturn, Hdims.
  rewrite Hturn. run. rewrite Hsize, Hdims. reflexivity.
Qed.

(** A failure before compositing: the only note is the one on rotation. *)
Lemma create_postcard_unprepared_note (image_path output_path : string) (w : world)
    (img : image) (e : exn) :
  is_raw image_path = false -> Image_open image_path = Ok img ->
  prepare img = Raise e ->
  exists turn : bool,
    create_postcard image_path output_path w
    = (Ok false, say w (rotation_note turn ++ [Failed image_path e])).
Proof.
  intros Hraw Hopen Hprep. unfold create_postcard. rewrite Hraw. run.
  rewrite Hopen. run.
  destruct (extract_exif_data_spec image_path w) as (msgs & -> & Hm).
  rewrite (Hm Hraw), say_nil. clear msgs Hm.
  destruct (metadata image_path) as [datetime_str location_str]. run.
  unfold prepare in Hprep. destruct (size img) as [ow oh]. cbn [fst snd] in Hprep.
  destruct (should_rotate_for_a6 ow oh) as [turn|e0].
  2:{ injection Hprep as ->. exists false. reflexivity. }
  cbn [mbind outcome_bind] in Hprep. run. destruct turn.
  - destruct (rotate img) as [img'|e0].
    2:{ injection Hprep as ->. exists false. reflexivity. }
    cbn [mbind outcome_bind] in Hprep. run.
    destruct (size img') as [cw ch]. cbn [fst snd] in Hprep.
    destruct (calculate_dimensions cw ch) as [[nw nh]|e0].
    2:{ injection Hprep as ->. exists true. unfold say. cbn.
        rewrite <- app_assoc. reflexivity. }
    cbn [mbind outcome_bind] in Hprep. run.
    destruct (resize img' (nw, nh)) as [resized|e0]; [discriminate|].
    injection Hprep as ->. exists true. unfold say. cbn.
    rewrite <- app_assoc. reflexivity.
  - cbn [mbind outcome_bind] in Hprep. run.
    destruct (size img) as [cw ch]. cbn [fst snd] in Hprep.
    destruct (calculate_dimensions cw ch) as [[nw nh]|e0].
    2:{ injection Hprep as ->. exists false. reflexivity. }
    cbn [mbind outcome_bind] in Hprep. run.
    destruct (resize img (nw, nh)) as [resized|e0]; [discriminate|].
    injection Hprep as ->. exists false. reflexivity.
Qed.

(** Every run of [create_postcard]: a verdict, some notes and one closing
    message; no file but the output is touched; [True] comes with the
    canvas encoded in full. *)
Lemma create_postcard_effect (image_path output_path : string) (w : world) :
  exists (ok : bool) (w' : world) (notes : list message) (last : message),
    create_postcard image_path output_path w = (Ok ok, w') /\
    stdout w' = stdout w ++ notes ++ [last] /\
    announced notes = [] /\ reported_done notes = [] /\
    (forall p, p <> output_path -> files w' !! p = files w !! p) /\
    (if ok
     then last = Done output_path /\
          files w' !! output_path = Some (Encoded (canvas w'))
     else (last = CannotRead image_path \/ exists e, last = Failed image_path e) /\
          (files w' = files w \/ files w' = <[output_path := Truncated]> (files w))).
Proof.
  destruct (is_raw image_path) eqn:Hraw.
  { rewrite (create_postcard_raw _ _ _ Hraw).
    eexists false, _, [_], _. split; [reflexivity|]. cbn.
    repeat split; auto. }
  destruct (Image_open image_path) as [img|e] eqn:Hopen.
  2:{ rewrite (create_postcard_open_failure _ _ _ e Hraw Hopen).
      eexists false, _, [], _. split; [reflexivity|]. cbn.
      repeat split; eauto. }
  destruct (prepare img) as [[[[resized turn] nw] nh]|e] eqn:Hprep.
  2:{ destruct (create_postcard_unprepared_note _ output_path w _ _ Hraw Hopen Hprep)
        as [turn ->].
      eexists false, _, (rotation_note turn), _. split; [reflexivity|]. cbn.
      split; [reflexivity|]. destruct turn; repeat split; eauto. }
  rewrite (create_postcard_composed _ _ _ _ _ _ _ _ Hraw Hopen Hprep).
  destruct (caption nh 314 _ _) as [lines failure]. cbv zeta.
  assert (Hq : announced (rotation_note turn ++ report failure) = [] /\
               reported_done (rotation_note turn ++ report failure) = []).
  { destruct turn, failure; split; reflexivity. }
  destruct Hq as [Hq1 Hq2].
  destruct (save_error _ output_path) as [e|].
  - eexists false, _, _, _. split; [reflexivity|]. cbn [stdout files canvas].
    split; [reflexivity|]. split; [exact Hq1|]. split; [exact Hq2|]. split.
    + intros p Hp. apply lookup_insert_ne. congruence.
    + split; [right; eexists; reflexivity | right; reflexivity].
  - eexists true, _, _, _. split; [reflexivity|]. cbn [stdout files canvas].
    split; [reflexivity|]. split; [exact Hq1|]. split; [exact Hq2|]. split.
    + intros p Hp. apply lookup_insert_ne. congruence.
    + split; [reflexivity | apply lookup_insert_eq].
Qed.

(** *** The batch *)

Lemma output_paths_cons (output_folder filename : string) (rest : list string) :
  output_paths output_folder (filename :: rest)
  = if is_supported filename
    then output_path_of output_folder filename :: output_paths output_folder rest
    else output_paths output_folder rest.
Proof. unfold output_paths. cbn [List.filter]. destruct (is_supported filename); reflexivity. Qed.

(** One turn of the loop: a supported name is announced and handed to
    [create_postcard]; any other name leaves no trace. *)
Lemma process_file_effect (input_folder output_folder filename : string)
    (n : Z) (w : world) :
  exists (n' : Z) (w' : world) (msgs : list message),
    process_file input_folder output_folder filename n w = (Ok n', w') /\
    stdout w' = stdout w ++ msgs /\
    announced msgs = (if is_supported filename then [filename] else []) /\
    n' = n + Z.of_nat (List.length (reported_done msgs)) /\
    (reported_done msgs = [] \/
     is_supported filename = true /\
     reported_done msgs = [output_path_of output_folder filename]) /\
    (forall p, (is_supported filename = true -> p <> output_path_of output_folder filename) ->
               files w' !! p = files w !! p).
Proof.
  destruct (is_supported filename) eqn:Hs.
  - destruct (create_postcard_effect (input_path_of input_folder filename)
                (output_path_of output_folder filename) (say w [Processing filename]))
      as (ok & w' & notes & last & E & Hout & Ha & Hd & Hfr & Hv).
    rewrite (process_file_supported _ _ _ n w w' ok Hs E).
    exists (if ok then n + 1 else n), w', ([Processing filename] ++ notes ++ [last]).
    split; [reflexivity|]. split.
    { rewrite Hout. unfold say. cbn [stdout]. rewrite <- app_assoc. reflexivity. }
    rewrite !announced_app, !reported_done_app, Ha, Hd. cbn [app].
    destruct ok.
    + destruct Hv as [-> _]. cbn. repeat split; auto.
    + destruct Hv as [[->|[e ->]] _]; cbn; repeat split; auto; lia.
  - exists n, w, []. unfold process_file. rewrite Hs. cbn.
    rewrite app_nil_r, Z.add_0_r. repeat split; auto.
Qed.

(** The loop over a listing. *)
Lemma process_files_effect (input_folder output_folder : string)
    (filenames : list string) (n : Z) (w : world) :
  exists (n' : Z) (w' : world) (msgs : list message),
    process_files input_folder output_folder filenames n w = (Ok n', w') /\
    stdout w' = stdout w ++ msgs /\
    announced msgs = List.filter is_supported filenames /\
    n' = n + Z.of_nat (List.length (reported_done msgs)) /\
    sublist (reported_done msgs) (output_paths output_folder filenames) /\
    (forall p, p ∉ output_paths output_folder filenames ->
               files w' !! p = files w !! p).
Proof.
  revert n w. induction filenames as [|filename rest IH]; intros n w.
  - exists n, w, []. cbn. rewrite app_nil_r, Z.add_0_r.
    repeat split; auto.
  - destruct (process_file_effect input_folder output_folder filename n w)
      as (n1 & w1 & m1 & E1 & Ho1 & Ha1 & Hn1 & Hd1 & Hf1).
    destruct (IH n1 w1) as (n2 & w2 & m2 & E2 & Ho2 & Ha2 & Hn2 & Hd2 & Hf2).
    exists n2, w2, (m1 ++ m2).
    rewrite (process_files_cons _ _ _ _ _ _ _ _ E1), output_paths_cons.
    split; [exact E2|]. split; [rewrite Ho2, Ho1, app_assoc; reflexivity|].
    rewrite announced_app, reported_done_app, Ha1, Ha2, List.length_app. cbn [List.filter].
    split; [destruct (is_supported filename); reflexivity|].
    split; [lia|]. split.
    + destruct Hd1 as [->|[Hs ->]]; cbn [app].
      * destruct (is_supported filename); [apply sublist_cons|]; exact Hd2.
      * rewrite Hs. apply sublist_skip, Hd2.
    + intros p Hp. rewrite Hf2, Hf1; [reflexivity| |].
      * intros Hs. rewrite Hs in Hp. intros ->. apply Hp. left.
      * destruct (is_supported filename); [|exact Hp].
        intros Hin. apply Hp. right. exact Hin.
Qed.

Lemma process_files_idle (input_folder output_folder : string)
    (filenames : list string) (n : Z) (w : world) :
  List.filter is_supported filenames = [] ->
  process_files input_folder output_folder filenames n w = (Ok n, w).
Proof.
  revert n w. induction filenames as [|filename rest IH]; intros n w Hnone; [reflexivity|].
  cbn [List.filter] in Hnone. destruct (is_supported filename) eqn:Hs; [discriminate|].
  rewrite (process_files_cons _ _ _ _ n n w w); [apply IH, Hnone|].
  unfold process_file. rewrite Hs. reflexivity.
Qed.

End ComposerMore.

(** ** The properties *)

Section LayoutExtras.
Import Binary64 Binary64Facts LayoutFacts LayoutMore.

(** X2. Unless the source is more than 1239 times wider than high or
    more than 1432 times higher than wide, neither side of the content
    size is zero. *)
Theorem X2_content_not_degenerate (width height w' h' : Z) :
  0 < width -> 0 < height ->
  width <= 1239 * height -> height <= 1432 * width ->
  calculate_dimensions width height = Ok (w', h') ->
  1 <= w' /\ 1 <= h'.
Proof.
  intros Hw Hh Hwide Hhigh E.
  destruct (calculate_dimensions_fit _ _ _ _ Hw Hh E) as (s & pw & ph & Hfit & -> & ->).
  apply (fit_positive width height s); assumption.
Qed.

Lemma X2_content_not_degenerate_witness :
  calculate_dimensions 1239 1 = Ok (1240, 1) /\ 1 <= 1240 /\ 1 <= 1.
Proof.
  assert (E : calculate_dimensions 1239 1 = Ok (1240, 1)) by (vm_compute; reflexivity).
  split; [exact E|].
  apply (X2_content_not_degenerate 1239 1 1240 1); [lia | lia | lia | lia | exact E].
Defined.

(** X3. The content keeps the orientation of the source: the longer
    side of the source is the longer side of the content, when the shorter
    side is at most 2^50. *)
Theorem X3_orientation_kept (width height w' h' : Z) :
  0 < width -> 0 < height -> Z.min width height <= 2 ^ 50 ->
  calculate_dimensions width height = Ok (w', h') ->
  (height <= width -> h' <= w') /\ (width <= height -> w' <= h').
Proof.
  intros Hw Hh Hmin E.
  destruct (calculate_dimensions_fit _ _ _ _ Hw Hh E) as (s & pw & ph & Hfit & Ew & Eh).
  destruct (fit_nonneg _ _ _ _ _ Hw Hh Hfit) as [Hpw0 Hph0].
  destruct Hfit as [Hs _ _ _ [Hpl Hph] [Hql Hqh]].
  split; intros Hle.
  - destruct (Z.eq_dec height width) as [->|Hne].
    + rewrite (calculate_dimensions_square _ _ _ E). lia.
    + subst w' h'. apply to_int_mono; [assumption|].
      apply (product_order width height s); try assumption; lia.
  - destruct (Z.eq_dec height width) as [->|Hne].
    + rewrite (calculate_dimensions_square _ _ _ E). lia.
    + subst w' h'. apply to_int_mono; [assumption|].
      apply (product_order height width s); try assumption; lia.
Qed.

Lemma X3_orientation_kept_witness :
  calculate_dimensions 4000 3000 = Ok (1240, 930) /\ 930 <= 1240.
Proof.
  assert (E : calculate_dimensions 4000 3000 = Ok (1240, 930)) by (vm_compute; reflexivity).
  split; [exact E|].
  apply (X3_orientation_kept 4000 3000 1240 930 ltac:(lia) ltac:(lia)
           ltac:(vm_compute; discriminate) E).
  lia.
Defined.

(** X4. Whenever [should_rotate_for_a6] asks for a rotation, the image is
    landscape and the content computed for the turned image is larger:
    its height is at least 1363, above the 1240 the unturned width is
    limited to, and its width is at least the unturned height. *)
Theorem X4_rotation_enlarges (width height a b c d : Z) :
  0 < height ->
  should_rotate_for_a6 width height = Ok true ->
  calculate_dimensions width height = Ok (a, b) ->
  calculate_dimensions height width = Ok (c, d) ->
  height < width /\ a <= 1240 /\ 1363 <= d /\ b <= c.
Proof.
  intros Hh Hturn E E'.
  assert (Hhw : height < width).
  { revert Hturn. unfold should_rotate_for_a6.
    destruct (Z.ltb_spec height width); [intros _; assumption | discriminate]. }
  assert (Hw : 0 < width) by lia. split; [exact Hhw|].
  destruct (calculate_dimensions_inv _ _ _ E) as (fw & fh & Hfw & Hfh).
  destruct (should_rotate_run width height fw fh (conj Hh Hhw) Hfw Hfh)
    as (hor & ver & sc & _ & _ & _ & Es & Hrot).
  rewrite Es in Hturn. injection Hturn as Hlt.
  pose proof (rotation_margin width height ver sc Hh Hw Hrot Hlt) as Hm.
  destruct (calculate_dimensions_fit _ _ _ _ Hw Hh E) as (s & pw & ph & Hfit & -> & ->).
  destruct (calculate_dimensions_fit _ _ _ _ Hh Hw E') as (s' & pw' & ph' & Hfit' & -> & ->).
  apply (rotation_gain width height s pw ph s' pw' ph'); assumption.
Qed.

Lemma X4_rotation_enlarges_witness :
  should_rotate_for_a6 4000 3000 = Ok true /\
  calculate_dimensions 4000 3000 = Ok (1240, 930) /\
  calculate_dimensions 3000 4000 = Ok (1074, 1433) /\
  1363 <= 1433 /\ 930 <= 1074.
Proof.
  assert (Et : should_rotate_for_a6 4000 3000 = Ok true) by (vm_compute; reflexivity).
  assert (E : calculate_dimensions 4000 3000 = Ok (1240, 930)) by (vm_compute; reflexivity).
  assert (E' : calculate_dimensions 3000 4000 = Ok (1074, 1433)) by (vm_compute; reflexivity).
  destruct (X4_rotation_enlarges 4000 3000 1240 930 1074 1433 ltac:(lia) Et E E')
    as (_ & _ & Hd & Hc).
  repeat split; assumption.
Defined.

(** X17. An image that fits the available area is not made smaller: for
    a width of at most 1240 and a height of at most 1433 neither side of
    the content is below the side of the source. *)
Theorem X17_fitting_image_not_shrunk (width height w' h' : Z) :
  0 < width <= 1240 -> 0 < height <= 1433 ->
  calculate_dimensions width height = Ok (w', h') ->
  width <= w' /\ height <= h'.
Proof.
  intros Hw Hh E. apply calculate_dimensions_computes in E. cbv zeta in E.
  destruct E as [-> ->].
  assert (Hs : (1 <= min (round64 (inject_Z 1240 / inject_Z width))
                         (round64 (inject_Z 1433 / inject_Z height)))%Q).
  { apply min_glb; apply ratio_ge_1; lia. }
  split; apply scaled_not_below; try assumption; lia.
Qed.

Lemma X17_fitting_image_not_shrunk_witness :
  calculate_dimensions 600 800 = Ok (1074, 1433) /\ 600 <= 1074 /\ 800 <= 1433.
Proof.
  assert (E : calculate_dimensions 600 800 = Ok (1074, 1433)) by (vm_compute; reflexivity).
  split; [exact E|].
  apply (X17_fitting_image_not_shrunk 600 800 1074 1433); [lia | lia | exact E].
Defined.

End LayoutExtras.

Section ComposerExtras.
Context `{Pillow}.
Import LayoutMore FileNameMore.

(** X1. A size with a zero side makes the planner divide by zero:
    [calculate_dimensions] raises [ZeroDivisionError] for a zero width or
    height, [should_rotate_for_a6] for a zero height; [create_postcard]
    catches it, prints the failure, returns [False] and writes nothing. *)
Theorem X1_zero_size_rejected :
  (forall h : Z, calculate_dimensions 0 h = Raise ZeroDivisionError) /\
  (forall w : Z, 0 < w < 2 ^ 1023 ->
     calculate_dimensions w 0 = Raise ZeroDivisionError /\
     should_rotate_for_a6 w 0 = Raise ZeroDivisionError) /\
  (forall (image_path output_path : string) (w0 : world) (img : image),
     is_raw image_path = false -> Image_open image_path = Ok img ->
     0 <= (size img).1 < 2 ^ 1023 -> 0 <= (size img).2 ->
     (size img).1 = 0 \/ (size img).2 = 0 ->
     create_postcard image_path output_path w0
     = (Ok false,
        World (canvas w0) (files w0)
              (stdout w0 ++ [Failed image_path ZeroDivisionError]))).
Proof.
  split; [exact calculate_dimensions_zero_width|]. split.
  - intros w Hw. split;
      [apply calculate_dimensions_zero_height | apply should_rotate_zero_height];
      exact Hw.
  - intros image_path output_path w0 img Hraw Ho Hw Hh Hz.
    destruct (Z.eq_dec (size img).1 0) as [E0|Hne].
    + apply (create_postcard_unsized _ _ _ img _ Hraw Ho).
      * rewrite E0. unfold should_rotate_for_a6.
        destruct (Z.ltb_spec (size img).2 0); [lia | reflexivity].
      * rewrite E0. apply calculate_dimensions_zero_width.
    + destruct Hz as [E0|E0]; [contradiction|].
      apply (create_postcard_undecided _ _ _ img _ Hraw Ho).
      rewrite E0. apply should_rotate_zero_height. lia.
Qed.

(** X5. The location text never depends on the coordinates: whenever
    the table has a non-empty ['GPSInfo'] entry (34853) the extraction
    returns the placeholder of [extract_gps_location], which is then the
    location line; an empty entry gives no location and the line falls
    back to ["SHENZHEN"]. *)
Theorem X5_gps_placeholder (image_path : string) (w : world) (img : image)
    (exif_dict : gmap Z exif_value) (gps_info : exif_value) :
  Image_open image_path = Ok img -> getexif img = Ok (Some exif_dict) ->
  exif_dict !! 34853 = Some gps_info ->
  exists datetime_str location_str msgs,
    extract_exif_data image_path w
    = (Ok (datetime_str, location_str),
       World (canvas w) (files w) (stdout w ++ msgs)) /\
    (truthy gps_info = true ->
     location_str = Some (EStr GPS_PLACEHOLDER) /\
     caption_location location_str = EStr GPS_PLACEHOLDER) /\
    (truthy gps_info = false ->
     location_str = None /\ caption_location location_str = EStr "SHENZHEN").
Proof.
  intros Ho Hg Hgps.
  destruct (extract_exif_data_spec image_path w) as (msgs & E & _).
  rewrite (metadata_of_table _ _ _ Ho Hg), Hgps in E. cbn [mbind option_bind] in E.
  eexists _, _, msgs. split; [exact E|].
  unfold extract_gps_location. split; intros ->; split; reflexivity.
Qed.


(** X7. The text step never raises and never touches a file: it adds
    both lines to the canvas and prints nothing, or it prints one failure
    and has added no line or the date line only. *)
Theorem X7_text_step_contained (white_bar_y white_bar_height : Z)
    (datetime_str location_str : option exif_value) (w : world) :
  exists lines msgs,
    add_text_info white_bar_y white_bar_height datetime_str location_str w
    = (Ok (), World (canvas w ++ lines) (files w) (stdout w ++ msgs)) /\
    ((msgs = [] /\
      exists f, lines = [date_line white_bar_y white_bar_height datetime_str f;
                         location_line white_bar_y white_bar_height location_str f]) \/
     (exists e, msgs = [TextFailed e] /\
        (lines = [] \/
         exists f, lines = [date_line white_bar_y white_bar_height datetime_str f]))).
Proof.
  rewrite add_text_info_spec. unfold caption.
  destruct font_choice as [f|e].
  - destruct (text_error f (caption_date datetime_str)) as [e|].
    + eexists _, _. split; [reflexivity|]. right. exists e. split; [reflexivity|].
      left. reflexivity.
    + destruct (text_error f (caption_location location_str)) as [e|].
      * eexists _, _. split; [reflexivity|]. right. exists e. split; [reflexivity|].
        right. exists f. reflexivity.
      * eexists _, _. split; [reflexivity|]. left. split; [reflexivity|].
        exists f. reflexivity.
  - eexists _, _. split; [reflexivity|]. right. exists e. split; [reflexivity|].
    left. reflexivity.
Qed.

(** X8. When the image decodes, the font loads, both lines draw and the
    encoder succeeds, [create_postcard] returns [True], prints the
    rotation note if any and the completion, and writes to the output
    path, and nowhere else, a canvas of exactly four layers: the content
    centred at the top, the strip below it down to the bottom of the
    canvas, the date line 78 pixels below the content and the location
    line 78 pixels further down, both 40 pixels from the left. *)
Theorem X8_postcard_composed (image_path output_path : string) (w : world)
    (img resized : image) (turn : bool) (new_width new_height : Z) (f : font) :
  is_raw image_path = false -> Image_open image_path = Ok img ->
  prepare img = Ok (resized, turn, new_width, new_height) ->
  font_choice = Ok f ->
  text_error f (caption_date (metadata image_path).1) = None ->
  text_error f (caption_location (metadata image_path).2) = None ->
  let cv := [Paste resized ((1240 - new_width) / 2, 0);
             Rectangle (0, new_height, 1240, 1748) (248, 246, 240);
             Text (40, new_height + 78) (caption_date (metadata image_path).1)
                  (90, 90, 90) f;
             Text (40, new_height + 78 + 78) (caption_location (metadata image_path).2)
                  (90, 90, 90) f] in
  save_error cv output_path = None ->
  create_postcard image_path output_path w
  = (Ok true,
     World cv (<[output_path := Encoded cv]> (files w))
           (stdout w ++ rotation_note turn ++ [Done output_path])).
Proof.
  intros Hraw Ho Hp Hf Hd Hl cv Hs.
  rewrite (create_postcard_composed _ _ _ _ _ _ _ _ Hraw Ho Hp).
  unfold caption. rewrite Hf, Hd, Hl. cbv zeta.
  change (base_canvas resized new_width new_height ++
          [date_line new_height 314 (metadata image_path).1 f;
           location_line new_height 314 (metadata image_path).2 f]) with cv.
  rewrite Hs. cbn [report]. rewrite app_nil_r. reflexivity.
Qed.

(** X9. Every call of [create_postcard] returns a verdict and prints at
    least one message, the last one telling the verdict; it changes no
    file but the one at the output path; [True] is returned only with the
    completion printed last and the canvas encoded in full at the output
    path; [False] comes with a failure printed last and no completion. *)
Theorem X9_verdict_and_files (image_path output_path : string) (w : world) :
  exists (ok : bool) (w' : world) (notes : list message) (last : message),
    create_postcard image_path output_path w = (Ok ok, w') /\
    stdout w' = stdout w ++ notes ++ [last] /\
    (forall p, p <> output_path -> files w' !! p = files w !! p) /\
    (ok = true ->
     last = Done output_path /\
     files w' !! output_path = Some (Encoded (canvas w'))) /\
    (ok = false ->
     (last = CannotRead image_path \/ exists e, last = Failed image_path e) /\
     reported_done (notes ++ [last]) = []).
Proof.
  destruct (create_postcard_effect image_path output_path w)
    as (ok & w' & notes & last & E & Ho & _ & Hd & Hf & Hv).
  exists ok, w', notes, last. split; [exact E|]. split; [exact Ho|].
  split; [exact Hf|]. split; intros ->.
  - exact Hv.
  - destruct Hv as [Hl _]. split; [exact Hl|].
    rewrite reported_done_app, Hd. destruct Hl as [->|[e ->]]; reflexivity.
Qed.

(** X10. When the encoder fails, the file counts as failed:
    [create_postcard] returns [False] and prints the failure instead of
    the completion, after the notes of the steps before; no other file
    changes, and the batch does not count the file. *)
Theorem X10_encoder_failure (image_path output_path : string)
    (img resized : image) (turn : bool) (new_width new_height : Z)
    (lines : list (draw_op image font)) (failure : option exn) (e : exn) :
  is_raw image_path = false -> Image_open image_path = Ok img ->
  prepare img = Ok (resized, turn, new_width, new_height) ->
  caption new_height 314 (metadata image_path).1 (metadata image_path).2
  = (lines, failure) ->
  save_error (base_canvas resized new_width new_height ++ lines) output_path = Some e ->
  (forall w : world,
     exists w',
       create_postcard image_path output_path w = (Ok false, w') /\
       stdout w'
       = stdout w ++ rotation_note turn ++ report failure ++ [Failed image_path e] /\
       forall p, p <> output_path -> files w' !! p = files w !! p) /\
  (forall (input_folder output_folder filename : string) (n : Z) (w : world),
     is_supported filename = true ->
     image_path = input_path_of input_folder filename ->
     output_path = output_path_of output_folder filename ->
     (process_file input_folder output_folder filename n w).1 = Ok n).
Proof.
  intros Hraw Ho Hp Hc Hs.
  assert (Hrun : forall w : world,
             create_postcard image_path output_path w
             = (Ok false,
                World (base_canvas resized new_width new_height ++ lines)
                      (<[output_path := Truncated]> (files w))
                      (stdout w ++ (rotation_note turn ++ report failure)
                       ++ [Failed image_path e]))).
  { intros w. rewrite (create_postcard_composed _ _ _ _ _ _ _ _ Hraw Ho Hp), Hc.
    cbv zeta. rewrite Hs. reflexivity. }
  split.
  - intros w. eexists. split; [apply Hrun|]. cbn [stdout files]. split.
    + rewrite <- app_assoc. reflexivity.
    + intros p Hne. apply lookup_insert_ne. congruence.
  - intros input_folder output_folder filename n w Hsup -> ->.
    rewrite (process_file_supported _ _ _ n w _ false Hsup (Hrun _)). reflexivity.
Qed.

(** X11. The log of the loop: one announcement for each supported name,
    in the order of the listing, and none for the others; the count grows
    by the number of completions printed; the completions are output paths
    of supported names, in order; so the count grows by at most the number
    of supported names. *)
Theorem X11_batch_log (input_folder output_folder : string)
    (filenames : list string) (n : Z) (w : world) :
  exists (n' : Z) (w' : world) (msgs : list message),
    process_files input_folder output_folder filenames n w = (Ok n', w') /\
    stdout w' = stdout w ++ msgs /\
    announced msgs = List.filter is_supported filenames /\
    n' = n + Z.of_nat (List.length (reported_done msgs)) /\
    sublist (reported_done msgs) (output_paths output_folder filenames) /\
    n <= n' <= n + Z.of_nat (List.length (List.filter is_supported filenames)).
Proof.
  destruct (process_files_effect input_folder output_folder filenames n w)
    as (n' & w' & msgs & E & Ho & Ha & Hn & Hd & _).
  exists n', w', msgs. do 4 (split; [assumption|]). split; [exact Hd|].
  apply sublist_length in Hd. unfold output_paths in Hd.
  rewrite length_map in Hd. lia.
Qed.

(** X12. The loop writes at output paths only: a path that is not the
    output path of a supported name of the listing holds after the loop
    what it held before. *)
Theorem X12_batch_writes_outputs_only (input_folder output_folder : string)
    (filenames : list string) (n : Z) (w : world) (p : string) :
  p ∉ output_paths output_folder filenames ->
  files (process_files input_folder output_folder filenames n w).2 !! p
  = files w !! p.
Proof.
  intros Hp.
  destruct (process_files_effect input_folder output_folder filenames n w)
    as (n' & w' & msgs & -> & _ & _ & _ & _ & Hf).
  apply Hf, Hp.
Qed.

Lemma process_folder_runs (input_folder output_folder : string)
    (filenames : list string) (n : Z) (w w' : world) :
  path_exists output_folder = true \/ makedirs output_folder = Ok () ->
  listdir input_folder = Ok filenames ->
  process_files input_folder output_folder filenames 0 w = (Ok n, w') ->
  process_folder input_folder output_folder w = (Ok (), say w' [Summary n]).
Proof.
  intros Hdir Hls Hrun. unfold process_folder.
  cbv beta iota zeta delta [mbind mret M_bind M_ret lift print].
  destruct (path_exists output_folder).
  - rewrite Hls, Hrun. reflexivity.
  - destruct Hdir as [Hd|Hd]; [discriminate|]. rewrite Hd, Hls, Hrun. reflexivity.
Qed.

(** X13. A listing without a supported name, the empty listing
    included: [process_folder] prints the summary with count 0 and nothing
    else, and changes neither the canvas nor any file. *)
Theorem X13_nothing_to_process (input_folder output_folder : string)
    (filenames : list string) (w : world) :
  path_exists output_folder = true \/ makedirs output_folder = Ok () ->
  listdir input_folder = Ok filenames ->
  List.filter is_supported filenames = [] ->
  process_folder input_folder output_folder w
  = (Ok (), World (canvas w) (files w) (stdout w ++ [Summary 0])).
Proof.
  intros Hdir Hls Hnone.
  apply (process_folder_runs _ _ filenames 0 w w Hdir Hls).
  apply process_files_idle, Hnone.
Qed.

(** X14. [process_folder] lets the failures of the file system through:
    when the output folder is missing and cannot be created, or when the
    input folder cannot be listed, it raises that error and prints
    nothing. Otherwise it returns, and the last message is the summary with
    the number of completions printed before it. *)
Theorem X14_folder_errors_propagate (input_folder output_folder : string)
    (w : world) :
  (forall e, path_exists output_folder = false -> makedirs output_folder = Raise e ->
     process_folder input_folder output_folder w = (Raise e, w)) /\
  (forall e, path_exists output_folder = true \/ makedirs output_folder = Ok () ->
     listdir input_folder = Raise e ->
     process_folder input_folder output_folder w = (Raise e, w)) /\
  (forall filenames,
     path_exists output_folder = true \/ makedirs output_folder = Ok () ->
     listdir input_folder = Ok filenames ->
     exists w' msgs,
       process_folder input_folder output_folder w = (Ok (), w') /\
       stdout w'
       = stdout w ++ msgs ++ [Summary (Z.of_nat (List.length (reported_done msgs)))] /\
       announced msgs = List.filter is_supported filenames /\
       forall p, p ∉ output_paths output_folder filenames ->
                 files w' !! p = files w !! p).
Proof.
  split; [|split].
  - intros e Hno Hmk. unfold process_folder.
    cbv beta iota zeta delta [mbind mret M_bind M_ret lift print].
    rewrite Hno, Hmk. reflexivity.
  - intros e Hdir Hls. unfold process_folder.
    cbv beta iota zeta delta [mbind mret M_bind M_ret lift print].
    destruct (path_exists output_folder).
    + rewrite Hls. reflexivity.
    + destruct Hdir as [Hd|Hd]; [discriminate|]. rewrite Hd, Hls. reflexivity.
  - intros filenames Hdir Hls.
    destruct (process_files_effect input_folder output_folder filenames 0 w)
      as (n' & w' & msgs & E & Ho & Ha & Hn & _ & Hf).
    exists (say w' [Summary n']), msgs.
    split; [exact (process_folder_runs _ _ _ _ _ _ Hdir Hls E)|].
    unfold say. cbn [stdout files]. rewrite Ho, Hn, Z.add_0_l, <- app_assoc.
    repeat split; assumption.
Qed.

(** X15. The filter of [process_folder]: a name is taken up exactly
    when it ends, in any letter case, in one of the six extensions
    [.jpg], [.jpeg], [.nef], [.raw], [.tiff], [.png]. *)
Theorem X15_supported_names (filename : string) :
  is_supported filename = true <->
  exists stem ext,
    filename = stem +:+ ext /\
    lower ext ∈ [".jpg"; ".jpeg"; ".nef"; ".raw"; ".tiff"; ".png"].
Proof.
  split.
  - unfold is_supported. intros (ext & Hin & He)%existsb_exists.
    destruct (endswith_lower _ _ He) as (stem & tail & -> & Hl).
    exists stem, tail. split; [reflexivity|]. rewrite Hl.
    apply list_elem_of_In, Hin.
  - intros (stem & ext & -> & Hin). apply is_supported_suffix, Hin.
Qed.

(** X16. A raw file passes the filter of the batch and then fails: it is
    announced, the read fails on the unbound name [rawpy], the file is
    reported unreadable, nothing is written and the count stays. *)
Theorem X16_raw_in_batch (input_folder output_folder filename : string)
    (n : Z) (w : world) :
  is_raw filename = true ->
  is_raw (input_path_of input_folder filename) = true ->
  is_supported filename = true /\
  process_file input_folder output_folder filename n w
  = (Ok n,
     World (canvas w) (files w)
           (stdout w ++
            [Processing filename;
             RawReadFailed (input_path_of input_folder filename) (NameError "rawpy");
             CannotRead (input_path_of input_folder filename)])).
Proof.
  intros Hraw Hpath. pose proof (is_raw_supported _ Hraw) as Hs. split; [exact Hs|].
  rewrite (process_file_supported _ _ _ n w _ false Hs
             (create_postcard_raw _ _ _ Hpath)).
  unfold say. cbn [stdout canvas files]. rewrite <- app_assoc. reflexivity.
Qed.

End ComposerExtras.

(** * The further properties at the bench *)

Lemma X1_zero_size_rejected_witness :
  let s := Bench.Setup [("in/empty.jpg", Bench.Picture (0, 480) None)] (Ok []) true None in
  @create_postcard (Bench.pillow s) "in/empty.jpg" "out/empty_postcard.jpg" (Bench.blank s)
  = (Ok false, @World (Bench.pillow s) [] ∅ [Failed "in/empty.jpg" ZeroDivisionError]).
Proof.
  intros s. destruct (@X1_zero_size_rejected (Bench.pillow s)) as (_ & _ & Hrun).
  apply (Hrun "in/empty.jpg" "out/empty_postcard.jpg" (Bench.blank s)
              (Bench.Picture (0, 480) None));
    [reflexivity | reflexivity | vm_compute; split; [discriminate | reflexivity]
    | vm_compute; discriminate | left; reflexivity].
Defined.

Lemma X5_gps_placeholder_witness :
  exists datetime_str msgs,
    @extract_exif_data (Studio.pillow true) "in/photo.jpg" (Studio.blank _)
    = (Ok (datetime_str, Some (EStr GPS_PLACEHOLDER)),
       @World (Studio.pillow true) [] ∅ msgs).
Proof.
  destruct (@X5_gps_placeholder (Studio.pillow true) "in/photo.jpg" (Studio.blank _)
              (4000, 3000) Studio.photo_exif (EDict [(1, EStr "N")])
              ltac:(reflexivity) ltac:(reflexivity) ltac:(vm_compute; reflexivity))
    as (d & l & msgs & E & Hyes & _).
  destruct (Hyes eq_refl) as [-> _]. exists d, msgs. exact E.
Defined.


Lemma photo_metadata :
  @metadata (Studio.pillow true) "in/photo.jpg"
  = (Some (EStr "Mar 15, 2024"), Some (EStr GPS_PLACEHOLDER)).
Proof. vm_compute. reflexivity. Qed.

Lemma X8_postcard_composed_witness :
  @create_postcard (Studio.pillow true) "in/photo.jpg" "out/photo_postcard.jpg"
    (Studio.blank _)
  = (Ok true,
     let cv := [Paste (1074, 1433) (83, 0);
                Rectangle (0, 1433, 1240, 1748) (248, 246, 240);
                Text (40, 1511) (EStr "Mar 15, 2024") (90, 90, 90) "arial";
                Text (40, 1589) (EStr GPS_PLACEHOLDER) (90, 90, 90) "arial"] in
     @World (Studio.pillow true) cv (<[ "out/photo_postcard.jpg" := Encoded cv ]> ∅)
            [Rotated; Done "out/photo_postcard.jpg"]).
Proof.
  pose proof (@X8_postcard_composed (Studio.pillow true) "in/photo.jpg"
                "out/photo_postcard.jpg" (Studio.blank _) (4000, 3000) (1074, 1433)
                true 1074 1433 "arial"
                ltac:(reflexivity) ltac:(reflexivity) ltac:(vm_compute; reflexivity)
                ltac:(reflexivity) ltac:(reflexivity) ltac:(reflexivity)) as E.
  rewrite photo_metadata in E. exact (E eq_refl).
Defined.

Lemma X10_encoder_failure_witness :
  let s := Bench.Setup [("in/photo.jpg", Bench.Picture (600, 800) None)] (Ok ["photo.jpg"])
                       true (Some (LibraryError "OSError")) in
  (@process_file (Bench.pillow s) "in" "out" "photo.jpg" 0 (Bench.blank s)).1 = Ok 0.
Proof.
  intros s.
  destruct (@X10_encoder_failure (Bench.pillow s) "in/photo.jpg" "out/photo_postcard.jpg"
              (Bench.Picture (600, 800) None) (Bench.Picture (1074, 1433) None)
              false 1074 1433
              [Text (40, 1511) (EStr "2024.01.01") TEXT_COLOR "arial.ttf";
               Text (40, 1589) (EStr "SHENZHEN") TEXT_COLOR "arial.ttf"]
              None (LibraryError "OSError")
              ltac:(reflexivity) ltac:(reflexivity) ltac:(vm_compute; reflexivity)
              ltac:(vm_compute; reflexivity) ltac:(reflexivity)) as [_ Hcount].
  apply Hcount; reflexivity.
Defined.

Lemma X12_batch_writes_outputs_only_witness :
  let w := @World (Studio.pillow true) [] {[ "out/keep.jpg" := Truncated ]} [] in
  files (@process_files (Studio.pillow true) "in" "out"
           ["broken.jpg"; "photo.jpg"; "notes.txt"; "shot.NEF"] 0 w).2 !! "out/keep.jpg"
  = Some Truncated.
Proof.
  intros w.
  rewrite (@X12_batch_writes_outputs_only (Studio.pillow true) "in" "out"
             ["broken.jpg"; "photo.jpg"; "notes.txt"; "shot.NEF"] 0 w "out/keep.jpg").
  - reflexivity.
  - vm_compute. intros Hin. repeat (apply elem_of_cons in Hin as [Hin|Hin]; [discriminate|]).
    apply elem_of_nil in Hin. exact Hin.
Defined.

Lemma X13_nothing_to_process_witness :
  let s := Bench.Setup [] (Ok ["notes.txt"; "scan.bmp"]) true None in
  @process_folder (Bench.pillow s) "in" "out" (Bench.blank s)
  = (Ok (), @World (Bench.pillow s) [] ∅ [Summary 0]).
Proof.
  intros s.
  apply (@X13_nothing_to_process (Bench.pillow s) "in" "out" ["notes.txt"; "scan.bmp"]
           (Bench.blank s));
    [left; reflexivity | reflexivity | vm_compute; reflexivity].
Defined.

Lemma X14_folder_errors_propagate_witness :
  let s := Bench.Setup [] (Ok []) false None in
  @process_folder (Bench.pillow s) "in" "out" (Bench.blank s)
  = (Raise (LibraryError "PermissionError"), Bench.blank s).
Proof.
  intros s.
  destruct (@X14_folder_errors_propagate (Bench.pillow s) "in" "out" (Bench.blank s))
    as (Hmk & _).
  apply Hmk; reflexivity.
Defined.

Lemma X16_raw_in_batch_witness :
  @process_file (Studio.pillow true) "in" "out" "shot.NEF" 0 (Studio.blank _)
  = (Ok 0,
     @World (Studio.pillow true) [] ∅
       [Processing "shot.NEF"; RawReadFailed "in/shot.NEF" (NameError "rawpy");
        CannotRead "in/shot.NEF"]).
Proof.
  destruct (@X16_raw_in_batch (Studio.pillow true) "in" "out" "shot.NEF" 0 (Studio.blank _)
              ltac:(vm_compute; reflexivity) ltac:(vm_compute; reflexivity)) as [_ E].
  exact E.
Defined.
